(** * Token renderer: a shallow embedding of
    [googlecloudsdk/core/document_renderers/token_renderer.py]

    The renderer is a Python object whose methods mutate its attributes and
    may raise.  It is embedded as a record of the attributes, threaded through
    a state-and-exception monad; Python [int]s are [Z], list levels are [nat],
    text is [string] (one [ascii] per character). *)

From Stdlib Require Import ZArith Lia Bool List Ascii String.
From stdpp Require Import base list strings.

Local Open Scope string_scope.
Local Open Scope list_scope.
Local Open Scope Z_scope.

(** ** Python string primitives used by the renderer *)

Module Py.

(** [str.isspace] on one character: the code points below 256 that Python
    treats as white space in a text string. *)
Definition ch_isspace (c : ascii) : bool :=
  let n := nat_of_ascii c in
  (((9 <=? n) && (n <=? 13)) || ((28 <=? n) && (n <=? 32))
   || (n =? 133) || (n =? 160))%nat.

Fixpoint all_chars (p : ascii -> bool) (s : string) : bool :=
  match s with
  | EmptyString => true
  | String c r => p c && all_chars p r
  end.

(** [s.isspace()]: false on the empty string. *)
Definition isspace (s : string) : bool :=
  match s with
  | EmptyString => false
  | _ => all_chars ch_isspace s
  end.

(** [bool(s)] *)
Definition nonempty (s : string) : bool :=
  match s with EmptyString => false | _ => true end.

(** [c in s] for a single character [c]. *)
Fixpoint contains (c : ascii) (s : string) : bool :=
  match s with
  | EmptyString => false
  | String d r => Ascii.eqb c d || contains c r
  end.

(** [s[:n]] and [s[n:]] for [0 <= n]. *)
Fixpoint take (n : nat) (s : string) : string :=
  match n, s with
  | O, _ => ""
  | S _, EmptyString => ""
  | S n', String c r => String c (take n' r)
  end.

Fixpoint drop (n : nat) (s : string) : string :=
  match n, s with
  | O, _ => s
  | S _, EmptyString => ""
  | S n', String _ r => drop n' r
  end.

(** [s[:k]] for any integer [k]: a negative [k] counts from the end. *)
Definition slice_to (k : Z) (s : string) : string :=
  if k <? 0 then take (Z.to_nat (Z.of_nat (String.length s) + k)) s
  else take (Z.to_nat k) s.

(** [s[b:e]] for [0 <= b], [0 <= e]. *)
Definition slice (b e : nat) (s : string) : string :=
  take (e - b) (drop b s).

(** [c * n]: empty when [n <= 0]. *)
Fixpoint repeat_char (c : ascii) (n : nat) : string :=
  match n with
  | O => ""
  | S n' => String c (repeat_char c n')
  end.

Definition spaces (n : Z) : string := repeat_char " " (Z.to_nat n).

Definition len (s : string) : Z := Z.of_nat (String.length s).

(** [s.split()]: the maximal runs of characters that are not white space.
    [word] is the run read so far. *)
Fixpoint split_from (word : string) (s : string) : list string :=
  match s with
  | EmptyString => if nonempty word then [word] else []
  | String c r =>
      if ch_isspace c
      then (if nonempty word then word :: split_from "" r
            else split_from "" r)
      else split_from (word +:+ String c "") r
  end.

Definition split (s : string) : list string := split_from "" s.

(** [s.split(c, 1)]: the text before the first [c] and, when there is one,
    the text after it. *)
Fixpoint split_once (c : ascii) (s : string) : string * option string :=
  match s with
  | EmptyString => ("", None)
  | String d r =>
      if Ascii.eqb c d then ("", Some r)
      else let '(a, b) := split_once c r in (String d a, b)
  end.

(** [s.partition(d)] for a non-empty [d]: [(part, remainder)], the separator
    slot being dropped as the caller drops it; [(s, "")] when [d] does not
    occur. *)
Fixpoint partition (d : string) (s : string) : string * string :=
  if String.prefix d s then ("", drop (String.length d) s)
  else match s with
       | EmptyString => ("", "")
       | String c r => let '(p, rem) := partition d r in (String c p, rem)
       end.

(** [s.endswith(d)] *)
Definition endswith (d : string) (s : string) : bool :=
  String.eqb (drop (String.length s - String.length d) s) d
  && (String.length d <=? String.length s)%nat.

(** The group matched by the regular expression "zero or more spaces"
    at the start of [s] ([re.match(...).group(1)]): its leading spaces. *)
Fixpoint leading_spaces (s : string) : string :=
  match s with
  | String c r =>
      if Ascii.eqb c " " then String " " (leading_spaces r) else ""
  | EmptyString => ""
  end.

End Py.

(** ** Tokens, runs and the renderer object *)

(** The [Token.Markdown.*] style tags the module generates. *)
Inductive Token : Type :=
  | Markdown_Bold
  | Markdown_BoldItalic
  | Markdown_Code
  | Markdown_Definition
  | Markdown_Italic
  | Markdown_Normal
  | Markdown_Section
  | Markdown_Truncated
  | Markdown_Value.

Global Instance Token_eq_dec : EqDecision Token.
Proof. solve_decision. Defined.

(** A run is a [(token_type, text)] tuple; a line is a list of runs. *)
Definition Run : Type := Token * string.
Definition Line : Type := list Run.

Definition TOKEN_TYPE_INDEX (t : Run) : Token := fst t.
Definition TOKEN_TEXT_INDEX (t : Run) : string := snd t.

(** The control sequence indicator: the NUL character. *)
Definition CSI : ascii := Ascii.zero.

(** [EMBELLISHMENTS]: a missing key is a [KeyError]. *)
Definition EMBELLISHMENTS (c : ascii) : option Token :=
  if Ascii.eqb c "B" then Some Markdown_Bold
  else if Ascii.eqb c "C" then Some Markdown_Code
  else if Ascii.eqb c "I" then Some Markdown_Italic
  else if Ascii.eqb c "N" then Some Markdown_Normal
  else if Ascii.eqb c "Z" then Some Markdown_BoldItalic
  else None.

Definition INDENT : Z := 4.
Definition SPLIT_INDENT : Z := 2.

(** [TokenRenderer.Indent]: one entry of the hanging indent stack. *)
Record Indent : Type := mkIndent {
  indent : Z;
  hanging_indent : Z
}.

Definition Indent_init (compact : bool) : Indent :=
  let i := if compact then 0 else INDENT in
  {| indent := i; hanging_indent := i |}.

(** Modelled from the spec: the font attributes of the base module
    [renderer], which is not in src/ ("a bitmask of active attributes among
    bold, italic, code; toggling XORs the corresponding bit").  The bit
    positions are the module's constants BOLD, ITALIC, CODE. *)
Inductive FontAttr : Type := BOLD | ITALIC | CODE.

(** Modelled from the spec: the bit of each font attribute in the mask
    [_font], the constants [renderer.BOLD], [renderer.ITALIC] and
    [renderer.CODE] not being in src/ (one distinct bit each). *)
Definition attr_index (a : FontAttr) : Z :=
  match a with BOLD => 0 | ITALIC => 1 | CODE => 2 end.

(** The console attribute provider ([console_attr.GetConsoleAttr]), an
    external collaborator: the renderer only calls these three methods. *)
Record ConsoleAttr : Type := mkConsoleAttr {
  DisplayWidth : string -> Z;
  GetBullets : list string;
  GetControlSequenceLen : string -> nat
}.

(** The attributes of a [TokenRenderer].  [_width], [_font] and [_blank]
    are those of the base class [renderer.Renderer]. *)
Record TokenRenderer : Type := mkTokenRenderer {
  _width : Z;
  _font : Z;
  _blank : bool;
  _compact : bool;
  _fill : Z;
  _current_token_type : Token;
  _height : Z;
  _ignore_paragraph : bool;
  _ignore_width : bool;
  _indent : list Indent;
  _level : nat;
  _lines : list Line;
  _tokens : list Run;
  _truncated : bool;
  _rows : list (list string)
}.

(** Modelled from the spec: the constructor
    [TokenRenderer(width=..., height=..., compact=...)], as far as it runs
    the constructor of the base class [renderer.Renderer], which is not in
    src/: the session starts with the configured width, no font attribute
    active and the blank-line flag set.  The other attributes are those
    [__init__] assigns. *)
Definition TokenRenderer_init (width height : Z) (compact : bool)
  : TokenRenderer :=
  {| _width := width; _font := 0; _blank := true;
     _compact := compact; _fill := 0;
     _current_token_type := Markdown_Normal; _height := height;
     _ignore_paragraph := false; _ignore_width := false;
     _indent := [Indent_init compact]; _level := 0%nat;
     _lines := []; _tokens := []; _truncated := false; _rows := [] |}.

(** Attribute assignment. *)
Definition set_font (v : Z) (s : TokenRenderer) : TokenRenderer :=
  mkTokenRenderer s.(_width) v s.(_blank) s.(_compact) s.(_fill)
    s.(_current_token_type) s.(_height) s.(_ignore_paragraph)
    s.(_ignore_width) s.(_indent) s.(_level) s.(_lines) s.(_tokens)
    s.(_truncated) s.(_rows).
Definition set_blank (v : bool) (s : TokenRenderer) : TokenRenderer :=
  mkTokenRenderer s.(_width) s.(_font) v s.(_compact) s.(_fill)
    s.(_current_token_type) s.(_height) s.(_ignore_paragraph)
    s.(_ignore_width) s.(_indent) s.(_level) s.(_lines) s.(_tokens)
    s.(_truncated) s.(_rows).
Definition set_fill (v : Z) (s : TokenRenderer) : TokenRenderer :=
  mkTokenRenderer s.(_width) s.(_font) s.(_blank) s.(_compact) v
    s.(_current_token_type) s.(_height) s.(_ignore_paragraph)
    s.(_ignore_width) s.(_indent) s.(_level) s.(_lines) s.(_tokens)
    s.(_truncated) s.(_rows).
Definition set_current_token_type (v : Token) (s : TokenRenderer)
  : TokenRenderer :=
  mkTokenRenderer s.(_width) s.(_font) s.(_blank) s.(_compact) s.(_fill)
    v s.(_height) s.(_ignore_paragraph)
    s.(_ignore_width) s.(_indent) s.(_level) s.(_lines) s.(_tokens)
    s.(_truncated) s.(_rows).
Definition set_ignore_paragraph (v : bool) (s : TokenRenderer)
  : TokenRenderer :=
  mkTokenRenderer s.(_width) s.(_font) s.(_blank) s.(_compact) s.(_fill)
    s.(_current_token_type) s.(_height) v
    s.(_ignore_width) s.(_indent) s.(_level) s.(_lines) s.(_tokens)
    s.(_truncated) s.(_rows).
Definition set_ignore_width (v : bool) (s : TokenRenderer) : TokenRenderer :=
  mkTokenRenderer s.(_width) s.(_font) s.(_blank) s.(_compact) s.(_fill)
    s.(_current_token_type) s.(_height) s.(_ignore_paragraph)
    v s.(_indent) s.(_level) s.(_lines) s.(_tokens)
    s.(_truncated) s.(_rows).
Definition set_indent (v : list Indent) (s : TokenRenderer) : TokenRenderer :=
  mkTokenRenderer s.(_width) s.(_font) s.(_blank) s.(_compact) s.(_fill)
    s.(_current_token_type) s.(_height) s.(_ignore_paragraph)
    s.(_ignore_width) v s.(_level) s.(_lines) s.(_tokens)
    s.(_truncated) s.(_rows).
Definition set_level (v : nat) (s : TokenRenderer) : TokenRenderer :=
  mkTokenRenderer s.(_width) s.(_font) s.(_blank) s.(_compact) s.(_fill)
    s.(_current_token_type) s.(_height) s.(_ignore_paragraph)
    s.(_ignore_width) s.(_indent) v s.(_lines) s.(_tokens)
    s.(_truncated) s.(_rows).
Definition set_lines (v : list Line) (s : TokenRenderer) : TokenRenderer :=
  mkTokenRenderer s.(_width) s.(_font) s.(_blank) s.(_compact) s.(_fill)
    s.(_current_token_type) s.(_height) s.(_ignore_paragraph)
    s.(_ignore_width) s.(_indent) s.(_level) v s.(_tokens)
    s.(_truncated) s.(_rows).
Definition set_tokens (v : list Run) (s : TokenRenderer) : TokenRenderer :=
  mkTokenRenderer s.(_width) s.(_font) s.(_blank) s.(_compact) s.(_fill)
    s.(_current_token_type) s.(_height) s.(_ignore_paragraph)
    s.(_ignore_width) s.(_indent) s.(_level) s.(_lines) v
    s.(_truncated) s.(_rows).
Definition set_truncated (v : bool) (s : TokenRenderer) : TokenRenderer :=
  mkTokenRenderer s.(_width) s.(_font) s.(_blank) s.(_compact) s.(_fill)
    s.(_current_token_type) s.(_height) s.(_ignore_paragraph)
    s.(_ignore_width) s.(_indent) s.(_level) s.(_lines) s.(_tokens)
    v s.(_rows).
Definition set_rows (v : list (list string)) (s : TokenRenderer)
  : TokenRenderer :=
  mkTokenRenderer s.(_width) s.(_font) s.(_blank) s.(_compact) s.(_fill)
    s.(_current_token_type) s.(_height) s.(_ignore_paragraph)
    s.(_ignore_width) s.(_indent) s.(_level) s.(_lines) s.(_tokens)
    s.(_truncated) v.

(** ** The state-and-exception monad *)

(** The exceptions the module's own statements can raise. *)
Inductive PyExc : Type := IndexError | KeyError | ZeroDivisionError.

(** The outcome of a call: a value or an exception, with the object as the
    call left it (an exception does not undo the assignments before it). *)
Inductive Result (A : Type) : Type :=
  | Ok (a : A) (s : TokenRenderer)
  | Raise (e : PyExc) (s : TokenRenderer).
Arguments Ok {A} a s.
Arguments Raise {A} e s.

Definition M (A : Type) : Type := TokenRenderer -> Result A.

Definition ret {A} (a : A) : M A := fun s => Ok a s.
Definition bind {A B} (m : M A) (f : A -> M B) : M B :=
  fun s => match m s with
           | Ok a s' => f a s'
           | Raise e s' => Raise e s'
           end.
Definition raise {A} (e : PyExc) : M A := fun s => Raise e s.
Definition gets {A} (f : TokenRenderer -> A) : M A := fun s => Ok (f s) s.
Definition modify (f : TokenRenderer -> TokenRenderer) : M unit :=
  fun s => Ok tt (f s).

Notation "'let*' x ':=' c 'in' k" := (bind c (fun x => k))
  (at level 10, x pattern, c at level 100, k at level 200).
Notation "c ';;' k" := (bind c (fun _ => k))
  (at level 100, k at level 200, right associativity).

(** The object after a call, however the call ended. *)
Definition state_of {A} (r : Result A) : TokenRenderer :=
  match r with Ok _ s => s | Raise _ s => s end.

Definition when (b : bool) (m : M unit) : M unit :=
  if b then m else ret tt.

(** ** The methods of [TokenRenderer] *)

Section Renderer.

Context (attr : ConsoleAttr).

(** [self._indent[i]] and assignment to one of its attributes: an index out
    of range is an [IndexError]. *)
Definition indent_at (i : nat) : M Indent :=
  let* l := gets _indent in
  match l !! i with
  | Some x => ret x
  | None => raise IndexError
  end.

Definition indent_assign (i : nat) (f : Indent -> Indent) : M unit :=
  let* x := indent_at i in
  modify (fun s => set_indent (<[i := f x]> s.(_indent)) s).

Definition with_indent (v : Z) (x : Indent) : Indent :=
  {| indent := v; hanging_indent := x.(hanging_indent) |}.
Definition with_hanging_indent (v : Z) (x : Indent) : Indent :=
  {| indent := x.(indent); hanging_indent := v |}.

(** Modelled from the spec: [Blank] of the base class [renderer.Renderer],
    which is not in src/, records that the last output line is blank. *)
Definition Blank : M unit := modify (set_blank true).

(** Modelled from the spec: [Content] of the base class, not in src/,
    records that the last output line is not blank. *)
Definition Content : M unit := modify (set_blank false).

(** Modelled from the spec: [HaveBlank] of the base class, not in src/,
    tells whether the last output line is blank. *)
Definition HaveBlank : M bool := gets _blank.

(** [_UnFormat]: every [CSI] is dropped together with the character after
    it ([i = j + 2]); a [CSI] that ends the text is dropped alone. *)
Fixpoint _UnFormat (text : string) : string :=
  match text with
  | EmptyString => ""
  | String c rest =>
      if Ascii.eqb c CSI then
        match rest with
        | EmptyString => ""
        | String _ rest' => _UnFormat rest'
        end
      else String c (_UnFormat rest)
  end.

Definition marker_string : string := "...".
Definition marker_width : Z := Py.len marker_string.
Definition marker_token : Run := (Markdown_Truncated, marker_string).

(** The loop of [_Truncate] over the tokens of the line: the tokens kept,
    the one that crosses the room left for the marker trimmed, the ones
    after it dropped. *)
Fixpoint truncate_tokens (available : Z) (tokens : list Run) : list Run :=
  match tokens with
  | [] => []
  | token :: rest =>
      let word := TOKEN_TEXT_INDEX token in
      let width := attr.(DisplayWidth) word in
      let available := available - width in
      if available <=? marker_width then
        let trim := marker_width - available in
        let word := if trim =? 0 then word else Py.slice_to (- trim) word in
        [(TOKEN_TYPE_INDEX token, word)]
      else token :: truncate_tokens available rest
  end.

(** [_Truncate(tokens, overflow)] *)
Definition _Truncate (tokens : list Run) (overflow : option (string * Z))
  : M (list Run) :=
  modify (set_truncated true) ;;
  let* tokens :=
    match tokens, overflow with
    | _ :: _, Some (word, available) =>
        if marker_width =? available then
          ret tokens
        else if marker_width + 1 <=? available then
          let word :=
            " " +:+ Py.slice_to (available - marker_width - 1) (_UnFormat word)
          in
          let* t := gets _current_token_type in
          ret (tokens ++ [(t, word)])
        else
          let* width := gets _width in
          ret (truncate_tokens width tokens)
    | _, _ => ret tokens
    end in
  ret (tokens ++ [marker_token]).

(** The trailing-space loop of [_NewLine] on the last line: its trailing
    runs of white space are deleted. *)
Fixpoint delete_trailing_space (line : Line) : Line :=
  match line with
  | [] => []
  | t :: rest =>
      match delete_trailing_space rest with
      | [] => if Py.isspace (TOKEN_TEXT_INDEX t) then [] else [t]
      | rest' => t :: rest'
      end
  end.

(** [lines[-1] = f(lines[-1])] on a non-empty list. *)
Fixpoint on_last (f : Line -> Line) (lines : list Line) : list Line :=
  match lines with
  | [] => []
  | [l] => [f l]
  | l :: ls => l :: on_last f ls
  end.

(** [_NewLine(overflow)] *)
Definition _NewLine (overflow : option (string * Z)) : M unit :=
  let* tokens := gets _tokens in
  modify (set_tokens []) ;;
  let* truncated := gets _truncated in
  let* compact := gets _compact in
  if truncated || (negb (bool_decide (tokens <> [])) && compact) then ret tt
  else
    modify (fun s => set_lines (on_last delete_trailing_space s.(_lines)) s) ;;
    let* height := gets _height in
    let* lines := gets _lines in
    let* tokens :=
      if negb (height =? 0)
         && (Z.of_nat (length lines)
             + (if bool_decide (tokens <> []) then 1 else 0) >=? height)
      then _Truncate tokens overflow
      else ret tokens in
    modify (fun s => set_lines (s.(_lines) ++ [tokens]) s).

(** [_MergeOrAddToken(text, token_type)] *)
Definition _MergeOrAddToken (text : string) (token_type : Token) : M unit :=
  if negb (Py.nonempty text) then ret tt
  else
    let* tokens := gets _tokens in
    match last tokens with
    | None => modify (set_tokens (tokens ++ [(token_type, text)]))
    | Some prv =>
        if bool_decide (TOKEN_TYPE_INDEX prv <> token_type) then
          modify (set_tokens (tokens ++ [(token_type, text)]))
        else if bool_decide (TOKEN_TYPE_INDEX prv = Markdown_Section) then
          let prv_text := TOKEN_TEXT_INDEX prv in
          let prv_indent := Py.leading_spaces prv_text in
          let new_indent := Py.leading_spaces text in
          if String.eqb prv_indent new_indent then
            modify (set_tokens (removelast tokens ++ [(token_type, text)]))
          else
            _NewLine None ;;
            modify (fun s => set_tokens (s.(_tokens) ++ [(token_type, text)]) s)
        else
          modify (set_tokens
                    (removelast tokens
                     ++ [(token_type, TOKEN_TEXT_INDEX prv +:+ text)]))
    end.

(** The [while True] loop of [_AddToken], reading [text] from index [i]:
    [seg] is [text[i:j]] as far as it has been read, [rest] the text still
    to be searched for the next [CSI]. *)
Fixpoint AddToken_loop (seg rest : string) (token_type : Token) : M unit :=
  match rest with
  | EmptyString => _MergeOrAddToken seg token_type
  | String c rest' =>
      if Ascii.eqb c CSI then
        _MergeOrAddToken seg token_type ;;
        match rest' with
        | EmptyString => raise IndexError
        | String e rest'' =>
            match EMBELLISHMENTS e with
            | None => raise KeyError
            | Some token_type =>
                modify (set_current_token_type token_type) ;;
                AddToken_loop "" rest'' token_type
            end
        end
      else AddToken_loop (seg +:+ String c "") rest' token_type
  end.

(** [_AddToken(text, token_type=None)] *)
Definition _AddToken (text : string) (token_type : option Token) : M unit :=
  when (Py.nonempty text && negb (Py.isspace text))
       (modify (set_ignore_paragraph false)) ;;
  let* token_type :=
    match token_type with
    | Some t => ret t
    | None => gets _current_token_type
    end in
  if negb (Py.contains CSI text) then _MergeOrAddToken text token_type
  else AddToken_loop "" text token_type.

(** [_AddDefinition(text)] *)
Definition _AddDefinition (text : string) : M unit :=
  let text := _UnFormat text in
  let parts := Py.split_once "=" text in
  _AddToken (fst parts) (Some Markdown_Definition) ;;
  match snd parts with
  | Some value =>
      _AddToken "=" (Some Markdown_Normal) ;;
      _AddToken value (Some Markdown_Value)
  | None => ret tt
  end ;;
  _NewLine None.

(** [_Flush()] *)
Definition _Flush : M unit :=
  modify (set_ignore_width false) ;;
  let* fill := gets _fill in
  when (negb (fill =? 0))
       (_NewLine None ;; Content ;; modify (set_fill 0)).

(** One turn of the [while self._level < level] loop of [_SetIndent]. *)
Definition SetIndent_step (indent_ : Z) (hanging_indent_ : option Z)
  : M unit :=
  let* prev_level := gets _level in
  modify (set_level (S prev_level)) ;;
  let* level := gets _level in
  let* stack := gets _indent in
  when (length stack <=? level)%nat
       (modify (set_indent (stack ++ [Indent_init true]))) ;;
  let* prev := indent_at prev_level in
  indent_assign level (with_indent (prev.(indent) + indent_)) ;;
  when ((1 <? level)%nat && (prev.(hanging_indent) =? prev.(indent)))
       (indent_assign level (fun x => with_indent (x.(indent) + 1) x)) ;;
  indent_assign level (fun x => with_hanging_indent x.(indent) x) ;;
  match hanging_indent_ with
  | Some h =>
      indent_assign level
        (fun x => with_hanging_indent (x.(hanging_indent) - h) x)
  | None => ret tt
  end.

(** The loop runs once per level between the current one and [level]. *)
Fixpoint SetIndent_loop (turns : nat) (indent_ : Z)
    (hanging_indent_ : option Z) : M unit :=
  match turns with
  | O => ret tt
  | S turns' =>
      SetIndent_step indent_ hanging_indent_ ;;
      SetIndent_loop turns' indent_ hanging_indent_
  end.

(** [_SetIndent(level, indent=0, hanging_indent=None)] *)
Definition _SetIndent (level : nat) (indent_ : Z) (hanging_indent_ : option Z)
  : M unit :=
  let* cur := gets _level in
  if (cur <? level)%nat then
    SetIndent_loop (level - cur) indent_ hanging_indent_
  else
    modify (set_level level) ;;
    match hanging_indent_ with
    | Some h =>
        let* x := indent_at level in
        indent_assign level (with_indent (x.(hanging_indent) + h))
    | None => ret tt
    end.

(** [Example(line)] *)
Definition Example_ (line : string) : M unit :=
  let* level := gets _level in
  let* x := indent_at level in
  modify (set_fill (x.(indent) + INDENT)) ;;
  let* fill := gets _fill in
  _AddToken (Py.spaces fill +:+ line) (Some Markdown_Normal) ;;
  _NewLine None ;;
  Content ;;
  modify (set_fill 0).

(** The body of the [for word in line.split()] loop of [Fill]. *)
Definition Fill_word (word : string) : M unit :=
  let* fill := gets _fill in
  when (fill =? 0)
       (let* level := gets _level in
        let* compact := gets _compact in
        (if negb (level =? 0)%nat || negb compact then
           let* x := indent_at level in
           modify (set_fill (x.(indent) - 1))
         else modify (set_level 0%nat)) ;;
        let* fill := gets _fill in
        _AddToken (Py.spaces fill) None) ;;
  let width := attr.(DisplayWidth) word in
  let* fill := gets _fill in
  let* w := gets _width in
  let available := w - fill in
  let* ignore_width := gets _ignore_width in
  (if (width + 1 >=? available) && negb ignore_width then
     _NewLine (Some (word, available)) ;;
     let* level := gets _level in
     let* x := indent_at level in
     modify (set_fill x.(indent)) ;;
     let* fill := gets _fill in
     _AddToken (Py.spaces fill) None
   else
     modify (set_ignore_width false) ;;
     let* fill := gets _fill in
     when (negb (fill =? 0))
          (modify (set_fill (fill + 1)) ;; _AddToken " " None)) ;;
  modify (fun s => set_fill (s.(_fill) + width) s) ;;
  _AddToken word None.

Fixpoint Fill_words (words : list string) : M unit :=
  match words with
  | [] => ret tt
  | word :: rest => Fill_word word ;; Fill_words rest
  end.

(** [Fill(line)] *)
Definition Fill (line : string) : M unit :=
  Blank ;;
  Fill_words (Py.split line).

(** [Font(attr=None)] *)
Definition Font (a : option FontAttr) : M string :=
  match a with
  | None => modify (set_font 0)
  | Some a =>
      let mask := Z.shiftl 1 (attr_index a) in
      modify (fun s => set_font (Z.lxor s.(_font) mask) s)
  end ;;
  let* f := gets _font in
  let bit a := Z.shiftl 1 (attr_index a) in
  let font := Z.land f (Z.lor (Z.lor (bit BOLD) (bit CODE)) (bit ITALIC)) in
  let embellishment : ascii :=
    if negb (Z.land font (bit CODE) =? 0) then "C"%char
    else if font =? Z.lor (bit BOLD) (bit ITALIC) then "Z"%char
    else if font =? bit BOLD then "B"%char
    else if font =? bit ITALIC then "I"%char
    else "N"%char in
  ret (String CSI (String embellishment "")).

(** [Finish()]: the value returned is the list of lines. *)
Definition Finish : M (list Line) :=
  _Flush ;;
  Font None ;;
  gets _lines.

(** [Line()] *)
Definition Line_ : M unit :=
  let* ignore_paragraph := gets _ignore_paragraph in
  if ignore_paragraph then ret tt
  else
    _Flush ;;
    let* blank := HaveBlank in
    when (negb blank) (Blank ;; _NewLine None).

(** [Heading(level, heading)] *)
Definition Heading (level : nat) (heading : string) : M unit :=
  if (level =? 1)%nat && Py.endswith "(1)" heading then ret tt
  else
    _Flush ;;
    Line_ ;;
    Font None ;;
    let* compact := gets _compact in
    when (2 <? level)%nat
         (* two spaces, [level - 2] times *)
         (let indent_ := Py.spaces (2 * Z.of_nat (level - 2)) in
          _AddToken indent_ None ;;
          when compact
               (modify (set_ignore_paragraph true) ;;
                modify (fun s => set_fill (s.(_fill) + Py.len indent_) s))) ;;
    _AddToken heading (Some Markdown_Section) ;;
    (if compact then
       modify (set_ignore_paragraph true) ;;
       modify (fun s => set_fill (s.(_fill) + attr.(DisplayWidth) heading) s)
     else _NewLine None) ;;
    Blank ;;
    modify (set_level 0%nat) ;;
    modify (set_rows []).

(** [List(level, definition=None, end=False)] *)
Definition List_ (level : nat) (definition : option string) (end_ : bool)
  : M unit :=
  _Flush ;;
  if (level =? 0)%nat then modify (set_level level)
  else if end_ then _SetIndent level 0 None
  else
    match definition with
    | Some definition =>
        if Py.nonempty definition then
          _SetIndent level 4 (Some 3) ;;
          let* x := indent_at level in
          _AddToken (Py.spaces x.(hanging_indent)) None ;;
          _AddDefinition definition
        else
          _SetIndent level 1 (Some 0) ;;
          Line_
    | None =>
        let indent_ := if (1 <? level)%nat then 2 else 4 in
        _SetIndent level indent_ (Some 2) ;;
        let* x := indent_at level in
        let bullets := attr.(GetBullets) in
        let* bullet :=
          match bullets with
          | [] => raise ZeroDivisionError
          | _ =>
              match bullets !! ((level - 1) mod length bullets)%nat with
              | Some b => ret b
              | None => raise IndexError
              end
          end in
        _AddToken (Py.spaces x.(hanging_indent) +:+ bullet) None ;;
        let* x := indent_at level in
        modify (set_fill (x.(indent) + 1)) ;;
        modify (set_ignore_width true)
    end.

(** [_SkipSpace(line, index)]: [rest] is [line[index:]]. *)
Fixpoint SkipSpace_from (rest : string) (index : nat) : nat :=
  match rest with
  | EmptyString => index
  | String c rest' =>
      if negb (Ascii.eqb c " ") then index
      else SkipSpace_from rest' (S index)
  end.

Definition _SkipSpace (line : string) (index : nat) : nat :=
  SkipSpace_from (Py.drop index line) index.

(** [_SkipControlSequence(line, index)] *)
Definition _SkipControlSequence (line : string) (index : nat) : nat :=
  let n := attr.(GetControlSequenceLen) (Py.drop index line) in
  let n := if (n =? 0)%nat then 1%nat else n in
  (index + n)%nat.

Definition open_chars : string := "[(".
Definition close_chars : string := ")]".

(** The loop of [_SkipNest].  Every turn moves [index] forward, so
    [String.length line] turns are enough for [index < len(line)] to fail;
    [fuel] counts the turns left. *)
Fixpoint SkipNest_loop (fuel : nat) (line : string) (index : nat) (nest : Z)
  : nat :=
  match fuel with
  | O => index
  | S fuel' =>
      match String.get index line with
      | None => index
      | Some c =>
          let index := S index in
          if Py.contains c open_chars then
            SkipNest_loop fuel' line index (nest + 1)
          else if Py.contains c close_chars then
            let nest := nest - 1 in
            if nest <=? 0 then index
            else SkipNest_loop fuel' line index nest
          else if Ascii.eqb c CSI then
            SkipNest_loop fuel' line (_SkipControlSequence line index) nest
          else SkipNest_loop fuel' line index nest
      end
  end.

(** [_SkipNest(line, index)] with the default brackets. *)
Definition _SkipNest (line : string) (index : nat) : nat :=
  SkipNest_loop (String.length line) line index 0.

(** The test [i <= len(line) - 1 and line[i] == '|' and line[i + 1] == ' ']
    of [Synopsis]: [line[i + 1]] past the end is an [IndexError]. *)
Definition Synopsis_pipe (line : string) (i : nat) : PyExc + bool :=
  if Z.of_nat i <=? Py.len line - 1 then
    match String.get i line with
    | Some c =>
        if Ascii.eqb c "|" then
          match String.get (S i) line with
          | Some d => inr (Ascii.eqb d " ")
          | None => inl IndexError
          end
        else inr false
    | None => inl IndexError
    end
  else inr false.

(** The group-splitting loop of [Synopsis]: the final [beg] and [groups],
    or the exception raised.  [fuel] as in [SkipNest_loop]. *)
Fixpoint Synopsis_loop (fuel : nat) (line : string) (i beg : nat)
    (groups : list string) : PyExc + (nat * list string) :=
  match fuel with
  | O => inr (beg, groups)
  | S fuel' =>
      match String.get i line with
      | None => inr (beg, groups)
      | Some c =>
          if Ascii.eqb c " " then
            let end_ := i in
            let i := _SkipSpace line i in
            match Synopsis_pipe line i with
            | inl e => inl e
            | inr true =>
                Synopsis_loop fuel' line (_SkipSpace line (i + 1)) beg groups
            | inr false =>
                Synopsis_loop fuel' line i i
                  (groups ++ [Py.slice beg end_ line])
            end
          else if Py.contains c open_chars then
            Synopsis_loop fuel' line (_SkipNest line i) beg groups
          else if Ascii.eqb c CSI then
            Synopsis_loop fuel' line (_SkipControlSequence line i) beg groups
          else Synopsis_loop fuel' line (S i) beg groups
      end
  end.

(** The groups of a NAME or SYNOPSIS line. *)
Definition Synopsis_groups (line : string) : PyExc + list string :=
  let i := _SkipSpace line 0 in
  match Synopsis_loop (String.length line) line i i [] with
  | inl e => inl e
  | inr (beg, groups) =>
      inr (if (beg <? String.length line)%nat
           then groups ++ [Py.drop beg line] else groups)
  end.

(** The split delimiters, in order of visual emphasis. *)
Definition split_delimiters : list string := [" | "; " : "; " "; ","].

(** The body of the [for delimiter in ...] loop of
    [_SplitWideSynopsisGroup] for one delimiter: [None] is [continue],
    [Some (running_width, prev_delimiter, group)] the values at [break]. *)
Definition SplitWide_delimiter (delimiter group : string)
    (indent_ running_width : Z) (prev_delimiter : string)
  : M (option (Z * string * string)) :=
  let '(part, remainder) := Py.partition delimiter group in
  let w := attr.(DisplayWidth) part in
  let* width := gets _width in
  let finish (prev_delimiter : string) (running_width : Z) :=
    _AddToken (prev_delimiter +:+ part) None ;;
    ret (Some (running_width + Py.len prev_delimiter + w,
               delimiter, remainder)) in
  if (running_width + Py.len prev_delimiter + w >=? width)
     || (negb (String.eqb prev_delimiter ",") && String.eqb delimiter ",")
  then
    if negb (String.eqb delimiter ",")
       && (indent_ + SPLIT_INDENT + Py.len prev_delimiter + w >=? width)
    then ret None
    else
      let* prev_delimiter :=
        if String.eqb prev_delimiter ","
        then _AddToken prev_delimiter None ;; ret " "
        else ret prev_delimiter in
      let* running_width :=
        if negb (running_width =? indent_) then
          let running_width := indent_ + SPLIT_INDENT in
          _NewLine None ;;
          _AddToken (Py.spaces running_width) None ;;
          ret running_width
        else ret running_width in
      finish prev_delimiter running_width
  else finish prev_delimiter running_width.

Fixpoint SplitWide_for (delimiters : list string) (group : string)
    (indent_ running_width : Z) (prev_delimiter : string)
  : M (option (Z * string * string)) :=
  match delimiters with
  | [] => ret None
  | delimiter :: rest =>
      let* r := SplitWide_delimiter delimiter group indent_ running_width
                  prev_delimiter in
      match r with
      | Some x => ret (Some x)
      | None => SplitWide_for rest group indent_ running_width prev_delimiter
      end
  end.

(** The [while group] loop: every turn that breaks shortens [group], and
    the last delimiter always breaks; [fuel] counts the turns left. *)
Fixpoint SplitWide_loop (fuel : nat) (group : string)
    (indent_ running_width : Z) (prev_delimiter : string) : M Z :=
  match fuel with
  | O => ret running_width
  | S fuel' =>
      if negb (Py.nonempty group) then ret running_width
      else
        let* r := SplitWide_for split_delimiters group indent_ running_width
                    prev_delimiter in
        match r with
        | Some (running_width, prev_delimiter, group) =>
            SplitWide_loop fuel' group indent_ running_width prev_delimiter
        | None =>
            SplitWide_loop fuel' group indent_ running_width prev_delimiter
        end
  end.

(** [_SplitWideSynopsisGroup(group, indent, running_width)] *)
Definition _SplitWideSynopsisGroup (group : string) (indent_ running_width : Z)
  : M Z :=
  SplitWide_loop (String.length group) group indent_ running_width " ".

(** The [for group in groups] loop of [Synopsis]. *)
Fixpoint Synopsis_output (groups : list string) (indent_ running_width : Z)
  : M unit :=
  match groups with
  | [] => ret tt
  | group :: rest =>
      let w := attr.(DisplayWidth) group + 1 in
      let* width := gets _width in
      if running_width + w >=? width then
        let running_width := indent_ in
        _NewLine None ;;
        _AddToken (Py.spaces running_width) None ;;
        if running_width + w >=? width then
          let* running_width :=
            _SplitWideSynopsisGroup group indent_ running_width in
          Synopsis_output rest indent_ running_width
        else
          _AddToken (" " +:+ group) None ;;
          Synopsis_output rest indent_ (running_width + w)
      else
        _AddToken (" " +:+ group) None ;;
        Synopsis_output rest indent_ (running_width + w)
  end.

(** [Synopsis(line)] *)
Definition Synopsis (line : string) : M unit :=
  match Synopsis_groups line with
  | inl e => raise e
  | inr groups =>
      let* x := indent_at 0 in
      let indent_ := x.(indent) - 1 in
      let running_width := indent_ in
      _AddToken (Py.spaces running_width) None ;;
      let indent_ := indent_ + INDENT in
      Synopsis_output groups indent_ running_width ;;
      _NewLine None ;;
      _NewLine None
  end.

(** [TableLine(line, indent=0)] *)
Definition TableLine (line : string) (indent_ : Z) : M unit :=
  _AddToken (Py.spaces indent_ +:+ line) None ;;
  _NewLine None.

(** ** The input events of a render session *)

Inductive Event : Type :=
  | EvHeading (level : nat) (heading : string)
  | EvLine
  | EvFill (line : string)
  | EvList (level : nat) (definition : option string) (end_ : bool)
  | EvExample (line : string)
  | EvSynopsis (line : string)
  | EvTableLine (line : string) (indent_ : Z)
  | EvFont (a : option FontAttr)
  | EvFinish.

Definition run_event (ev : Event) : M unit :=
  match ev with
  | EvHeading level heading => Heading level heading
  | EvLine => Line_
  | EvFill line => Fill line
  | EvList level definition end_ => List_ level definition end_
  | EvExample line => Example_ line
  | EvSynopsis line => Synopsis line
  | EvTableLine line indent_ => TableLine line indent_
  | EvFont a => Font a ;; ret tt
  | EvFinish => Finish ;; ret tt
  end.

(** A sequence of events, in call order; an exception ends it. *)
Fixpoint run_events (evs : list Event) : M unit :=
  match evs with
  | [] => ret tt
  | ev :: rest => run_event ev ;; run_events rest
  end.

(** The display width of a line: the sum over its runs. *)
Definition line_width (l : Line) : Z :=
  fold_right (fun t acc => attr.(DisplayWidth) (TOKEN_TEXT_INDEX t) + acc) 0 l.

End Renderer.

(** Modelled from the spec: the console attribute provider for plain
    one-column text, the module [console_attr] not being in src/ ("given a
    text run, returns its rendered column width (handles ... any embedded
    control sequences)", "reports the byte-length of any embedded terminal
    control sequence at a given offset").  A control sequence starts at a
    [CSI] and runs through the first letter; it has no width. *)
Module AsciiAttr.

(** A letter of the Latin alphabet. *)
Definition isalpha (c : ascii) : bool :=
  let n := nat_of_ascii c in
  (((65 <=? n) && (n <=? 90)) || ((97 <=? n) && (n <=? 122)))%nat.

(** The characters of [buf] through its first letter. *)
Fixpoint sequence_len (buf : string) : nat :=
  match buf with
  | EmptyString => 0
  | String c r => if isalpha c then 1 else S (sequence_len r)
  end.

(** Modelled from the spec: [GetControlSequenceLen], not in src/ ("reports
    the byte-length of any embedded terminal control sequence at a given
    offset"): the length of the control sequence [buf] starts with, 0 when it
    starts with none. *)
Definition GetControlSequenceLen (buf : string) : nat :=
  match buf with
  | String c _ => if Ascii.eqb c CSI then sequence_len buf else 0
  | EmptyString => 0
  end.

(** [in_sequence]: the characters read are still inside a control
    sequence. *)
Fixpoint width_from (in_sequence : bool) (buf : string) : Z :=
  match buf with
  | EmptyString => 0
  | String c r =>
      if in_sequence then width_from (negb (isalpha c)) r
      else if Ascii.eqb c CSI then width_from true r
      else 1 + width_from false r
  end.

(** Modelled from the spec: [DisplayWidth], not in src/ ("given a text
    run, returns its rendered column width"): one column per character
    outside control sequences. *)
Definition DisplayWidth (buf : string) : Z := width_from false buf.

(** Modelled from the spec: [GetBullets], not in src/ ("the ordered set of
    bullet glyphs for nested lists"). *)
Definition GetBullets : list string := ["o"; "*"; "+"; "-"].

(** Modelled from the spec: the provider made of the three. *)
Definition attr : ConsoleAttr :=
  mkConsoleAttr DisplayWidth GetBullets GetControlSequenceLen.

End AsciiAttr.

(** ** Notions used to state the properties *)

(** The text of a line: its runs' texts, concatenated. *)
Definition line_text (l : Line) : string :=
  fold_right (fun t acc => TOKEN_TEXT_INDEX t +:+ acc) "" l.

(** The buffer after [text] has been merged into it under the tag [t],
    when [t] is not the section tag: what [_MergeOrAddToken] leaves in
    [_tokens] on its first and last branches. *)
Definition merge_run (tokens : list Run) (t : Token) (text : string)
  : list Run :=
  if negb (Py.nonempty text) then tokens
  else
    match last tokens with
    | None => tokens ++ [(t, text)]
    | Some prv =>
        if bool_decide (TOKEN_TYPE_INDEX prv <> t)
        then tokens ++ [(t, text)]
        else removelast tokens ++ [(t, TOKEN_TEXT_INDEX prv +:+ text)]
    end.

(** The three runs of the definition [--flag=VALUE]. *)
Definition definition_three_runs : Line :=
  [(Markdown_Definition, "--flag"); (Markdown_Normal, "=");
   (Markdown_Value, "VALUE")].

(** What [_AddToken] does to [_ignore_paragraph]. *)
Definition note_content (text : string) (s : TokenRenderer) : TokenRenderer :=
  if Py.nonempty text && negb (Py.isspace text)
  then set_ignore_paragraph false s else s.

(** A text without style markers. *)
Definition plain (text : string) : Prop := Py.contains CSI text = false.

(** A text whose style markers are all the renderer's own: every [CSI] is
    followed by one of the letters of [EMBELLISHMENTS], as [Font] writes
    them. *)
Fixpoint well_marked (text : string) : bool :=
  match text with
  | EmptyString => true
  | String c rest =>
      if Ascii.eqb c CSI then
        match rest with
        | EmptyString => false
        | String e rest' =>
            match EMBELLISHMENTS e with
            | Some _ => well_marked rest'
            | None => false
            end
        end
      else well_marked rest
  end.

(** The loop of [_AddToken] as a function: the buffer and the current
    token type it leaves when no section run is involved and no marker is
    malformed.  [seg], [rest] and [t] are as in [AddToken_loop], [cur] is
    [_current_token_type]. *)
Fixpoint add_runs (seg rest : string) (t cur : Token) (tokens : list Run)
  : list Run * Token :=
  match rest with
  | EmptyString => (merge_run tokens t seg, cur)
  | String c rest' =>
      if Ascii.eqb c CSI then
        match rest' with
        | EmptyString => (merge_run tokens t seg, cur)
        | String e rest'' =>
            match EMBELLISHMENTS e with
            | Some t' => add_runs "" rest'' t' t' (merge_run tokens t seg)
            | None => (merge_run tokens t seg, cur)
            end
        end
      else add_runs (seg +:+ String c "") rest' t cur tokens
  end.

(** [_AddToken(text)] with the default token type. *)
Definition add_text (text : string) (cur : Token) (tokens : list Run)
  : list Run * Token :=
  add_runs "" text cur cur tokens.

(** What the properties about widths ask of the display width provider:
    on text without markers the width is additive, a space is one column
    wide and no non-empty text has width zero; well-formed markers have no
    width. *)
Class ColumnWidth (attr : ConsoleAttr) : Prop := {
  width_app : forall a b, plain a -> plain b ->
    attr.(DisplayWidth) (a +:+ b) = attr.(DisplayWidth) a + attr.(DisplayWidth) b;
  width_space : attr.(DisplayWidth) " " = 1;
  width_pos : forall a, plain a -> a <> "" -> 0 < attr.(DisplayWidth) a;
  width_markers : forall a, well_marked a = true ->
    attr.(DisplayWidth) a = attr.(DisplayWidth) (_UnFormat a)
}.

(** What [_NewLine] leaves in [_lines] and [_truncated], from the object
    [s] it is called on. *)
Definition NewLine_post (s : TokenRenderer) (lines' : list Line)
    (truncated' : bool) : Prop :=
  if _truncated s then lines' = _lines s /\ truncated' = true
  else if negb (bool_decide (_tokens s <> [])) && _compact s
  then lines' = _lines s /\ truncated' = false
  else if negb (_height s =? 0)
          && (Z.of_nat (length (_lines s))
              + (if bool_decide (_tokens s <> []) then 1 else 0)
              >=? _height s)
  then truncated' = true
       /\ exists l, lines' = on_last delete_trailing_space (_lines s)
                             ++ [l ++ [marker_token]]
  else truncated' = false
       /\ lines' = on_last delete_trailing_space (_lines s) ++ [_tokens s].

(** *** Sessions made of [Fill] calls *)

(** The left indent of the top level: [Indent(compact).indent]. *)
Definition base_indent (compact : bool) : Z := if compact then 0 else INDENT.

(** The attributes a [Fill] call finds in a session that has only seen
    [Fill] calls, and leaves as they are; the current token type is one of
    the font styles, never the section tag. *)
Definition Fill_ready (compact : bool) (s : TokenRenderer) : Prop :=
  _compact s = compact
  /\ _level s = 0%nat
  /\ _indent s = [Indent_init compact]
  /\ _current_token_type s <> Markdown_Section
  /\ _ignore_width s = false.

(** The fill column after the [if not self._fill] block of [Fill] when the
    column was 0. *)
Definition start_fill (compact : bool) : Z :=
  if compact then 0 else INDENT - 1.

(** What one turn of the loop of [Fill], on the word [word], makes of the
    object [s]: [f0] and [t0] are the fill column and the buffer once the
    line has been started. *)
Definition Fill_word_post (attr : ConsoleAttr) (compact : bool)
    (word : string) (s s' : TokenRenderer) : Prop :=
  let width := attr.(DisplayWidth) word in
  let cur := _current_token_type s in
  let f0 := if _fill s =? 0 then start_fill compact else _fill s in
  let t0 :=
    if _fill s =? 0
    then merge_run (_tokens s) cur (Py.spaces (start_fill compact))
    else _tokens s in
  if width + 1 >=? _width s - f0 then
    let r := add_text word cur
               (merge_run [] cur (Py.spaces (base_indent compact))) in
    NewLine_post (set_tokens t0 s) (_lines s') (_truncated s')
    /\ _tokens s' = fst r
    /\ _current_token_type s' = snd r
    /\ _fill s' = base_indent compact + width
  else
    let r := add_text word cur
               (if f0 =? 0 then t0 else merge_run t0 cur " ") in
    _lines s' = _lines s
    /\ _truncated s' = _truncated s
    /\ _tokens s' = fst r
    /\ _current_token_type s' = snd r
    /\ _fill s' = (if f0 =? 0 then f0 else f0 + 1) + width.


(** A line within the width [W]. *)
Definition fits (attr : ConsoleAttr) (W : Z) (l : Line) : Prop :=
  line_width attr l <= W.



(** The events of a session of paragraphs: [Fill] calls whose words all
    satisfy [P], and paragraph breaks. *)
Definition paragraph_event (P : string -> Prop) (ev : Event) : Prop :=
  match ev with
  | EvFill line => Forall P (Py.split line)
  | EvLine => True
  | _ => False
  end.

(** *** Sequences of [_SetIndent] calls *)

(** The arguments of one call: [(level, indent, hanging_indent)]. *)
Definition SetIndent_args : Type := nat * Z * option Z.

Fixpoint SetIndent_calls (calls : list SetIndent_args) : M unit :=
  match calls with
  | [] => ret tt
  | (level, indent_, hanging_indent_) :: rest =>
      _SetIndent level indent_ hanging_indent_ ;; SetIndent_calls rest
  end.

(** Every call asks for a level above the one before it; [cur] is the level
    before the first call. *)
Fixpoint increasing_from (cur : nat) (calls : list SetIndent_args) : Prop :=
  match calls with
  | [] => True
  | (level, _, _) :: rest => (cur < level)%nat /\ increasing_from level rest
  end.

Definition strictly_increasing (calls : list SetIndent_args) : Prop :=
  match calls with
  | [] => True
  | (level, _, _) :: rest => increasing_from level rest
  end.

(** The level the last call asks for; [cur], the level before the first
    call, when there is none. *)
Fixpoint last_level (cur : nat) (calls : list SetIndent_args) : nat :=
  match calls with
  | [] => cur
  | (level, _, _) :: rest => last_level level rest
  end.

(** Every level up to the current one has an entry in the indent stack, and
    its indent is at least the indent of its parent level. *)
Definition indent_monotone (s : TokenRenderer) : Prop :=
  forall k, (k < _level s)%nat ->
    exists x y, _indent s !! k = Some x /\ _indent s !! S k = Some y
                /\ x.(indent) <= y.(indent).

(** The invariant of the indent stack: the current level has an entry and
    the indents are monotone up to it. *)
Definition indent_ok (s : TokenRenderer) : Prop :=
  is_Some (_indent s !! _level s) /\ indent_monotone s.

(** *** Truncated sessions *)

(** A call leaves a property of the object in place, however it ends. *)
Definition preserves {A} (P : TokenRenderer -> Prop) (m : M A) : Prop :=
  forall s, P s -> P (state_of (m s)).

(** The renderer is truncated and its lines are [lines]. *)
Definition frozen (lines : list Line) (s : TokenRenderer) : Prop :=
  _truncated s = true /\ _lines s = lines.

(** A session that has been truncated: height 1, width 9, and a second
    [Fill] whose word does not fit on the first line. *)
Definition truncated_session : TokenRenderer :=
  state_of ((Fill AsciiAttr.attr "one two" ;; Fill AsciiAttr.attr "three")
              (TokenRenderer_init 9 1 true)).

(** Every value a call returns satisfies [Q]. *)
Definition returns {A} (Q : A -> Prop) (m : M A) : Prop :=
  forall s, match m s with Ok a _ => Q a | Raise _ _ => True end.

(** A paragraph with a bold word, as the markdown driver hands it to
    [Fill]: the markers are those [Font] returns. *)
Definition styled_text : string :=
  "four " +:+ String CSI "B" +:+ "five" +:+ String CSI "N" +:+ " six".

(** *** Calls that return *)

(** The current token type is a font style, not the section tag: what
    [_AddToken] needs to append to the buffer without a line break. *)
Definition styled (s : TokenRenderer) : Prop :=
  _current_token_type s <> Markdown_Section.

(** On a styled renderer the call returns, with a value that satisfies [Q],
    and leaves the renderer styled. *)
Definition total {A} (Q : A -> Prop) (m : M A) : Prop :=
  forall s, styled s -> exists a s', m s = Ok a s' /\ styled s' /\ Q a.

(** ** Notions used to state the properties of the methods *)

(** The first malformed style marker of a text, as the loop of [_AddToken]
    meets it: a [CSI] that ends the text (then [text[j + 1]] is an
    [IndexError]) or one followed by a character that is not a key of
    [EMBELLISHMENTS] (a [KeyError]). *)
Fixpoint marker_error (text : string) : option PyExc :=
  match text with
  | EmptyString => None
  | String c rest =>
      if Ascii.eqb c CSI then
        match rest with
        | EmptyString => Some IndexError
        | String e rest' =>
            match EMBELLISHMENTS e with
            | Some _ => marker_error rest'
            | None => Some KeyError
            end
        end
      else marker_error rest
  end.

(** The token type a font mask stands for: code wins over the other
    attributes, bold and italic together have a type of their own. *)
Definition font_token (font : Z) : Token :=
  if Z.testbit font (attr_index CODE) then Markdown_Code
  else if Z.testbit font (attr_index BOLD)
          && Z.testbit font (attr_index ITALIC) then Markdown_BoldItalic
  else if Z.testbit font (attr_index BOLD) then Markdown_Bold
  else if Z.testbit font (attr_index ITALIC) then Markdown_Italic
  else Markdown_Normal.

(** *** Properties kept by every method *)

(** Two renderers that differ at most in the attributes that hold no text
    and no configuration: the font mask, the blank-line flag, the fill
    column, the two ignore flags and the table rows. *)
Definition same_text_state (s s' : TokenRenderer) : Prop :=
  _width s' = _width s /\ _compact s' = _compact s /\ _height s' = _height s
  /\ _current_token_type s' = _current_token_type s
  /\ _indent s' = _indent s /\ _level s' = _level s
  /\ _lines s' = _lines s /\ _tokens s' = _tokens s
  /\ _truncated s' = _truncated s.

(** A property of the renderer that is kept by the statements the methods
    that write text are made of: the assignments to the attributes that hold
    no text, the assignment of a font style to [_current_token_type], and the
    calls of [_NewLine] and [_MergeOrAddToken] (which [_AddToken] only calls
    on text without markers). *)
Class TextInvariant (attr : ConsoleAttr) (P : TokenRenderer -> Prop)
  : Prop := {
  inv_frame : forall s s', same_text_state s s' -> P s -> P s';
  inv_token_type : forall e t s,
    EMBELLISHMENTS e = Some t -> P s -> P (set_current_token_type t s);
  inv_NewLine : forall overflow, preserves P (_NewLine attr overflow);
  inv_MergeOrAddToken : forall text t,
    plain text -> preserves P (_MergeOrAddToken attr text t)
}.

(** A property that is also kept by the statements that move in the
    indent stack: the return to level 0 and the calls of [_SetIndent]. *)
Class Invariant (attr : ConsoleAttr) (P : TokenRenderer -> Prop) : Prop := {
  inv_text :: TextInvariant attr P;
  inv_level0 : forall s, P s -> P (set_level 0%nat s);
  inv_SetIndent : forall level indent_ hanging_indent_,
    preserves P (_SetIndent level indent_ hanging_indent_)
}.

(** The renderer [s'] is [s] with other values of [_level] and [_indent]. *)
Definition stack_variant (s s' : TokenRenderer) : Prop :=
  exists level stack, s' = set_indent stack (set_level level s).

(** The renderer [s'] is [s] with other values of [_tokens], [_lines] and
    [_truncated]. *)
Definition output_variant (s s' : TokenRenderer) : Prop :=
  exists tokens lines truncated,
    s' = set_lines lines (set_truncated truncated (set_tokens tokens s)).

(** No run holds a style marker. *)
Definition clean_line (l : Line) : Prop :=
  Forall (fun t => plain (TOKEN_TEXT_INDEX t)) l.

(** Neither the lines emitted so far nor the buffer hold a style marker. *)
Definition clean (s : TokenRenderer) : Prop :=
  Forall clean_line (_lines s) /\ clean_line (_tokens s).

(** A line that does not end in a run of white space. *)
Definition trimmed (l : Line) : Prop :=
  match last l with
  | Some t => Py.isspace (TOKEN_TEXT_INDEX t) = false
  | None => True
  end.

(** A line that is merged as far as it can be: no run is empty and no two
    consecutive runs have the same token type. *)
Fixpoint merged (l : Line) : Prop :=
  match l with
  | [] => True
  | t :: rest =>
      TOKEN_TEXT_INDEX t <> ""
      /\ match rest with
         | t' :: _ => TOKEN_TYPE_INDEX t <> TOKEN_TYPE_INDEX t'
         | [] => True
         end
      /\ merged rest
  end.

(** The buffer is merged, and so is every line emitted, the one made by
    the truncation apart. *)
Definition merged_output (s : TokenRenderer) : Prop :=
  merged (_tokens s)
  /\ Forall merged (if _truncated s then removelast (_lines s) else _lines s).

(** A compact renderer with a height limit: the number of lines emitted is
    below the limit until the truncation and equal to it from then on. *)
Definition within_height (s : TokenRenderer) : Prop :=
  _compact s = true /\ 0 < _height s
  /\ if _truncated s then Z.of_nat (length (_lines s)) = _height s
     else Z.of_nat (length (_lines s)) < _height s.

(** Every line emitted but the last has had its trailing white space
    deleted. *)
Definition trimmed_output (s : TokenRenderer) : Prop :=
  Forall trimmed (removelast (_lines s)).

(** The current level has an entry in the indent stack. *)
Definition stack_ok (s : TokenRenderer) : Prop :=
  (_level s < length (_indent s))%nat.

(** A character that is neither a bracket nor the [CSI]. *)
Definition unnested_char (c : ascii) : bool :=
  negb (Py.contains c open_chars) && negb (Py.contains c close_chars)
  && negb (Ascii.eqb c CSI).

(** A character of a plain word of a synopsis line: no white space, no
    opening bracket, no [CSI] and no pipe. *)
Definition word_char (c : ascii) : bool :=
  negb (Py.ch_isspace c) && negb (Py.contains c open_chars)
  && negb (Ascii.eqb c CSI) && negb (Ascii.eqb c "|").

(** A character of a line of plain words: a space or a character of a
    word. *)
Definition words_char (c : ascii) : bool := Ascii.eqb c " " || word_char c.

(** The text does not start with a space. *)
Definition starts_word (s : string) : Prop :=
  match s with
  | String c _ => c <> " "%char
  | EmptyString => True
  end.

(** The value of the group-splitting loop, the group in progress at the end
    of the line included. *)
Definition groups_at_end (line : string) (r : nat * list string)
  : list string :=
  if (fst r <? String.length line)%nat
  then snd r ++ [Py.drop (fst r) line] else snd r.

(** *** Sessions that return *)

(** The call returns on every renderer. *)
Definition always_returns {A} (m : M A) : Prop :=
  forall s, exists a s', m s = Ok a s'.

(** The renderer is at level [level] of the indent stack [stack], and its
    current token type is a font style. *)
Definition at_level (level : nat) (stack : list Indent) (s : TokenRenderer)
  : Prop :=
  _level s = level /\ _indent s = stack /\ styled s.

(** The call returns on every renderer at that level of that stack, and
    leaves it there. *)
Definition returns_at {A} (level : nat) (stack : list Indent) (m : M A)
  : Prop :=
  forall s, at_level level stack s ->
    exists a s', m s = Ok a s' /\ at_level level stack s'.

(** The current level has an entry in the indent stack and the current
    token type is a font style: what every method needs to return. *)
Definition ready (s : TokenRenderer) : Prop := stack_ok s /\ styled s.

(** An event the renderer can take: its text has well-formed markers only;
    a synopsis line has no marker and does not end in a pipe; a bullet item
    finds a bullet, with well-formed markers only. *)
Definition safe_event (attr : ConsoleAttr) (ev : Event) : bool :=
  match ev with
  | EvHeading _ heading => well_marked heading
  | EvLine => true
  | EvFill line => forallb well_marked (Py.split line)
  | EvList _ (Some _) _ => true
  | EvList _ None _ =>
      match attr.(GetBullets) with
      | [] => false
      | bullets => forallb well_marked bullets
      end
  | EvExample line => well_marked line
  | EvSynopsis line =>
      negb (Py.contains CSI line) && negb (Py.endswith "|" line)
  | EvTableLine line _ => well_marked line
  | EvFont _ => true
  | EvFinish => true
  end.

(** *** The words of a session *)

(** The words of a list of lines, in order. *)
Definition words_of_lines (lines : list Line) : list string :=
  concat (map (fun l => Py.split (line_text l)) lines).

(** The words the renderer holds: those of the lines emitted, then those of
    the buffer. *)
Definition output_words (s : TokenRenderer) : list string :=
  words_of_lines (_lines s) ++ Py.split (line_text (_tokens s)).

(** The words an event hands to [Fill]. *)
Definition event_words (ev : Event) : list string :=
  match ev with
  | EvFill line => Py.split line
  | _ => []
  end.

(** A word as [split] gives them: not empty and without white space. *)
Definition is_word (w : string) : Prop :=
  w <> "" /\ Py.all_chars (fun c => negb (Py.ch_isspace c)) w = true.

(** The invariant of a session of paragraphs with no height limit: the
    renderer holds the words [ws], and the fill column is 0 only when the
    buffer is empty. *)
Definition holds_words (compact : bool) (ws : list string)
    (s : TokenRenderer) : Prop :=
  Fill_ready compact s
  /\ _height s = 0 /\ _truncated s = false
  /\ 0 <= _fill s /\ (_fill s = 0 -> _tokens s = [])
  /\ output_words s = ws.

(** *** The width of a truncated line *)

(** A display width provider that counts one column per character of a
    text without markers. *)
Class CharacterWidth (attr : ConsoleAttr) : Prop :=
  width_len : forall a, plain a -> attr.(DisplayWidth) a = Py.len a.

(** *** Sessions whose lines fit the width *)








Definition nonneg_entry (x : Indent) : Prop :=
  0 <= hanging_indent x /\ 0 <= indent x.

(** What the buffer width [b] and the fill column keep between two calls:
    the buffer fits, is at most one column ahead of the fill column and is
    empty when the column is 0; after a bullet ([ignore_width]) the buffer
    ends before the indent of the level. *)
Definition room (W : Z) (level : nat) (stack : list Indent) (b fill : Z)
    (ignore_width : bool) : Prop :=
  (level < length stack)%nat
  /\ Forall nonneg_entry stack
  /\ 0 <= b <= W /\ b <= fill + 1 /\ 0 <= fill /\ (fill = 0 -> b = 0)
  /\ (ignore_width = true ->
      exists x, stack !! level = Some x /\ b + 1 <= indent x).








(** * Properties *)

(** ** The monad *)

Lemma bind_Ok {A B} (m : M A) (f : A -> M B) s a s' :
  m s = Ok a s' -> bind m f s = f a s'.
Proof. unfold bind. by intros ->. Qed.

Lemma bind_Raise {A B} (m : M A) (f : A -> M B) s e s' :
  m s = Raise e s' -> bind m f s = Raise e s'.
Proof. unfold bind. by intros ->. Qed.

Lemma bind_gets {A B} (g : TokenRenderer -> A) (k : A -> M B) s :
  bind (gets g) k s = k (g s) s.
Proof. reflexivity. Qed.

Lemma bind_modify {B} (g : TokenRenderer -> TokenRenderer) (k : unit -> M B) s :
  bind (modify g) k s = k tt (g s).
Proof. reflexivity. Qed.

Lemma bind_ret {A B} (a : A) (k : A -> M B) s : bind (ret a) k s = k a s.
Proof. reflexivity. Qed.

(** ** Strings *)

Lemma append_cons c (r s : string) : String c r +:+ s = String c (r +:+ s).
Proof. reflexivity. Qed.

Lemma append_empty_l (s : string) : "" +:+ s = s.
Proof. reflexivity. Qed.

Lemma append_empty_r (s : string) : s +:+ "" = s.
Proof.
  induction s as [|c r IH]; [done |]. rewrite append_cons. by f_equal.
Qed.

Lemma append_assoc (a b c : string) : (a +:+ b) +:+ c = a +:+ (b +:+ c).
Proof.
  induction a as [|x r IH]; [done |]. rewrite !append_cons. by f_equal.
Qed.

Lemma contains_app c (a b : string) :
  Py.contains c (a +:+ b) = Py.contains c a || Py.contains c b.
Proof.
  induction a as [|x r IH]; [done |].
  rewrite append_cons. simpl. rewrite <- orb_assoc. by f_equal.
Qed.

Lemma plain_app (a b : string) : plain a -> plain b -> plain (a +:+ b).
Proof. unfold plain. rewrite contains_app. by intros -> ->. Qed.

Lemma plain_repeat_space n : plain (Py.repeat_char " " n).
Proof. unfold plain. induction n as [|n IH]; simpl; [done | exact IH]. Qed.

Lemma plain_spaces n : plain (Py.spaces n).
Proof. apply plain_repeat_space. Qed.

Lemma nonempty_true (s : string) : Py.nonempty s = true <-> s <> "".
Proof. destruct s; simpl; split; congruence. Qed.

Lemma nonempty_false (s : string) : Py.nonempty s = false <-> s = "".
Proof. destruct s; simpl; split; congruence. Qed.

Lemma nonempty_app_r (a b : string) :
  Py.nonempty b = true -> Py.nonempty (a +:+ b) = true.
Proof. destruct a; [done |]. by rewrite append_cons. Qed.

(** ** Style markers *)

Lemma UnFormat_plain (text : string) : plain text -> _UnFormat text = text.
Proof.
  unfold plain.
  induction text as [|c r IH]; cbn [Py.contains _UnFormat]; [done |].
  intros H. apply orb_false_iff in H as [Hc Hr].
  rewrite Ascii.eqb_sym in Hc. rewrite Hc. by rewrite IH.
Qed.

Lemma Font_marker (a : option FontAttr) (s : TokenRenderer) :
  exists e s', Font a s = Ok (String CSI (String e "")) s'.
Proof. unfold Font, bind, ret, gets, modify. destruct a; simpl; eauto. Qed.

(** C5. Stripping the markers from the marker [Font] returns for any
    attribute toggle, followed by a text without the sentinel character,
    gives the text back. *)
Theorem UnFormat_Font_roundtrip (a : option FontAttr) (s : TokenRenderer)
    (text : string) :
  plain text ->
  exists marker s',
    Font a s = Ok marker s'
    /\ String.length marker = 2%nat
    /\ _UnFormat (marker +:+ text) = text.
Proof.
  intros H. destruct (Font_marker a s) as (e & s' & Hf).
  exists (String CSI (String e "")), s'. repeat split; [done |].
  rewrite !append_cons, append_empty_l. simpl. by apply UnFormat_plain.
Qed.

Lemma UnFormat_Font_roundtrip_witness :
  exists marker s',
    Font (Some BOLD) (TokenRenderer_init 80 0 true) = Ok marker s'
    /\ String.length marker = 2%nat
    /\ _UnFormat (marker +:+ "bold text") = "bold text".
Proof. apply UnFormat_Font_roundtrip. reflexivity. Defined.

(** ** Headings *)

(** C10. [Heading(1, text)] with a text that ends in "(1)" returns at once:
    the renderer is left exactly as it was, so no line is emitted, no run is
    buffered and no attribute changes. *)
Theorem Heading_man_page_title_is_noop (attr : ConsoleAttr)
    (heading : string) (s : TokenRenderer) :
  Py.endswith "(1)" heading = true ->
  Heading attr 1 heading s = Ok tt s.
Proof. intros H. unfold Heading. rewrite H. reflexivity. Qed.

Lemma Heading_man_page_title_is_noop_witness :
  Heading AsciiAttr.attr 1 "gcloud(1)" (TokenRenderer_init 80 0 true)
  = Ok tt (TokenRenderer_init 80 0 true).
Proof. apply Heading_man_page_title_is_noop. reflexivity. Defined.

(** ** Definition list items *)

(** C4, as stated, fails: the line emitted by
    [List(1, definition="--flag=VALUE")] on a fresh session is not the three
    runs alone. *)
Lemma List_definition_three_runs_counterexample :
  ~ In definition_three_runs
      (_lines (state_of (List_ AsciiAttr.attr 1 (Some "--flag=VALUE") false
                           (TokenRenderer_init 80 0 true)))).
Proof. vm_compute. intros [H | []]. discriminate H. Qed.

(** C4, amended. On a fresh session with no height limit the call returns
    and emits exactly one line, of four runs: the hanging indent as a
    [Normal] run of spaces (one space, five when not compact), then the
    definition, the equals sign and the value. *)
Theorem List_definition_four_runs (attr : ConsoleAttr) (width : Z)
    (compact : bool) :
  exists s',
    List_ attr 1 (Some "--flag=VALUE") false
      (TokenRenderer_init width 0 compact) = Ok tt s'
    /\ _tokens s' = []
    /\ _lines s' =
       [(Markdown_Normal, Py.spaces (if compact then 1 else 5))
        :: definition_three_runs].
Proof.
  destruct compact;
    (eexists; split; [vm_compute; reflexivity | split; reflexivity]).
Qed.

(** ** Synopsis lines *)

(** C3: the call [Synopsis("a |")] raises [IndexError] whatever the state
    of the renderer, which it leaves untouched: the test that guards
    [line[i + 1]] lets [i = len(line) - 1] through. *)
Theorem Synopsis_trailing_pipe_raises (attr : ConsoleAttr)
    (s : TokenRenderer) :
  Synopsis attr "a |" s = Raise IndexError s.
Proof. reflexivity. Qed.

(** ** The token buffer *)

Lemma set_tokens_same (s : TokenRenderer) : set_tokens (_tokens s) s = s.
Proof. by destruct s. Qed.

Lemma MergeOrAddToken_merge attr text t s :
  t <> Markdown_Section ->
  _MergeOrAddToken attr text t s
  = Ok tt (set_tokens (merge_run (_tokens s) t text) s).
Proof.
  intros Ht. unfold _MergeOrAddToken, merge_run.
  destruct (Py.nonempty text); simpl; [| by rewrite set_tokens_same].
  unfold bind, gets, modify.
  destruct (last (_tokens s)) as [prv |]; [| done].
  case_bool_decide as H1; [done |].
  rewrite bool_decide_eq_false_2; [done |].
  intros H2. apply Ht. rewrite <- H2.
  destruct (decide (TOKEN_TYPE_INDEX prv = t)); [done | contradiction].
Qed.

Lemma AddToken_plain attr text ot s :
  plain text ->
  default (_current_token_type s) ot <> Markdown_Section ->
  _AddToken attr text ot s
  = Ok tt (set_tokens
             (merge_run (_tokens s) (default (_current_token_type s) ot) text)
             (note_content text s)).
Proof.
  intros Hp Ht. unfold _AddToken, note_content, when.
  rewrite Hp. simpl.
  destruct (Py.nonempty text && negb (Py.isspace text)); simpl;
    unfold bind, modify, ret, gets; destruct ot; simpl in *;
    by rewrite MergeOrAddToken_merge.
Qed.

Lemma tokens_note_content text s : _tokens (note_content text s) = _tokens s.
Proof. unfold note_content. by destruct (_ && _). Qed.

Lemma lines_note_content text s : _lines (note_content text s) = _lines s.
Proof. unfold note_content. by destruct (_ && _). Qed.

Lemma merge_run_twice tokens t (a b : string) :
  a <> "" -> b <> "" ->
  merge_run (merge_run tokens t a) t b = merge_run tokens t (a +:+ b).
Proof.
  intros Ha Hb. unfold merge_run.
  apply nonempty_true in Ha, Hb.
  rewrite (nonempty_app_r a b Hb), Ha, Hb. simpl.
  assert (Hsnoc : forall l (x : string),
    match last (l ++ [(t, x)]) with
    | Some prv =>
        if bool_decide (TOKEN_TYPE_INDEX prv <> t)
        then (l ++ [(t, x)]) ++ [(t, b)]
        else removelast (l ++ [(t, x)]) ++ [(t, TOKEN_TEXT_INDEX prv +:+ b)]
    | None => (l ++ [(t, x)]) ++ [(t, b)]
    end = l ++ [(t, x +:+ b)]).
  { intros l x. rewrite last_snoc. simpl.
    rewrite bool_decide_eq_false_2 by (intros H; by apply H).
    by rewrite removelast_last. }
  destruct (last tokens) as [prv |] eqn:Hl; [| apply Hsnoc].
  case_bool_decide; [apply Hsnoc |].
  rewrite Hsnoc. by rewrite append_assoc.
Qed.

(** C6, as stated, fails for the section tag: the second of two section
    runs replaces the first instead of being appended to it. *)
Lemma AddToken_twice_Section_counterexample :
  let s' := state_of ((_AddToken AsciiAttr.attr "A" (Some Markdown_Section) ;;
                       _AddToken AsciiAttr.attr "B" (Some Markdown_Section))
                        (TokenRenderer_init 80 0 true)) in
  _tokens s' = [(Markdown_Section, "B")]
  /\ _tokens s' <> [(Markdown_Section, "A" +:+ "B")].
Proof. vm_compute. split; [reflexivity | discriminate]. Qed.

(** C6, amended. For every tag other than the section tag and all non-empty
    texts [a], [b] without markers, the two calls return, emit no line and
    leave in the buffer one run for both: [a +:+ b] appended as a new run
    when the buffer is empty or ends in another tag, or appended to the text
    of the last run when that run has the same tag. *)
Theorem AddToken_twice_merges (attr : ConsoleAttr) (t : Token)
    (a b : string) (s : TokenRenderer) :
  t <> Markdown_Section -> a <> "" -> b <> "" -> plain a -> plain b ->
  exists s',
    (_AddToken attr a (Some t) ;; _AddToken attr b (Some t)) s = Ok tt s'
    /\ _lines s' = _lines s
    /\ _tokens s' =
       match last (_tokens s) with
       | Some prv =>
           if bool_decide (TOKEN_TYPE_INDEX prv = t)
           then removelast (_tokens s)
                ++ [(t, TOKEN_TEXT_INDEX prv +:+ a +:+ b)]
           else _tokens s ++ [(t, a +:+ b)]
       | None => [(t, a +:+ b)]
       end.
Proof.
  intros Ht Ha Hb Hpa Hpb.
  eexists. split.
  { erewrite bind_Ok by (by apply AddToken_plain).
    by apply AddToken_plain. }
  split.
  { simpl. rewrite lines_note_content. simpl. by rewrite lines_note_content. }
  simpl. rewrite merge_run_twice by done.
  unfold merge_run. rewrite nonempty_app_r by (by apply nonempty_true).
  simpl. destruct (last (_tokens s)) as [prv |] eqn:Hl.
  - destruct (decide (TOKEN_TYPE_INDEX prv = t)) as [He | Hne].
    + rewrite bool_decide_eq_false_2 by (intros H; by apply H).
      by rewrite bool_decide_eq_true_2.
    + rewrite bool_decide_eq_true_2 by done.
      by rewrite bool_decide_eq_false_2.
  - apply last_None in Hl. by rewrite Hl.
Qed.

Lemma AddToken_twice_merges_witness :
  exists s',
    (_AddToken AsciiAttr.attr "ab" (Some Markdown_Bold) ;;
     _AddToken AsciiAttr.attr "cd" (Some Markdown_Bold))
      (TokenRenderer_init 80 0 true) = Ok tt s'
    /\ _lines s' = []
    /\ _tokens s' = [(Markdown_Bold, "ab" +:+ "cd")].
Proof.
  apply (AddToken_twice_merges AsciiAttr.attr Markdown_Bold "ab" "cd"
           (TokenRenderer_init 80 0 true)); [discriminate .. | |];
    reflexivity.
Defined.

(** ** Finalizing a line *)

Lemma length_on_last f (lines : list Line) :
  length (on_last f lines) = length lines.
Proof.
  induction lines as [| l [| l' ls] IH]; [done.. |].
  change (on_last f (l :: l' :: ls)) with (l :: on_last f (l' :: ls)).
  simpl in *. by rewrite IH.
Qed.

Lemma on_last_snoc f (ls : list Line) (l : Line) :
  on_last f (ls ++ [l]) = ls ++ [f l].
Proof.
  induction ls as [| x ls IH]; [done |].
  destruct ls as [| y ls]; [done |].
  change (on_last f ((x :: y :: ls) ++ [l]))
    with (x :: on_last f ((y :: ls) ++ [l])).
  by rewrite IH.
Qed.

Lemma Truncate_marker attr tokens overflow s :
  exists l, _Truncate attr tokens overflow s
            = Ok (l ++ [marker_token]) (set_truncated true s).
Proof.
  unfold _Truncate, bind, modify, ret, gets.
  destruct tokens as [| t ts]; [by exists [] |].
  destruct overflow as [[word available] |]; [| by eexists].
  destruct (marker_width =? available); [by eexists |].
  destruct (marker_width + 1 <=? available); by eexists.
Qed.

Lemma NewLine_spec attr overflow s :
  exists lines' truncated',
    _NewLine attr overflow s
    = Ok tt (set_lines lines' (set_truncated truncated' (set_tokens [] s)))
    /\ NewLine_post s lines' truncated'.
Proof.
  unfold _NewLine, NewLine_post, bind, modify, ret, gets.
  destruct s as [w f bl c fi ct h ip iw ind lv ls tk tr rw].
  cbn -[_Truncate].
  destruct tr; cbn -[_Truncate]; [by exists ls, true |].
  destruct (negb (bool_decide (tk <> [])) && c); cbn -[_Truncate];
    [by exists ls, false |].
  rewrite length_on_last.
  destruct (negb (h =? 0) && _); cbn -[_Truncate]; [| by eexists _, false].
  match goal with
  | |- context [_Truncate attr tk overflow ?st] =>
      destruct (Truncate_marker attr tk overflow st) as [l ->]
  end.
  cbn. eexists _, true. split; [reflexivity |]. split; [done |].
  by exists l.
Qed.

(** ** Text with markers *)

Lemma set_current_token_type_same (s : TokenRenderer) :
  set_current_token_type (_current_token_type s) s = s.
Proof. by destruct s. Qed.

Lemma EMBELLISHMENTS_not_Section e t :
  EMBELLISHMENTS e = Some t -> t <> Markdown_Section.
Proof.
  unfold EMBELLISHMENTS.
  repeat match goal with
         | |- context [if ?b then _ else _] => destruct b
         end; congruence.
Qed.

Lemma plain_cons c (rest : string) :
  plain (String c rest) <-> Ascii.eqb c CSI = false /\ plain rest.
Proof.
  unfold plain. cbn [Py.contains]. rewrite orb_false_iff.
  by rewrite (Ascii.eqb_sym CSI c).
Qed.

Lemma plain_well_marked (text : string) : plain text -> well_marked text = true.
Proof.
  induction text as [| c rest IH]; [done |].
  intros [Hc Hr]%plain_cons. cbn [well_marked]. rewrite Hc. by apply IH.
Qed.

Lemma add_runs_plain (seg rest : string) t cur tokens :
  plain rest ->
  add_runs seg rest t cur tokens = (merge_run tokens t (seg +:+ rest), cur).
Proof.
  revert seg. induction rest as [| c rest IH]; intros seg.
  - intros _. cbn [add_runs]. by rewrite append_empty_r.
  - intros [Hc Hr]%plain_cons. cbn [add_runs]. rewrite Hc.
    rewrite IH by done. by rewrite append_assoc.
Qed.

Lemma add_runs_type (seg rest : string) t cur tokens :
  cur <> Markdown_Section ->
  snd (add_runs seg rest t cur tokens) <> Markdown_Section.
Proof.
  cut ((forall seg t cur tokens, cur <> Markdown_Section ->
          snd (add_runs seg rest t cur tokens) <> Markdown_Section)
       /\ (forall c seg t cur tokens, cur <> Markdown_Section ->
             snd (add_runs seg (String c rest) t cur tokens)
             <> Markdown_Section)).
  { intros [H _]. apply H. }
  clear. induction rest as [| e rest [IH1 IH2]].
  - split; [done |]. intros c seg t cur tokens Hcur. cbn [add_runs].
    by destruct (Ascii.eqb c CSI).
  - split; [intros; by apply IH2 |].
    intros c seg t cur tokens Hcur. cbn [add_runs].
    destruct (Ascii.eqb c CSI); [| by apply IH2].
    destruct (EMBELLISHMENTS e) as [t' |] eqn:He; [| done].
    apply IH1. by eapply EMBELLISHMENTS_not_Section.
Qed.

Lemma AddToken_loop_marked attr (seg rest : string) t (s : TokenRenderer) :
  well_marked rest = true -> t <> Markdown_Section ->
  AddToken_loop attr seg rest t s
  = Ok tt (set_tokens
             (fst (add_runs seg rest t (_current_token_type s) (_tokens s)))
             (set_current_token_type
                (snd (add_runs seg rest t (_current_token_type s) (_tokens s)))
                s)).
Proof.
  cut ((forall seg t s, well_marked rest = true -> t <> Markdown_Section ->
          AddToken_loop attr seg rest t s
          = Ok tt (set_tokens
                     (fst (add_runs seg rest t (_current_token_type s)
                             (_tokens s)))
                     (set_current_token_type
                        (snd (add_runs seg rest t (_current_token_type s)
                                (_tokens s))) s)))
       /\ (forall c seg t s,
             well_marked (String c rest) = true -> t <> Markdown_Section ->
             AddToken_loop attr seg (String c rest) t s
             = Ok tt (set_tokens
                        (fst (add_runs seg (String c rest) t
                                (_current_token_type s) (_tokens s)))
                        (set_current_token_type
                           (snd (add_runs seg (String c rest) t
                                   (_current_token_type s) (_tokens s))) s)))).
  { intros [H _]. apply H. }
  clear. induction rest as [| e rest [IH1 IH2]].
  - assert (Hnil : forall seg t s, t <> Markdown_Section ->
      AddToken_loop attr seg "" t s
      = Ok tt (set_tokens
                 (fst (add_runs seg "" t (_current_token_type s) (_tokens s)))
                 (set_current_token_type
                    (snd (add_runs seg "" t (_current_token_type s)
                            (_tokens s))) s))).
    { intros seg t s Ht. cbn [AddToken_loop add_runs fst snd].
      rewrite set_current_token_type_same.
      by apply MergeOrAddToken_merge. }
    split; [intros; by apply Hnil |].
    intros c seg t s Hwm Ht. cbn [AddToken_loop add_runs well_marked] in *.
    destruct (Ascii.eqb c CSI); [done |]. by apply Hnil.
  - split; [intros; by apply IH2 |].
    intros c seg t s Hwm Ht. cbn [AddToken_loop add_runs well_marked] in *.
    destruct (Ascii.eqb c CSI); [| by apply IH2].
    destruct (EMBELLISHMENTS e) as [t' |] eqn:He; [| done].
    rewrite (bind_Ok _ _ _ _ _ (MergeOrAddToken_merge attr seg t s Ht)).
    unfold bind at 1. unfold modify at 1.
    rewrite IH1 by (done || by eapply EMBELLISHMENTS_not_Section).
    by destruct s.
Qed.

Lemma current_token_type_note_content text s :
  _current_token_type (note_content text s) = _current_token_type s.
Proof. unfold note_content. by destruct (_ && _). Qed.

Lemma AddToken_marked attr (text : string) (s : TokenRenderer) :
  well_marked text = true ->
  _current_token_type s <> Markdown_Section ->
  _AddToken attr text None s
  = Ok tt (set_tokens
             (fst (add_text text (_current_token_type s) (_tokens s)))
             (set_current_token_type
                (snd (add_text text (_current_token_type s) (_tokens s)))
                (note_content text s))).
Proof.
  intros Hwm Ht. unfold _AddToken, add_text.
  assert (Hnote : when (Py.nonempty text && negb (Py.isspace text))
                    (modify (set_ignore_paragraph false)) s
                  = Ok tt (note_content text s)).
  { unfold note_content, when. by destruct (_ && _). }
  rewrite (bind_Ok _ _ _ _ _ Hnote).
  unfold bind at 1. unfold gets at 1.
  rewrite current_token_type_note_content.
  destruct (Py.contains CSI text) eqn:Hc; cbn [negb].
  - rewrite AddToken_loop_marked
      by (done || by rewrite current_token_type_note_content).
    by rewrite current_token_type_note_content, tokens_note_content.
  - rewrite add_runs_plain by done. cbn [fst snd]. rewrite append_empty_l.
    rewrite MergeOrAddToken_merge by done.
    rewrite tokens_note_content.
    replace (set_current_token_type (_current_token_type s)
               (note_content text s)) with (note_content text s); [done |].
    rewrite <- (current_token_type_note_content text s).
    by rewrite set_current_token_type_same.
Qed.

(** ** One word of [Fill] *)

Lemma isspace_repeat_space n :
  Py.all_chars Py.ch_isspace (Py.repeat_char " " n) = true.
Proof. induction n as [| n IH]; [done |]. simpl. exact IH. Qed.

Lemma note_content_spaces n s : note_content (Py.spaces n) s = s.
Proof.
  unfold note_content, Py.spaces, Py.isspace.
  destruct (Z.to_nat n) as [| k] eqn:Hk; [done |].
  change (Py.repeat_char " " (S k)) with (String " " (Py.repeat_char " " k)).
  cbn [Py.nonempty andb].
  change (String " " (Py.repeat_char " " k)) with (Py.repeat_char " " (S k)).
  by rewrite isspace_repeat_space.
Qed.

Ltac add_token :=
  rewrite AddToken_plain
    by (first [apply plain_spaces | reflexivity | assumption
              | simpl; assumption]);
  rewrite ?note_content_spaces.

Ltac add_word :=
  rewrite AddToken_marked by (first [assumption | simpl; assumption]).

Ltac mred := unfold bind, gets, modify, ret, when, indent_at, indent_assign;
  cbn -[_AddToken _NewLine merge_run add_text Z.add Z.sub Py.spaces].

Ltac new_line L b H :=
  match goal with
  | |- context [_NewLine ?attr ?ov ?st] =>
      destruct (NewLine_spec attr ov st) as (L & b & -> & H)
  end.

Lemma Fill_word_spec attr compact word s :
  Fill_ready compact s -> well_marked word = true ->
  exists s',
    Fill_word attr word s = Ok tt s'
    /\ Fill_ready compact s'
    /\ _width s' = _width s
    /\ _height s' = _height s
    /\ Fill_word_post attr compact word s s'.
Proof.
  intros (Hc & Hl & Hi & Ht & Hw) Hp.
  destruct s as [w f bl c fi ct h ip iw ind lv ls tk tr rw].
  simpl in *. subst.
  unfold Fill_word, Fill_word_post. mred.
  destruct (fi =? 0) eqn:Hfi;
    [apply Z.eqb_eq in Hfi; subst fi |]; destruct compact; mred.
  all: try (add_token; mred).
  all: rewrite andb_true_r.
  all: match goal with
       | |- context [?a >=? ?b] => destruct (a >=? b) eqn:Hov
       end.
  all: mred.
  all: try (new_line L' b' Hpost; mred; add_token; mred).
  all: try match goal with
           | |- context [negb (?a =? 0)] => destruct (a =? 0) eqn:Hz
           end; mred.
  all: try (add_token; mred).
  all: add_word; mred.
  all: unfold note_content;
    destruct (Py.nonempty word && negb (Py.isspace word)).
  all: eexists; split; [reflexivity |].
  all: split; [repeat split; try done; by apply add_runs_type |].
  all: split; [done |]. all: split; [done |].
  all: cbn -[merge_run add_text Z.add Z.sub Py.spaces].
  all: try congruence.
  all: repeat split; try done; try exact Hpost.
Qed.

(** ** Display widths *)

Lemma UnFormat_is_plain (text : string) : plain (_UnFormat text).
Proof.
  cut (plain (_UnFormat text)
       /\ forall c, plain (_UnFormat (String c text))).
  { by intros [H _]. }
  induction text as [| e rest [IH1 IH2]].
  - split; [done |]. intros c. cbn [_UnFormat].
    destruct (Ascii.eqb c CSI) eqn:Hc; [done |]. by apply plain_cons.
  - split; [apply IH2 |]. intros c. cbn [_UnFormat].
    destruct (Ascii.eqb c CSI) eqn:Hc; [exact IH1 |].
    apply plain_cons. split; [done | apply IH2].
Qed.

Section Widths.

Context (attr : ConsoleAttr) `{!ColumnWidth attr}.







Lemma line_width_app (l1 l2 : Line) :
  line_width attr (l1 ++ l2) = line_width attr l1 + line_width attr l2.
Proof.
  induction l1 as [| t l1 IH]; simpl; [done |]. rewrite IH. lia.
Qed.










End Widths.

(** The one-column provider satisfies the width laws. *)

Lemma AsciiAttr_width_from_nonneg b (s : string) :
  0 <= AsciiAttr.width_from b s.
Proof.
  revert b. induction s as [| c r IH]; intros b; simpl; [done |].
  destruct b; [apply IH |]. destruct (Ascii.eqb c CSI); [apply IH |].
  specialize (IH false). lia.
Qed.

Lemma AsciiAttr_width_app (a b : string) :
  plain a ->
  AsciiAttr.width_from false (a +:+ b)
  = AsciiAttr.width_from false a + AsciiAttr.width_from false b.
Proof.
  induction a as [| c r IH]; [done |].
  rewrite append_cons. cbn [AsciiAttr.width_from].
  intros [Hc Hr]%plain_cons. rewrite Hc.
  rewrite IH by done. lia.
Qed.

Lemma EMBELLISHMENTS_isalpha e t :
  EMBELLISHMENTS e = Some t -> AsciiAttr.isalpha e = true.
Proof.
  unfold EMBELLISHMENTS.
  repeat match goal with
         | |- context [if Ascii.eqb ?x ?y then _ else _] =>
             destruct (Ascii.eqb_spec x y) as [-> |]; [done |]
         end.
  done.
Qed.

Lemma AsciiAttr_width_markers (a : string) :
  well_marked a = true ->
  AsciiAttr.width_from false a = AsciiAttr.width_from false (_UnFormat a).
Proof.
  cut ((well_marked a = true ->
        AsciiAttr.width_from false a = AsciiAttr.width_from false (_UnFormat a))
       /\ forall c, well_marked (String c a) = true ->
            AsciiAttr.width_from false (String c a)
            = AsciiAttr.width_from false (_UnFormat (String c a))).
  { by intros [H _]. }
  induction a as [| e rest [IH1 IH2]].
  - split; [done |]. intros c. cbn [well_marked _UnFormat].
    destruct (Ascii.eqb c CSI) eqn:Hc; [done |].
    intros _. cbn [AsciiAttr.width_from]. by rewrite Hc.
  - split; [apply IH2 |]. intros c. cbn [well_marked].
    change (_UnFormat (String c (String e rest)))
      with (if Ascii.eqb c CSI then _UnFormat rest
            else String c (_UnFormat (String e rest))).
    destruct (Ascii.eqb c CSI) eqn:Hc.
    + destruct (EMBELLISHMENTS e) as [t |] eqn:He; [| done].
      intros Hwm. cbn [AsciiAttr.width_from]. rewrite Hc.
      rewrite (EMBELLISHMENTS_isalpha e t He). cbn [negb]. by apply IH1.
    + intros Hwm.
      change (AsciiAttr.width_from false (String c (String e rest)))
        with (if Ascii.eqb c CSI
              then AsciiAttr.width_from true (String e rest)
              else 1 + AsciiAttr.width_from false (String e rest)).
      change (AsciiAttr.width_from false
                (String c (_UnFormat (String e rest))))
        with (if Ascii.eqb c CSI
              then AsciiAttr.width_from true (_UnFormat (String e rest))
              else 1 + AsciiAttr.width_from false
                         (_UnFormat (String e rest))).
      rewrite Hc. by rewrite IH2.
Qed.

Global Instance AsciiAttr_ColumnWidth : ColumnWidth AsciiAttr.attr.
Proof.
  split.
  - intros a b Ha _. by apply AsciiAttr_width_app.
  - reflexivity.
  - intros [| c r] Ha Hne; [done |]. apply plain_cons in Ha as [Hc _].
    cbn [AsciiAttr.attr DisplayWidth AsciiAttr.DisplayWidth
           AsciiAttr.width_from]. rewrite Hc.
    pose proof (AsciiAttr_width_from_nonneg false r). lia.
  - apply AsciiAttr_width_markers.
Qed.

(** ** Sessions of [Fill] calls *)

Section FillSessions.

Context (attr : ConsoleAttr) `{!ColumnWidth attr}.

Lemma start_fill_le compact : 0 <= start_fill compact <= base_indent compact.
Proof. destruct compact; cbv; split; congruence. Qed.















End FillSessions.



(** C7. On a fresh session of width 9, [Fill("one two three")] followed by
    a flush returns and emits exactly two lines, "one two" and "three", for
    every width provider that gives the three words 3, 3 and 5 columns. *)
Theorem Fill_one_two_three (attr : ConsoleAttr) :
  attr.(DisplayWidth) "one" = 3 ->
  attr.(DisplayWidth) "two" = 3 ->
  attr.(DisplayWidth) "three" = 5 ->
  exists s',
    (Fill attr "one two three" ;; _Flush attr) (TokenRenderer_init 9 0 true)
    = Ok tt s'
    /\ _lines s' = [[(Markdown_Normal, "one two")]; [(Markdown_Normal, "three")]]
    /\ map line_text (_lines s') = ["one two"; "three"].
Proof.
  intros H1 H2 H3. unfold Fill.
  change (Py.split "one two three") with ["one"; "two"; "three"].
  cbn [Fill_words]. unfold Fill_word. rewrite H1, H2, H3.
  eexists. split; [vm_compute; reflexivity |]. split; reflexivity.
Qed.

Lemma Fill_one_two_three_witness :
  exists s',
    (Fill AsciiAttr.attr "one two three" ;; _Flush AsciiAttr.attr)
      (TokenRenderer_init 9 0 true) = Ok tt s'
    /\ _lines s' = [[(Markdown_Normal, "one two")]; [(Markdown_Normal, "three")]]
    /\ map line_text (_lines s') = ["one two"; "three"].
Proof. apply Fill_one_two_three; reflexivity. Defined.

(** ** The indent stack *)

Lemma indent_at_Some i x (s : TokenRenderer) :
  _indent s !! i = Some x -> indent_at i s = Ok x s.
Proof. intros H. unfold indent_at. rewrite bind_gets. by rewrite H. Qed.

Lemma indent_assign_Some i f x (s : TokenRenderer) :
  _indent s !! i = Some x ->
  indent_assign i f s = Ok tt (set_indent (<[i := f x]> (_indent s)) s).
Proof.
  intros H. unfold indent_assign.
  by rewrite (bind_Ok _ _ _ _ _ (indent_at_Some i x s H)).
Qed.

Ltac assign_step :=
  erewrite bind_Ok;
  [| apply indent_assign_Some; cbn [_indent set_indent set_level];
     first [ eassumption
           | apply list_lookup_insert_eq; rewrite ?length_insert; eassumption ] ];
  cbn [_indent set_indent set_level].

Lemma SetIndent_step_spec indent_ hanging_indent_ (s : TokenRenderer) prev :
  0 <= indent_ ->
  _indent s !! _level s = Some prev ->
  exists s' y,
    SetIndent_step indent_ hanging_indent_ s = Ok tt s'
    /\ _level s' = S (_level s)
    /\ _indent s' !! S (_level s) = Some y
    /\ prev.(indent) <= y.(indent)
    /\ forall k, (k <= _level s)%nat -> _indent s' !! k = _indent s !! k.
Proof.
  intros Hi Hprev.
  destruct s as [w f bl c fi ct h ip iw stack l ls tk tr rw]. simpl in *.
  pose proof (lookup_lt_Some _ _ _ Hprev) as Hl.
  set (stack' := if (length stack <=? S l)%nat
                 then stack ++ [Indent_init true] else stack).
  assert (Hlen : (S l < length stack')%nat).
  { subst stack'. destruct (length stack <=? S l)%nat eqn:E.
    - rewrite length_app. simpl. apply Nat.leb_le in E. lia.
    - apply Nat.leb_gt in E. lia. }
  assert (Hprev' : stack' !! l = Some prev).
  { subst stack'. destruct (length stack <=? S l)%nat; [| done].
    by rewrite lookup_app_l. }
  assert (Hsame : forall k, (k <= l)%nat -> stack' !! k = stack !! k).
  { intros k Hk. subst stack'. destruct (length stack <=? S l)%nat; [| done].
    rewrite lookup_app_l; [done | lia]. }
  destruct (lookup_lt_is_Some_2 stack' (S l) Hlen) as [x Hx].
  unfold SetIndent_step.
  rewrite bind_gets, bind_modify, !bind_gets.
  cbn [_level _indent set_level set_indent].
  assert (Hgrow :
    when (length stack <=? S l)%nat
      (modify (set_indent (stack ++ [Indent_init true])))
      (mkTokenRenderer w f bl c fi ct h ip iw stack (S l) ls tk tr rw)
    = Ok tt (mkTokenRenderer w f bl c fi ct h ip iw stack' (S l) ls tk tr rw)).
  { subst stack'. by destruct (length stack <=? S l)%nat. }
  rewrite (bind_Ok _ _ _ _ _ Hgrow).
  erewrite bind_Ok by (apply indent_at_Some; exact Hprev').
  assign_step. clear Hgrow.
  destruct ((1 <? S l)%nat && (hanging_indent prev =? indent prev));
    cbn [when]; [assign_step | rewrite bind_ret]; assign_step.
  all: destruct hanging_indent_ as [h0 |];
    [eexists _, _; split;
       [apply indent_assign_Some; cbn [_indent set_indent set_level];
        apply list_lookup_insert_eq; rewrite ?length_insert; eassumption |]
    | eexists _, _; split; [reflexivity |]].
  all: cbn [_level _indent set_level set_indent];
    rewrite ?list_insert_insert_eq; split; [done |];
    split; [by apply list_lookup_insert_eq |];
    split; [cbn; lia |];
    intros k Hk; rewrite list_lookup_insert_ne by lia; by apply Hsame.
Qed.

Lemma SetIndent_step_ok indent_ hanging_indent_ (s : TokenRenderer) :
  0 <= indent_ -> indent_ok s ->
  exists s',
    SetIndent_step indent_ hanging_indent_ s = Ok tt s'
    /\ _level s' = S (_level s) /\ indent_ok s'.
Proof.
  intros Hi [[prev Hprev] Hmono].
  destruct (SetIndent_step_spec indent_ hanging_indent_ s prev Hi Hprev)
    as (s' & y & Hrun & Hl & Hy & Hle & Hsame).
  exists s'. split; [done |]. split; [done |]. split.
  - rewrite Hl. by exists y.
  - intros k Hk. rewrite Hl in Hk.
    destruct (decide (k = _level s)) as [-> | Hne].
    + exists prev, y. rewrite Hsame by lia. done.
    + destruct (Hmono k ltac:(lia)) as (x & z & Hx & Hz & Hxz).
      exists x, z. rewrite !Hsame by lia. done.
Qed.

Lemma SetIndent_loop_ok turns indent_ hanging_indent_ (s : TokenRenderer) :
  0 <= indent_ -> indent_ok s ->
  exists s',
    SetIndent_loop turns indent_ hanging_indent_ s = Ok tt s'
    /\ _level s' = (turns + _level s)%nat /\ indent_ok s'.
Proof.
  intros Hi. revert s. induction turns as [| n IH]; intros s Hs.
  - by exists s.
  - destruct (SetIndent_step_ok indent_ hanging_indent_ s Hi Hs)
      as (s1 & Hrun & Hl1 & Hs1).
    destruct (IH s1 Hs1) as (s' & Hrun' & Hl' & Hs').
    exists s'. cbn [SetIndent_loop]. rewrite (bind_Ok _ _ _ _ _ Hrun).
    split; [done |]. split; [lia | done].
Qed.

Lemma SetIndent_up level indent_ hanging_indent_ (s : TokenRenderer) :
  (_level s < level)%nat -> 0 <= indent_ -> indent_ok s ->
  exists s',
    _SetIndent level indent_ hanging_indent_ s = Ok tt s'
    /\ _level s' = level /\ indent_ok s'.
Proof.
  intros Hlt Hi Hs. unfold _SetIndent. rewrite bind_gets.
  rewrite (proj2 (Nat.ltb_lt _ _) Hlt).
  destruct (SetIndent_loop_ok (level - _level s) indent_ hanging_indent_ s
              Hi Hs) as (s' & Hrun & Hl & Hs').
  exists s'. split; [done |]. split; [lia | done].
Qed.

Lemma SetIndent_calls_ok (calls : list SetIndent_args) (s : TokenRenderer) :
  increasing_from (_level s) calls ->
  Forall (fun c : SetIndent_args => 0 <= snd (fst c)) calls ->
  indent_ok s ->
  exists s',
    SetIndent_calls calls s = Ok tt s'
    /\ _level s' = last_level (_level s) calls
    /\ indent_ok s'.
Proof.
  revert s. induction calls as [| [[level i] h] calls IH]; intros s Hinc Hnn Hs.
  - by exists s.
  - destruct Hinc as [Hlt Hinc]. apply Forall_cons_1 in Hnn as [Hi Hnn].
    destruct (SetIndent_up level i h s Hlt Hi Hs) as (s1 & Hrun & Hl1 & Hs1).
    rewrite <- Hl1 in Hinc.
    destruct (IH s1 Hinc Hnn Hs1) as (s' & Hrun' & Hl' & Hs').
    exists s'. cbn [SetIndent_calls last_level].
    rewrite (bind_Ok _ _ _ _ _ Hrun). by rewrite <- Hl1.
Qed.

Lemma indent_ok_level0 (s : TokenRenderer) :
  _level s = 0%nat -> _indent s <> [] -> indent_ok s.
Proof.
  intros Hl Hne. split.
  - rewrite Hl. destruct (_indent s); [done | by eexists].
  - intros k Hk. lia.
Qed.

(** C9. From a fresh session, every sequence of [_SetIndent] calls with
    strictly increasing levels and non-negative indent increments (any
    hanging indents) returns and leaves the renderer at the level the last
    call asked for, where every level up to that one has an entry in the
    indent stack whose indent is greater than or equal to the indent of its
    parent level. *)
Theorem SetIndent_increasing_monotone (W H : Z) (compact : bool)
    (calls : list SetIndent_args) :
  strictly_increasing calls ->
  Forall (fun c : SetIndent_args => 0 <= snd (fst c)) calls ->
  exists s',
    SetIndent_calls calls (TokenRenderer_init W H compact) = Ok tt s'
    /\ _level s' = last_level 0 calls
    /\ indent_monotone s'.
Proof.
  intros Hinc Hnn.
  destruct calls as [| [[level i] h] calls].
  { eexists. split; [done |]. split; [done |]. intros k Hk. cbn in Hk. lia. }
  destruct level as [| level].
  - (* the first call asks for level 0, where the session already is *)
    assert (exists s1,
      _SetIndent 0 i h (TokenRenderer_init W H compact) = Ok tt s1
      /\ _level s1 = 0%nat /\ _indent s1 <> []) as (s1 & Hrun & Hl1 & Hne1).
    { destruct h as [h |]; eexists; (split; [reflexivity |]); done. }
    apply Forall_cons_1 in Hnn as [_ Hnn]. cbn [strictly_increasing] in Hinc.
    rewrite <- Hl1 in Hinc.
    destruct (SetIndent_calls_ok calls s1 Hinc Hnn
                (indent_ok_level0 s1 Hl1 Hne1)) as (s' & Hrun' & Hl' & [_ Hs']).
    exists s'. cbn [SetIndent_calls last_level].
    rewrite (bind_Ok _ _ _ _ _ Hrun). by rewrite <- Hl1.
  - destruct (SetIndent_calls_ok ((S level, i, h) :: calls)
                (TokenRenderer_init W H compact))
      as (s' & Hrun & Hl' & [_ Hs']);
      [| done | by apply indent_ok_level0 | by exists s'].
    split; [cbn; lia | exact Hinc].
Qed.

Lemma SetIndent_increasing_monotone_witness :
  exists s',
    SetIndent_calls [(1%nat, 4, Some 3); (2%nat, 2, Some 2); (4%nat, 2, None)]
      (TokenRenderer_init 80 0 true) = Ok tt s'
    /\ _level s'
       = last_level 0 [(1%nat, 4, Some 3); (2%nat, 2, Some 2); (4%nat, 2, None)]
    /\ indent_monotone s'.
Proof.
  apply SetIndent_increasing_monotone.
  - cbn. lia.
  - repeat constructor; cbn; lia.
Defined.

(** ** After the truncation *)

Lemma preserves_ret {A} P (a : A) : preserves P (ret a).
Proof. by intros s. Qed.

Lemma preserves_raise {A} P e : preserves P (@raise A e).
Proof. by intros s. Qed.

Lemma preserves_gets {A} P (g : TokenRenderer -> A) : preserves P (gets g).
Proof. by intros s. Qed.

Lemma preserves_bind {A B} P (m : M A) (k : A -> M B) :
  preserves P m -> (forall a, preserves P (k a)) -> preserves P (bind m k).
Proof.
  intros Hm Hk s Hs. unfold bind. specialize (Hm s Hs).
  destruct (m s) as [a s' | e s']; [by apply Hk | done].
Qed.

Lemma preserves_when P b (m : M unit) :
  preserves P m -> preserves P (when b m).
Proof. destruct b; [done | intros _; apply preserves_ret]. Qed.

Section Frozen.

Context (attr : ConsoleAttr) (lines : list Line).

Lemma frozen_modify (g : TokenRenderer -> TokenRenderer) :
  (forall s, _truncated (g s) = _truncated s /\ _lines (g s) = _lines s) ->
  preserves (frozen lines) (modify g).
Proof.
  intros Hg s [Ht Hl]. destruct (Hg s) as [Ht' Hl'].
  split; simpl; congruence.
Qed.

Lemma frozen_NewLine overflow : preserves (frozen lines) (_NewLine attr overflow).
Proof.
  intros s [Ht Hl].
  destruct (NewLine_spec attr overflow s) as (L' & b' & -> & Hpost).
  unfold NewLine_post in Hpost. rewrite Ht in Hpost.
  destruct Hpost as [-> ->]. done.
Qed.

Ltac frozen_step :=
  lazymatch goal with
  | |- preserves _ (ret _) => apply preserves_ret
  | |- preserves _ (raise _) => apply preserves_raise
  | |- preserves _ (gets _) => apply preserves_gets
  | |- preserves _ (_NewLine _ _) => apply frozen_NewLine
  | |- preserves _ (modify _) =>
      apply frozen_modify; intros ?; split; reflexivity
  | |- preserves _ (when _ _) => apply preserves_when
  | |- preserves _ (bind _ _) => apply preserves_bind; [| intros ?]
  | |- preserves _ (match ?x with _ => _ end) => destruct x
  | |- preserves _ (let _ := _ in _) => cbv zeta
  end.

Ltac frozen := repeat frozen_step.

Lemma frozen_MergeOrAddToken text t :
  preserves (frozen lines) (_MergeOrAddToken attr text t).
Proof. unfold _MergeOrAddToken. frozen. Qed.

Lemma frozen_AddToken_loop seg rest t :
  preserves (frozen lines) (AddToken_loop attr seg rest t).
Proof.
  cut ((forall seg t, preserves (frozen lines) (AddToken_loop attr seg rest t))
       /\ (forall c seg t,
             preserves (frozen lines)
               (AddToken_loop attr seg (String c rest) t))).
  { intros [H _]. apply H. }
  clear seg t. induction rest as [| e rest [IH1 IH2]].
  - split; [intros; apply frozen_MergeOrAddToken |].
    intros c seg t. cbn [AddToken_loop].
    destruct (Ascii.eqb c CSI); [| apply frozen_MergeOrAddToken].
    apply preserves_bind; [apply frozen_MergeOrAddToken | intros _].
    apply preserves_raise.
  - split; [intros; apply IH2 |].
    intros c seg t. cbn [AddToken_loop].
    destruct (Ascii.eqb c CSI); [| apply IH2].
    apply preserves_bind; [apply frozen_MergeOrAddToken | intros _].
    destruct (EMBELLISHMENTS e); [| apply preserves_raise].
    apply preserves_bind; [| intros _; apply IH1].
    apply frozen_modify. intros ?; split; reflexivity.
Qed.

Lemma frozen_AddToken text ot :
  preserves (frozen lines) (_AddToken attr text ot).
Proof.
  unfold _AddToken. frozen;
    first [apply frozen_MergeOrAddToken | apply frozen_AddToken_loop].
Qed.

Ltac frozen' :=
  repeat first
    [ frozen_step
    | apply frozen_AddToken
    | apply frozen_MergeOrAddToken ].

Lemma frozen_Flush : preserves (frozen lines) (_Flush attr).
Proof. unfold _Flush, Content. frozen'. Qed.

Lemma frozen_Font a : preserves (frozen lines) (Font a).
Proof. unfold Font. frozen'. Qed.

Lemma frozen_Finish : preserves (frozen lines) (Finish attr).
Proof.
  unfold Finish.
  apply preserves_bind; [apply frozen_Flush | intros _].
  apply preserves_bind; [apply frozen_Font | intros _]. frozen'.
Qed.

Lemma frozen_Line : preserves (frozen lines) (Line_ attr).
Proof.
  unfold Line_, HaveBlank, Blank. 
  apply preserves_bind; [frozen' | intros []; [frozen' |]].
  apply preserves_bind; [apply frozen_Flush | intros _]. frozen'.
Qed.

Lemma frozen_AddDefinition text :
  preserves (frozen lines) (_AddDefinition attr text).
Proof. unfold _AddDefinition. frozen'. Qed.

Lemma frozen_indent_at i : preserves (frozen lines) (indent_at i).
Proof. unfold indent_at. frozen'. Qed.

Lemma frozen_indent_assign i f : preserves (frozen lines) (indent_assign i f).
Proof.
  unfold indent_assign.
  apply preserves_bind; [apply frozen_indent_at | intros ?]. frozen'.
Qed.

Ltac frozen'' :=
  repeat first
    [ frozen_step
    | apply frozen_AddToken
    | apply frozen_AddDefinition
    | apply frozen_Flush
    | apply frozen_Line
    | apply frozen_Font
    | apply frozen_Finish
    | apply frozen_indent_at
    | apply frozen_indent_assign ].

Lemma frozen_SetIndent_loop turns indent_ hanging_indent_ :
  preserves (frozen lines) (SetIndent_loop turns indent_ hanging_indent_).
Proof.
  induction turns as [| n IH]; cbn [SetIndent_loop]; [frozen'' |].
  apply preserves_bind; [| intros _; apply IH].
  unfold SetIndent_step. frozen''.
Qed.

Lemma frozen_SetIndent level indent_ hanging_indent_ :
  preserves (frozen lines) (_SetIndent level indent_ hanging_indent_).
Proof.
  unfold _SetIndent. frozen''. apply frozen_SetIndent_loop.
Qed.

Lemma frozen_Example line : preserves (frozen lines) (Example_ attr line).
Proof. unfold Example_, Content. frozen''. Qed.

Lemma frozen_Fill_words words :
  preserves (frozen lines) (Fill_words attr words).
Proof.
  induction words as [| word words IH]; cbn [Fill_words]; [frozen'' |].
  apply preserves_bind; [| intros _; apply IH].
  unfold Fill_word. frozen''.
Qed.

Lemma frozen_Fill line : preserves (frozen lines) (Fill attr line).
Proof.
  unfold Fill, Blank. frozen''. apply frozen_Fill_words.
Qed.

Lemma frozen_Heading level heading :
  preserves (frozen lines) (Heading attr level heading).
Proof. unfold Heading, Blank. frozen''. Qed.

Lemma frozen_List level definition end_ :
  preserves (frozen lines) (List_ attr level definition end_).
Proof.
  unfold List_. frozen''; apply frozen_SetIndent.
Qed.

Lemma frozen_SplitWide_for delimiters group indent_ running_width prev :
  preserves (frozen lines)
    (SplitWide_for attr delimiters group indent_ running_width prev).
Proof.
  induction delimiters as [| d ds IH]; cbn [SplitWide_for]; [frozen'' |].
  apply preserves_bind; [| intros [x |]; [frozen'' | apply IH]].
  unfold SplitWide_delimiter. destruct (Py.partition d group). frozen''.
Qed.

Lemma frozen_SplitWide_loop fuel group indent_ running_width prev :
  preserves (frozen lines)
    (SplitWide_loop attr fuel group indent_ running_width prev).
Proof.
  revert group running_width prev.
  induction fuel as [| n IH]; intros group running_width prev;
    cbn [SplitWide_loop]; [frozen'' |].
  destruct (negb (Py.nonempty group)); [frozen'' |].
  apply preserves_bind; [apply frozen_SplitWide_for |].
  intros [[[? ?] ?] |]; apply IH.
Qed.

Lemma frozen_Synopsis_output groups indent_ running_width :
  preserves (frozen lines)
    (Synopsis_output attr groups indent_ running_width).
Proof.
  revert running_width.
  induction groups as [| group groups IH]; intros running_width;
    cbn [Synopsis_output]; [frozen'' |].
  frozen''; try apply IH. apply frozen_SplitWide_loop.
Qed.

Lemma frozen_Synopsis line : preserves (frozen lines) (Synopsis attr line).
Proof.
  unfold Synopsis. frozen''. apply frozen_Synopsis_output.
Qed.

Lemma frozen_TableLine line indent_ :
  preserves (frozen lines) (TableLine attr line indent_).
Proof. unfold TableLine. frozen''. Qed.

Lemma frozen_run_event ev : preserves (frozen lines) (run_event attr ev).
Proof.
  destruct ev; cbn [run_event].
  - apply frozen_Heading.
  - apply frozen_Line.
  - apply frozen_Fill.
  - apply frozen_List.
  - apply frozen_Example.
  - apply frozen_Synopsis.
  - apply frozen_TableLine.
  - apply preserves_bind; [apply frozen_Font | intros _; apply preserves_ret].
  - apply preserves_bind; [apply frozen_Finish | intros _; apply preserves_ret].
Qed.

Lemma frozen_run_events evs : preserves (frozen lines) (run_events attr evs).
Proof.
  induction evs as [| ev evs IH]; cbn [run_events]; [apply preserves_ret |].
  apply preserves_bind; [apply frozen_run_event | intros _; apply IH].
Qed.

End Frozen.

(** C2. Once the renderer is truncated, every sequence of input events
    (headings, paragraph breaks, fills, list items, examples, synopsis and
    table lines, font toggles, finish) leaves the output lines as they are
    and the renderer truncated, whether the events return or raise. *)
Theorem truncated_output_is_final (attr : ConsoleAttr) (evs : list Event)
    (s : TokenRenderer) :
  _truncated s = true ->
  _lines (state_of (run_events attr evs s)) = _lines s
  /\ _truncated (state_of (run_events attr evs s)) = true.
Proof.
  intros Ht.
  destruct (frozen_run_events attr (_lines s) evs s) as [Ht' Hl']; [done |].
  done.
Qed.

Lemma truncated_output_is_final_witness :
  _lines (state_of (run_events AsciiAttr.attr
                      [EvFill "more text"; EvList 1 None false;
                       EvExample "x = 1"; EvSynopsis "cmd [--a] [--b]";
                       EvTableLine "a b" 2; EvHeading 2 "NAME"; EvLine;
                       EvFinish]
                      truncated_session))
  = _lines truncated_session
  /\ _truncated (state_of (run_events AsciiAttr.attr
                             [EvFill "more text"; EvList 1 None false;
                              EvExample "x = 1"; EvSynopsis "cmd [--a] [--b]";
                              EvTableLine "a b" 2; EvHeading 2 "NAME"; EvLine;
                              EvFinish]
                             truncated_session))
     = true.
Proof. apply truncated_output_is_final. reflexivity. Defined.

(** ** The loops that count their turns *)

Lemma get_None (s : string) (i : nat) :
  String.get i s = None <-> (String.length s <= i)%nat.
Proof.
  revert i. induction s as [| c r IH]; intros i; simpl.
  - split; [lia | done].
  - destruct i as [| i]; [split; [done | lia] |].
    rewrite IH. lia.
Qed.

Lemma get_drop (s : string) (i : nat) c :
  String.get i s = Some c ->
  exists rest, Py.drop i s = String c rest.
Proof.
  revert i. induction s as [| d r IH]; intros i; simpl; [done |].
  destruct i as [| i]; simpl.
  - intros [= ->]. by eexists.
  - apply IH.
Qed.

Lemma SkipSpace_from_ge (rest : string) (index : nat) :
  (index <= SkipSpace_from rest index)%nat.
Proof.
  revert index. induction rest as [| c r IH]; intros index; simpl; [done |].
  destruct (negb (Ascii.eqb c " ")); [done |].
  specialize (IH (S index)). lia.
Qed.

Lemma SkipSpace_gt (line : string) (i : nat) :
  String.get i line = Some " "%char -> (i < _SkipSpace line i)%nat.
Proof.
  intros Hg. destruct (get_drop line i _ Hg) as [rest Hd].
  unfold _SkipSpace. rewrite Hd. simpl.
  pose proof (SkipSpace_from_ge rest (S i)). lia.
Qed.

Section Turns.

Context (attr : ConsoleAttr).

Lemma SkipControlSequence_gt (line : string) (index : nat) :
  (index < _SkipControlSequence attr line index)%nat.
Proof.
  unfold _SkipControlSequence.
  destruct (_ =? 0)%nat eqn:E; [lia |]. apply Nat.eqb_neq in E. lia.
Qed.

Lemma SkipNest_loop_ge fuel (line : string) (index : nat) nest :
  (index <= SkipNest_loop attr fuel line index nest)%nat.
Proof.
  revert index nest. induction fuel as [| n IH]; intros index nest;
    cbn [SkipNest_loop]; [done |].
  destruct (String.get index line) as [c |]; [| done].
  pose proof (SkipControlSequence_gt line (S index)).
  repeat match goal with
         | |- context [if ?b then _ else _] => destruct b
         end;
    try lia;
    match goal with
    | |- (_ <= SkipNest_loop attr n line ?i ?k)%nat =>
        specialize (IH i k); lia
    end.
Qed.

(** Once [fuel] covers the characters left, more of it changes nothing:
    the loop of [_SkipNest] ends by its own test. *)
Lemma SkipNest_loop_enough fuel1 fuel2 (line : string) (index : nat) nest :
  (String.length line - index <= fuel1)%nat ->
  (String.length line - index <= fuel2)%nat ->
  SkipNest_loop attr fuel1 line index nest
  = SkipNest_loop attr fuel2 line index nest.
Proof.
  revert fuel2 index nest.
  induction fuel1 as [| n IH]; intros fuel2 index nest H1 H2.
  - assert (Hn : String.get index line = None) by (apply get_None; lia).
    destruct fuel2; cbn [SkipNest_loop]; by rewrite ?Hn.
  - destruct fuel2 as [| m].
    + assert (Hn : String.get index line = None) by (apply get_None; lia).
      cbn [SkipNest_loop]. by rewrite Hn.
    + cbn [SkipNest_loop].
      destruct (String.get index line) as [c |] eqn:Hg; [| done].
      assert (index < String.length line)%nat.
      { destruct (Nat.lt_ge_cases index (String.length line)); [done |].
        apply get_None in H. congruence. }
      pose proof (SkipControlSequence_gt line (S index)).
      repeat match goal with
             | |- context [if ?b then _ else _] => destruct b
             end;
        try done; apply IH; lia.
Qed.

Lemma SkipNest_gt (line : string) (i : nat) c :
  String.get i line = Some c -> (i < _SkipNest attr line i)%nat.
Proof.
  intros Hg. unfold _SkipNest.
  destruct (String.length line) as [| n] eqn:Hlen.
  { assert (String.get i line = None) by (apply get_None; lia). congruence. }
  cbn [SkipNest_loop]. rewrite Hg.
  pose proof (SkipControlSequence_gt line (S i)).
  repeat match goal with
         | |- context [if ?b then _ else _] => destruct b
         end;
    try lia;
    match goal with
    | |- (_ < SkipNest_loop attr n line ?j ?k)%nat =>
        pose proof (SkipNest_loop_ge n line j k); lia
    end.
Qed.

(** The same for the group-splitting loop of [Synopsis]. *)
Lemma Synopsis_loop_enough fuel1 fuel2 (line : string) (i beg : nat) groups :
  (String.length line - i <= fuel1)%nat ->
  (String.length line - i <= fuel2)%nat ->
  Synopsis_loop attr fuel1 line i beg groups
  = Synopsis_loop attr fuel2 line i beg groups.
Proof.
  revert fuel2 i beg groups.
  induction fuel1 as [| n IH]; intros fuel2 i beg groups H1 H2.
  - assert (Hn : String.get i line = None) by (apply get_None; lia).
    destruct fuel2; cbn [Synopsis_loop]; by rewrite ?Hn.
  - destruct fuel2 as [| m].
    + assert (Hn : String.get i line = None) by (apply get_None; lia).
      cbn [Synopsis_loop]. by rewrite Hn.
    + cbn [Synopsis_loop].
      destruct (String.get i line) as [c |] eqn:Hg; [| done].
      assert (i < String.length line)%nat.
      { destruct (Nat.lt_ge_cases i (String.length line)); [done |].
        apply get_None in H. congruence. }
      pose proof (SkipControlSequence_gt line i).
      pose proof (SkipNest_gt line i c Hg).
      destruct (Ascii.eqb c " ") eqn:Hsp.
      * apply Ascii.eqb_eq in Hsp. subst c.
        pose proof (SkipSpace_gt line i Hg).
        pose proof (SkipSpace_from_ge
                      (Py.drop (_SkipSpace line i + 1) line)
                      (_SkipSpace line i + 1)).
        fold (_SkipSpace line (_SkipSpace line i + 1)) in *.
        destruct (Synopsis_pipe line (_SkipSpace line i)) as [e | []];
          [done | apply IH; lia ..].
      * repeat match goal with
               | |- context [if ?b then _ else _] => destruct b
               end; apply IH; lia.
Qed.

Lemma returns_bind {A B} (Q : B -> Prop) (m : M A) (k : A -> M B) :
  (forall a, returns Q (k a)) -> returns Q (bind m k).
Proof.
  intros Hk s. unfold bind. destruct (m s) as [a s' | e s']; [apply Hk | done].
Qed.

Lemma returns_ret {A} (Q : A -> Prop) (a : A) : Q a -> returns Q (ret a).
Proof. by intros Ha s. Qed.

Lemma partition_remainder_le (d s : string) :
  (String.length (snd (Py.partition d s)) <= String.length s)%nat.
Proof.
  assert (Hdrop : forall n (t : string),
            (String.length (Py.drop n t) <= String.length t)%nat).
  { intros n. induction n as [| n IH]; intros [| c t]; simpl; try lia.
    specialize (IH t). lia. }
  induction s as [| c r IH].
  - cbn [Py.partition]. destruct (String.prefix d ""); [apply Hdrop | done].
  - cbn [Py.partition]. destruct (String.prefix d (String c r)).
    + apply Hdrop.
    + destruct (Py.partition d r) as [p rem]. simpl in *. lia.
Qed.

Lemma partition_remainder_lt (d s : string) :
  d <> "" -> s <> "" ->
  (String.length (snd (Py.partition d s)) < String.length s)%nat.
Proof.
  intros Hd Hs. destruct s as [| c r]; [done |]. cbn [Py.partition].
  destruct (String.prefix d (String c r)).
  - destruct d as [| x d]; [done |]. cbn [String.length Py.drop snd].
    clear. revert r. generalize (String.length d).
    intros n. induction n as [| n IH]; intros [| y r]; simpl; try lia.
    specialize (IH r). lia.
  - pose proof (partition_remainder_le d r).
    destruct (Py.partition d r) as [p rem]. simpl in *. lia.
Qed.

(** A turn of the [for] loop either goes on to the next delimiter, which
    the comma never does, or breaks with the remainder of the partition. *)
Lemma SplitWide_delimiter_returns delimiter group indent_ running_width prev :
  returns (fun r => match r with
                    | Some (_, _, g) => g = snd (Py.partition delimiter group)
                    | None => delimiter <> ","
                    end)
    (SplitWide_delimiter attr delimiter group indent_ running_width prev).
Proof.
  unfold SplitWide_delimiter.
  destruct (Py.partition delimiter group) as [part remainder].
  apply returns_bind. intros width.
  destruct (_ || _).
  - destruct (negb (String.eqb delimiter ",")) eqn:Hd; cbn [andb].
    + destruct (_ >=? _).
      * apply returns_ret. intros ->. done.
      * do 3 (apply returns_bind; intros ?). by apply returns_ret.
    + do 3 (apply returns_bind; intros ?). by apply returns_ret.
  - apply returns_bind; intros ?. by apply returns_ret.
Qed.

Lemma SplitWide_for_returns (group : string) indent_ running_width prev :
  group <> "" ->
  returns (fun r => match r with
                    | Some (_, _, g) =>
                        (String.length g < String.length group)%nat
                    | None => False
                    end)
    (SplitWide_for attr split_delimiters group indent_ running_width prev).
Proof.
  intros Hg.
  assert (Hstep : forall d rest,
    d <> "" ->
    returns (fun r => match r with
                      | Some (_, _, g) =>
                          (String.length g < String.length group)%nat
                      | None => d <> "," -> False
                      end)
      (SplitWide_for attr rest group indent_ running_width prev) ->
    returns (fun r => match r with
                      | Some (_, _, g) =>
                          (String.length g < String.length group)%nat
                      | None => False
                      end)
      (SplitWide_for attr (d :: rest) group indent_ running_width prev)).
  { intros d rest Hd Hrest s. cbn [SplitWide_for]. unfold bind.
    pose proof (SplitWide_delimiter_returns d group indent_ running_width
                  prev s) as H.
    destruct (SplitWide_delimiter attr d group indent_ running_width prev s)
      as [[[[rw p] g] |] s' | e s']; [| | done].
    - subst g. by apply partition_remainder_lt.
    - specialize (Hrest s').
      destruct (SplitWide_for attr rest group indent_ running_width prev s')
        as [[[[rw p] g] |] s'' | e s'']; [done | by apply Hrest | done]. }
  unfold split_delimiters.
  apply Hstep; [done |]. intros s.
  pose proof (Hstep " : " [" "; ","] ltac:(done)) as H2.
  pose proof (Hstep " " [","] ltac:(done)) as H3.
  pose proof (Hstep "," [] ltac:(done)) as H4.
  assert (H5 : returns (fun r => match r with
                      | Some (_, _, g) =>
                          (String.length g < String.length group)%nat
                      | None => "," <> "," -> False
                      end)
      (SplitWide_for attr [] group indent_ running_width prev)).
  { intros s0. cbn. auto. }
  assert (Hweak : forall (d : string) m,
    returns (fun r => match r with
                      | Some (_, _, g) =>
                          (String.length g < String.length group)%nat
                      | None => False
                      end) m ->
    returns (fun r : option (Z * string * string) => match r with
                      | Some (_, _, g) =>
                          (String.length g < String.length group)%nat
                      | None => d <> "," -> False
                      end) m).
  { intros d m Hm s0. specialize (Hm s0).
    destruct (m s0) as [[[[? ?] ?] |] ? | ? ?]; done. }
  specialize (H4 H5). specialize (H3 (Hweak _ _ H4)).
  specialize (H2 (Hweak _ _ H3)).
  pose proof (Hweak " | " _ H2 s) as H. exact H.
Qed.

(** Once [fuel] covers the length of the group, more of it changes nothing:
    the [while group] loop ends on the empty group. *)
Lemma SplitWide_loop_enough fuel1 fuel2 (group : string) indent_ running_width
    prev (s : TokenRenderer) :
  (String.length group <= fuel1)%nat ->
  (String.length group <= fuel2)%nat ->
  SplitWide_loop attr fuel1 group indent_ running_width prev s
  = SplitWide_loop attr fuel2 group indent_ running_width prev s.
Proof.
  revert fuel2 group running_width prev s.
  induction fuel1 as [| n IH]; intros fuel2 group running_width prev s H1 H2.
  - destruct group; [| simpl in H1; lia].
    destruct fuel2; reflexivity.
  - destruct fuel2 as [| m].
    + destruct group; [| simpl in H2; lia]. reflexivity.
    + cbn [SplitWide_loop].
      destruct (Py.nonempty group) eqn:Hn; cbn [negb]; [| done].
      apply nonempty_true in Hn. unfold bind.
      pose proof (SplitWide_for_returns group indent_ running_width prev Hn s)
        as Hr.
      destruct (SplitWide_for attr split_delimiters group indent_
                  running_width prev s)
        as [[[[rw p] g] |] s' | e s']; [| done | done].
      apply IH; lia.
Qed.

End Turns.

(** ** Synopsis lines that are rendered *)

Lemma total_ret {A} (Q : A -> Prop) (a : A) : Q a -> total Q (ret a).
Proof. intros Ha s Hs. by exists a, s. Qed.

Lemma total_bind {A B} (Q : A -> Prop) (R : B -> Prop) (m : M A)
    (k : A -> M B) :
  total Q m -> (forall a, Q a -> total R (k a)) -> total R (bind m k).
Proof.
  intros Hm Hk s Hs. destruct (Hm s Hs) as (a & s1 & Hrun & Hs1 & Ha).
  destruct (Hk a Ha s1 Hs1) as (b & s2 & Hrun2 & Hs2 & Hb).
  exists b, s2. by rewrite (bind_Ok _ _ _ _ _ Hrun).
Qed.

Lemma total_gets {A} (g : TokenRenderer -> A) : total (fun _ => True) (gets g).
Proof. intros s Hs. by exists (g s), s. Qed.

Lemma total_AddToken attr (text : string) :
  plain text -> total (fun _ => True) (_AddToken attr text None).
Proof.
  intros Hp s Hs. eexists tt, _. split; [by apply AddToken_plain |].
  split; [| done]. unfold styled in *. cbn.
  by rewrite current_token_type_note_content.
Qed.

Lemma total_NewLine attr overflow :
  total (fun _ => True) (_NewLine attr overflow).
Proof.
  intros s Hs.
  destruct (NewLine_spec attr overflow s) as (L' & b' & Hrun & _).
  by eexists tt, _.
Qed.

Lemma plain_take n (s : string) : plain s -> plain (Py.take n s).
Proof.
  revert s. induction n as [| n IH]; intros [| c r]; try done.
  intros [Hc Hr]%plain_cons. cbn [Py.take]. apply plain_cons. auto.
Qed.

Lemma plain_drop n (s : string) : plain s -> plain (Py.drop n s).
Proof.
  revert s. induction n as [| n IH]; intros [| c r]; try done.
  intros [Hc Hr]%plain_cons. cbn [Py.drop]. auto.
Qed.

Lemma plain_partition (d s : string) :
  plain s -> plain (fst (Py.partition d s)) /\ plain (snd (Py.partition d s)).
Proof.
  induction s as [| c r IH]; intros Hs; cbn [Py.partition].
  - destruct (String.prefix d ""); [| done]. split; [done |]. by apply plain_drop.
  - destruct (String.prefix d (String c r)).
    + split; [done |]. by apply plain_drop.
    + apply plain_cons in Hs as [Hc Hr]. destruct (IH Hr) as [H1 H2].
      destruct (Py.partition d r) as [p rem]. cbn [fst snd] in *.
      split; [by apply plain_cons | done].
Qed.

Section SynopsisReturns.

Context (attr : ConsoleAttr).

Lemma total_SplitWide_delimiter delimiter group indent_ running_width prev :
  plain delimiter -> plain group -> plain prev ->
  total (fun r => match r with
                  | Some (_, d, g) => plain d /\ plain g
                  | None => True
                  end)
    (SplitWide_delimiter attr delimiter group indent_ running_width prev).
Proof.
  intros Hd Hg Hp. unfold SplitWide_delimiter.
  destruct (plain_partition delimiter group Hg) as [Hpart Hrem].
  destruct (Py.partition delimiter group) as [part remainder].
  cbn [fst snd] in *.
  assert (Hfinish : forall (p : string) rw, plain p ->
    total (fun r : option (Z * string * string) =>
             match r with
             | Some (_, d, g) => plain d /\ plain g
             | None => True
             end)
      (_AddToken attr (p +:+ part) None ;;
       ret (Some (rw + Py.len p + DisplayWidth attr part, delimiter,
                  remainder)))).
  { intros p rw Hpp. eapply total_bind.
    - apply total_AddToken. by apply plain_app.
    - intros _ _. by apply total_ret. }
  eapply total_bind; [apply total_gets | intros width _].
  destruct (_ || _); [| by apply Hfinish].
  destruct (_ && _); [by apply total_ret |].
  eapply (total_bind (fun p => plain p)).
  { destruct (String.eqb prev ","); [| by apply total_ret].
    eapply total_bind; [by apply total_AddToken | intros _ _].
    by apply total_ret. }
  intros p Hpp.
  eapply (total_bind (fun _ => True)); [| intros rw _; by apply Hfinish].
  destruct (negb (running_width =? indent_)); [| by apply total_ret].
  eapply total_bind; [apply total_NewLine | intros _ _].
  eapply total_bind; [apply total_AddToken, plain_spaces | intros _ _].
  by apply total_ret.
Qed.

Lemma total_SplitWide_for delimiters group indent_ running_width prev :
  Forall plain delimiters -> plain group -> plain prev ->
  total (fun r => match r with
                  | Some (_, d, g) => plain d /\ plain g
                  | None => True
                  end)
    (SplitWide_for attr delimiters group indent_ running_width prev).
Proof.
  intros Hds Hg Hp. induction Hds as [| d ds Hd _ IH]; cbn [SplitWide_for].
  - by apply total_ret.
  - eapply total_bind; [by apply total_SplitWide_delimiter |].
    intros [[[rw d'] g] |] Hr; [by apply total_ret | exact IH].
Qed.

Lemma total_SplitWide_loop fuel group indent_ running_width prev :
  plain group -> plain prev ->
  total (fun _ => True)
    (SplitWide_loop attr fuel group indent_ running_width prev).
Proof.
  revert group running_width prev.
  induction fuel as [| n IH]; intros group running_width prev Hg Hp;
    cbn [SplitWide_loop]; [by apply total_ret |].
  destruct (negb (Py.nonempty group)); [by apply total_ret |].
  eapply total_bind.
  - apply total_SplitWide_for; [by repeat constructor | done ..].
  - intros [[[rw d] g] |] Hr; [destruct Hr; by apply IH | by apply IH].
Qed.

Lemma total_Synopsis_output groups indent_ running_width :
  Forall plain groups ->
  total (fun _ => True) (Synopsis_output attr groups indent_ running_width).
Proof.
  intros Hgs. revert running_width.
  induction Hgs as [| group groups Hg _ IH]; intros running_width;
    cbn [Synopsis_output]; [by apply total_ret |].
  assert (Hadd : forall rw,
    total (fun _ => True)
      (_AddToken attr (" " +:+ group) None ;;
       Synopsis_output attr groups indent_ rw)).
  { intros rw. eapply total_bind; [| intros _ _; apply IH].
    apply total_AddToken. by apply plain_app. }
  eapply total_bind; [apply total_gets | intros width _].
  destruct (_ >=? _); [| apply Hadd].
  eapply total_bind; [apply total_NewLine | intros _ _].
  eapply total_bind; [apply total_AddToken, plain_spaces | intros _ _].
  destruct (_ >=? _); [| apply Hadd].
  eapply total_bind; [| intros rw _; apply IH].
  by apply total_SplitWide_loop.
Qed.

Lemma length_drop n (s : string) :
  String.length (Py.drop n s) = (String.length s - n)%nat.
Proof.
  revert s. induction n as [| n IH]; intros [| c r]; cbn [Py.drop];
    rewrite ?IH; simpl; lia.
Qed.

(** Unless the line ends in a pipe, the test that looks past the pipe does
    not read past the end of the line. *)
Lemma Synopsis_pipe_returns (line : string) (i : nat) :
  Py.endswith "|" line = false -> exists b, Synopsis_pipe line i = inr b.
Proof.
  intros Hend. unfold Synopsis_pipe, Py.len.
  destruct (Z.of_nat i <=? _) eqn:Hi; [| by eexists].
  apply Z.leb_le in Hi.
  destruct (String.get i line) as [c |] eqn:Hg.
  2: { apply get_None in Hg. lia. }
  destruct (Ascii.eqb c "|") eqn:Hc; [| by eexists].
  destruct (String.get (S i) line) as [d |] eqn:Hg'; [by eexists |].
  apply Ascii.eqb_eq in Hc. subst c. apply get_None in Hg'.
  destruct (get_drop line i _ Hg) as [rest Hd].
  assert (Hlen : String.length line = S i) by lia.
  assert (rest = "") as ->.
  { pose proof (length_drop i line) as H. rewrite Hd in H. simpl in H.
    destruct rest; [done | simpl in H; lia]. }
  unfold Py.endswith in Hend. rewrite Hlen in Hend.
  cbn [String.length] in Hend.
  replace (S i - 1)%nat with i in Hend by lia.
  rewrite Hd in Hend. done.
Qed.

Lemma Synopsis_loop_returns fuel (line : string) (i beg : nat) groups :
  plain line -> Py.endswith "|" line = false -> Forall plain groups ->
  exists beg' groups',
    Synopsis_loop attr fuel line i beg groups = inr (beg', groups')
    /\ Forall plain groups'.
Proof.
  intros Hp Hend. revert i beg groups.
  induction fuel as [| n IH]; intros i beg groups Hgs;
    cbn [Synopsis_loop]; [by eexists _, _ |].
  destruct (String.get i line) as [c |]; [| by eexists _, _].
  destruct (Ascii.eqb c " ").
  - destruct (Synopsis_pipe_returns line (_SkipSpace line i) Hend)
      as [[] ->]; [by apply IH |].
    apply IH. apply Forall_app. split; [done |].
    apply Forall_singleton. unfold Py.slice. by apply plain_take, plain_drop.
  - repeat match goal with
           | |- context [if ?b then _ else _] => destruct b
           end; by apply IH.
Qed.

Lemma Synopsis_groups_returns (line : string) :
  plain line -> Py.endswith "|" line = false ->
  exists groups,
    Synopsis_groups attr line = inr groups /\ Forall plain groups.
Proof.
  intros Hp Hend. unfold Synopsis_groups.
  destruct (Synopsis_loop_returns (String.length line) line
              (_SkipSpace line 0) (_SkipSpace line 0) [] Hp Hend)
    as (beg & groups & -> & Hgs); [done |].
  eexists. split; [reflexivity |].
  destruct (_ <? _)%nat; [| done].
  apply Forall_app. split; [done |].
  apply Forall_singleton. by apply plain_drop.
Qed.

(** [Synopsis] returns on every line without markers that does not end
    in a pipe: the call of C3 fails on the pipe alone. *)
Theorem Synopsis_returns (line : string) (s : TokenRenderer) :
  plain line -> Py.endswith "|" line = false ->
  _indent s <> [] -> styled s ->
  exists s', Synopsis attr line s = Ok tt s'.
Proof.
  intros Hp Hend Hind Hs. unfold Synopsis.
  destruct (Synopsis_groups_returns line Hp Hend) as (groups & -> & Hgs).
  destruct (_indent s) as [| x stack] eqn:Hstack; [done |].
  rewrite (bind_Ok _ _ _ _ _ (indent_at_Some 0 x s ltac:(by rewrite Hstack))).
  assert (Hrest : total (fun _ => True)
    (_AddToken attr (Py.spaces (indent x - 1)) None ;;
     Synopsis_output attr groups (indent x - 1 + INDENT) (indent x - 1) ;;
     _NewLine attr None ;; _NewLine attr None)).
  { eapply total_bind; [apply total_AddToken, plain_spaces | intros _ _].
    eapply total_bind; [by apply total_Synopsis_output | intros _ _].
    eapply total_bind; [apply total_NewLine | intros _ _].
    apply total_NewLine. }
  destruct (Hrest s Hs) as ([] & s' & Hrun & _). by exists s'.
Qed.

End SynopsisReturns.

Lemma Synopsis_returns_witness :
  exists s',
    Synopsis AsciiAttr.attr "cmd [--a] [--b]" (TokenRenderer_init 80 0 true)
    = Ok tt s'.
Proof. apply Synopsis_returns; try reflexivity; discriminate. Defined.

(** ** Properties kept by every method *)

Section TextInvariants.

Context (attr : ConsoleAttr) (P : TokenRenderer -> Prop)
  `{!TextInvariant attr P}.

Lemma kept_modify (g : TokenRenderer -> TokenRenderer) :
  (forall s, same_text_state s (g s)) -> preserves P (modify g).
Proof. intros Hg s Hs. cbn. eapply inv_frame; [apply Hg | done]. Qed.

Ltac kept_step :=
  lazymatch goal with
  | |- preserves _ (ret _) => apply preserves_ret
  | |- preserves _ (raise _) => apply preserves_raise
  | |- preserves _ (gets _) => apply preserves_gets
  | |- preserves _ (_NewLine _ _) => apply inv_NewLine
  | |- preserves _ (modify _) =>
      apply kept_modify; intros ?; repeat split; reflexivity
  | |- preserves _ (when _ _) => apply preserves_when
  | |- preserves _ (bind _ _) => apply preserves_bind; [| intros ?]
  | |- preserves _ (match ?x with _ => _ end) => destruct x
  | |- preserves _ (let _ := _ in _) => cbv zeta
  end.

Lemma kept_AddToken_loop seg rest t :
  plain seg -> preserves P (AddToken_loop attr seg rest t).
Proof.
  cut ((forall seg t, plain seg ->
          preserves P (AddToken_loop attr seg rest t))
       /\ (forall c seg t, plain seg ->
             preserves P (AddToken_loop attr seg (String c rest) t))).
  { intros [H _]. apply H. }
  clear seg t.
  assert (Hsnoc : forall (seg : string) c,
    plain seg -> Ascii.eqb c CSI = false -> plain (seg +:+ String c "")).
  { intros seg c Hs Hc. apply plain_app; [done | by apply plain_cons]. }
  induction rest as [| e rest [IH1 IH2]].
  - split; [intros; by apply inv_MergeOrAddToken |].
    intros c seg t Hs. cbn [AddToken_loop].
    destruct (Ascii.eqb c CSI) eqn:Hc;
      [| apply inv_MergeOrAddToken; by apply Hsnoc].
    apply preserves_bind; [by apply inv_MergeOrAddToken | intros _].
    apply preserves_raise.
  - split; [intros; by apply IH2 |].
    intros c seg t Hs. cbn [AddToken_loop].
    destruct (Ascii.eqb c CSI) eqn:Hc; [| apply IH2; by apply Hsnoc].
    apply preserves_bind; [by apply inv_MergeOrAddToken | intros _].
    destruct (EMBELLISHMENTS e) as [t' |] eqn:He; [| apply preserves_raise].
    apply preserves_bind; [| intros _; by apply IH1].
    intros s Hs'. cbn. by eapply inv_token_type.
Qed.

Lemma kept_AddToken text ot : preserves P (_AddToken attr text ot).
Proof.
  unfold _AddToken.
  apply preserves_bind; [repeat kept_step | intros _].
  apply preserves_bind; [repeat kept_step | intros t].
  destruct (Py.contains CSI text) eqn:Hc; cbn [negb].
  - by apply kept_AddToken_loop.
  - by apply inv_MergeOrAddToken.
Qed.

Lemma kept_indent_at i : preserves P (indent_at i).
Proof. unfold indent_at. repeat kept_step. Qed.

Ltac kept :=
  repeat first [ kept_step | apply kept_AddToken | apply kept_indent_at ].

Lemma kept_Flush : preserves P (_Flush attr).
Proof. unfold _Flush, Content. kept. Qed.

Lemma kept_Font a : preserves P (Font a).
Proof. unfold Font. kept. Qed.

Lemma kept_Finish : preserves P (Finish attr).
Proof.
  unfold Finish.
  apply preserves_bind; [apply kept_Flush | intros _].
  apply preserves_bind; [apply kept_Font | intros _]. kept.
Qed.

Lemma kept_Line : preserves P (Line_ attr).
Proof.
  unfold Line_, HaveBlank, Blank.
  apply preserves_bind; [kept | intros []; [kept |]].
  apply preserves_bind; [apply kept_Flush | intros _]. kept.
Qed.

Lemma kept_AddDefinition text : preserves P (_AddDefinition attr text).
Proof. unfold _AddDefinition. kept. Qed.

Ltac kept' :=
  repeat first
    [ kept_step
    | apply kept_AddToken
    | apply kept_AddDefinition
    | apply kept_Flush
    | apply kept_Line
    | apply kept_Font
    | apply kept_Finish
    | apply kept_indent_at ].

Lemma kept_Example line : preserves P (Example_ attr line).
Proof. unfold Example_, Content. kept'. Qed.

Lemma kept_SplitWide_for delimiters group indent_ running_width prev :
  preserves P (SplitWide_for attr delimiters group indent_ running_width prev).
Proof.
  induction delimiters as [| d ds IH]; cbn [SplitWide_for]; [kept' |].
  apply preserves_bind; [| intros [x |]; [kept' | apply IH]].
  unfold SplitWide_delimiter. destruct (Py.partition d group). kept'.
Qed.

Lemma kept_SplitWide_loop fuel group indent_ running_width prev :
  preserves P (SplitWide_loop attr fuel group indent_ running_width prev).
Proof.
  revert group running_width prev.
  induction fuel as [| n IH]; intros group running_width prev;
    cbn [SplitWide_loop]; [kept' |].
  destruct (negb (Py.nonempty group)); [kept' |].
  apply preserves_bind; [apply kept_SplitWide_for |].
  intros [[[? ?] ?] |]; apply IH.
Qed.

Lemma kept_Synopsis_output groups indent_ running_width :
  preserves P (Synopsis_output attr groups indent_ running_width).
Proof.
  revert running_width.
  induction groups as [| group groups IH]; intros running_width;
    cbn [Synopsis_output]; [kept' |].
  kept'; try apply IH. apply kept_SplitWide_loop.
Qed.

Lemma kept_Synopsis line : preserves P (Synopsis attr line).
Proof. unfold Synopsis. kept'. apply kept_Synopsis_output. Qed.

Lemma kept_TableLine line indent_ : preserves P (TableLine attr line indent_).
Proof. unfold TableLine. kept'. Qed.

End TextInvariants.

Section Invariants.

Context (attr : ConsoleAttr) (P : TokenRenderer -> Prop) `{!Invariant attr P}.

Lemma kept_set_level0 : preserves P (modify (set_level 0%nat)).
Proof. intros s Hs. cbn. by apply inv_level0. Qed.

Ltac kept_step :=
  lazymatch goal with
  | |- preserves _ (ret _) => apply preserves_ret
  | |- preserves _ (raise _) => apply preserves_raise
  | |- preserves _ (gets _) => apply preserves_gets
  | |- preserves _ (_NewLine _ _) => apply (@inv_NewLine attr P _)
  | |- preserves _ (_SetIndent _ _ _) => apply inv_SetIndent
  | |- preserves _ (modify (set_level 0%nat)) => apply kept_set_level0
  | |- preserves _ (modify _) =>
      apply (@kept_modify attr P _); intros ?; repeat split; reflexivity
  | |- preserves _ (when _ _) => apply preserves_when
  | |- preserves _ (bind _ _) => apply preserves_bind; [| intros ?]
  | |- preserves _ (match ?x with _ => _ end) => destruct x
  | |- preserves _ (let _ := _ in _) => cbv zeta
  end.

Ltac kept' :=
  repeat first
    [ kept_step
    | apply (@kept_AddToken attr P _)
    | apply (@kept_AddDefinition attr P _)
    | apply (@kept_Flush attr P _)
    | apply (@kept_Line attr P _)
    | apply (@kept_Font attr P _)
    | apply (@kept_Finish attr P _)
    | apply kept_indent_at ].

Lemma kept_Fill_words words : preserves P (Fill_words attr words).
Proof.
  induction words as [| word words IH]; cbn [Fill_words]; [kept' |].
  apply preserves_bind; [| intros _; apply IH].
  unfold Fill_word. kept'.
Qed.

Lemma kept_Fill line : preserves P (Fill attr line).
Proof. unfold Fill, Blank. kept'. apply kept_Fill_words. Qed.

Lemma kept_Heading level heading : preserves P (Heading attr level heading).
Proof. unfold Heading, Blank. kept'. Qed.

Lemma kept_List level definition end_ :
  preserves P (List_ attr level definition end_).
Proof.
  unfold List_.
  apply preserves_bind; [apply (@kept_Flush attr P _) | intros _].
  destruct (Nat.eqb_spec level 0) as [-> | _]; [apply kept_set_level0 |].
  kept'.
Qed.

Lemma kept_run_event ev : preserves P (run_event attr ev).
Proof.
  destruct ev; cbn [run_event].
  - apply kept_Heading.
  - apply (@kept_Line attr P _).
  - apply kept_Fill.
  - apply kept_List.
  - apply (@kept_Example attr P _).
  - apply (@kept_Synopsis attr P _).
  - apply (@kept_TableLine attr P _).
  - apply preserves_bind; [apply (@kept_Font attr P _) | intros _; apply preserves_ret].
  - apply preserves_bind; [apply (@kept_Finish attr P _) | intros _; apply preserves_ret].
Qed.

Lemma kept_run_events evs : preserves P (run_events attr evs).
Proof.
  induction evs as [| ev evs IH]; cbn [run_events]; [apply preserves_ret |].
  apply preserves_bind; [apply kept_run_event | intros _; apply IH].
Qed.

End Invariants.

(** ** What a method can change *)

Lemma stack_variant_refl (s : TokenRenderer) : stack_variant s s.
Proof. exists (_level s), (_indent s). by destruct s. Qed.

Lemma stack_variant_modify (s0 : TokenRenderer)
    (g : TokenRenderer -> TokenRenderer) :
  (forall s, stack_variant s (g s)) ->
  preserves (stack_variant s0) (modify g).
Proof.
  intros Hg s (lv & st & ->). cbn.
  destruct (Hg (set_indent st (set_level lv s0))) as (lv' & st' & ->).
  exists lv', st'. by destruct s0.
Qed.

Ltac stack_step :=
  lazymatch goal with
  | |- preserves _ (ret _) => apply preserves_ret
  | |- preserves _ (raise _) => apply preserves_raise
  | |- preserves _ (gets _) => apply preserves_gets
  | |- preserves _ (modify _) =>
      apply stack_variant_modify; intros s;
      match goal with
      | |- stack_variant s ?gs => exists (_level gs), (_indent gs)
      end; destruct s; reflexivity
  | |- preserves _ (when _ _) => apply preserves_when
  | |- preserves _ (bind _ _) => apply preserves_bind; [| intros ?]
  | |- preserves _ (match ?x with _ => _ end) => destruct x
  | |- preserves _ (let _ := _ in _) => cbv zeta
  end.

Lemma stack_variant_SetIndent (s0 : TokenRenderer) level indent_
    hanging_indent_ :
  preserves (stack_variant s0) (_SetIndent level indent_ hanging_indent_).
Proof.
  unfold _SetIndent.
  apply preserves_bind; [stack_step | intros cur].
  destruct (cur <? level)%nat.
  - generalize (level - cur)%nat. intros turns.
    induction turns as [| n IH]; cbn [SetIndent_loop]; [stack_step |].
    apply preserves_bind; [| intros _; apply IH].
    unfold SetIndent_step, indent_assign, indent_at. repeat stack_step.
  - unfold indent_assign, indent_at. repeat stack_step.
Qed.

(** [_SetIndent] assigns to [_level] and [_indent] only, whether it returns
    or raises. *)
Lemma SetIndent_stack_variant level indent_ hanging_indent_
    (s : TokenRenderer) :
  stack_variant s (state_of (_SetIndent level indent_ hanging_indent_ s)).
Proof. apply stack_variant_SetIndent, stack_variant_refl. Qed.

Lemma output_variant_refl (s : TokenRenderer) : output_variant s s.
Proof. exists (_tokens s), (_lines s), (_truncated s). by destruct s. Qed.

Lemma output_variant_trans (s1 s2 s3 : TokenRenderer) :
  output_variant s1 s2 -> output_variant s2 s3 -> output_variant s1 s3.
Proof.
  intros (tk & ls & tr & ->) (tk' & ls' & tr' & ->).
  exists tk', ls', tr'. by destruct s1.
Qed.

(** [_NewLine] assigns to [_tokens], [_lines] and [_truncated] only. *)
Lemma NewLine_output_variant attr overflow (s : TokenRenderer) :
  output_variant s (state_of (_NewLine attr overflow s)).
Proof.
  destruct (NewLine_spec attr overflow s) as (L & b & -> & _).
  by exists [], L, b.
Qed.

(** So does [_MergeOrAddToken]. *)
Lemma MergeOrAddToken_output_variant attr text t (s : TokenRenderer) :
  output_variant s (state_of (_MergeOrAddToken attr text t s)).
Proof.
  assert (Hset : forall tk (s1 : TokenRenderer),
    output_variant s s1 -> output_variant s (set_tokens tk s1)).
  { intros tk s1 (tk' & ls & tr & ->). exists tk, ls, tr. by destruct s. }
  unfold _MergeOrAddToken.
  destruct (negb (Py.nonempty text)); [apply output_variant_refl |].
  rewrite bind_gets.
  destruct (last (_tokens s)) as [prv |];
    [| apply Hset, output_variant_refl].
  case_bool_decide; [apply Hset, output_variant_refl |].
  case_bool_decide; [| apply Hset, output_variant_refl].
  destruct (String.eqb _ _); [apply Hset, output_variant_refl |].
  unfold bind at 1.
  pose proof (NewLine_output_variant attr None s) as Hnl.
  destruct (_NewLine attr None s) as [[] s1 | e s1]; cbn in *; [| done].
  by apply Hset.
Qed.

(** A property that does not look at [_level] and [_indent] is kept by
    [_SetIndent]; one that does not look at [_tokens], [_lines] and
    [_truncated] is kept by [_NewLine] and [_MergeOrAddToken]. *)
Lemma preserves_stack_variant P level indent_ hanging_indent_ :
  (forall s s', stack_variant s s' -> P s -> P s') ->
  preserves P (_SetIndent level indent_ hanging_indent_).
Proof. intros HP s Hs. eapply HP; [apply SetIndent_stack_variant | done]. Qed.

Lemma preserves_output_variant_NewLine P attr overflow :
  (forall s s', output_variant s s' -> P s -> P s') ->
  preserves P (_NewLine attr overflow).
Proof. intros HP s Hs. eapply HP; [apply NewLine_output_variant | done]. Qed.

Lemma preserves_output_variant_MergeOrAddToken P attr text t :
  (forall s s', output_variant s s' -> P s -> P s') ->
  preserves P (_MergeOrAddToken attr text t).
Proof.
  intros HP s Hs. eapply HP; [apply MergeOrAddToken_output_variant | done].
Qed.

(** ** The configuration *)

(** The three attributes of the configuration. *)
Global Instance configuration_Invariant attr (W H : Z) (compact : bool) :
  Invariant attr
    (fun s => _width s = W /\ _height s = H /\ _compact s = compact).
Proof.
  assert (Hstack : forall s s', stack_variant s s' ->
    _width s = W /\ _height s = H /\ _compact s = compact ->
    _width s' = W /\ _height s' = H /\ _compact s' = compact).
  { by intros s s' (lv & st & ->). }
  assert (Hout : forall s s', output_variant s s' ->
    _width s = W /\ _height s = H /\ _compact s = compact ->
    _width s' = W /\ _height s' = H /\ _compact s' = compact).
  { by intros s s' (tk & ls & tr & ->). }
  split; [split | |].
  - intros s s' (Hw & Hc & Hh & _). by rewrite Hw, Hc, Hh.
  - done.
  - intros. by apply preserves_output_variant_NewLine.
  - intros. by apply preserves_output_variant_MergeOrAddToken.
  - done.
  - intros. by apply preserves_stack_variant.
Qed.

(** X1. No sequence of events changes the configuration of the renderer:
    the width, the height limit and the compact flag are those of the
    constructor for the whole session, whether the events return or
    raise. *)
Theorem configuration_is_fixed (attr : ConsoleAttr) (evs : list Event)
    (s : TokenRenderer) :
  _width (state_of (run_events attr evs s)) = _width s
  /\ _height (state_of (run_events attr evs s)) = _height s
  /\ _compact (state_of (run_events attr evs s)) = _compact s.
Proof.
  by apply (kept_run_events attr
              (fun s' => _width s' = _width s /\ _height s' = _height s
                         /\ _compact s' = _compact s)).
Qed.

(** ** The cases of [_NewLine] *)

(** [_NewLine] does one of three things: nothing but empty the buffer (the
    renderer is truncated, or the buffer is empty in compact mode); append
    the buffer to the lines; or, at the height limit, append what [_Truncate]
    makes of the buffer.  In the last two cases the trailing white space of
    the line before is deleted first. *)
Lemma NewLine_cases attr overflow (s : TokenRenderer) :
  let lines0 := on_last delete_trailing_space (_lines s) in
  let skip :=
    _truncated s || (negb (bool_decide (_tokens s <> [])) && _compact s) in
  let at_height :=
    negb (_height s =? 0)
    && (Z.of_nat (length (_lines s))
        + (if bool_decide (_tokens s <> []) then 1 else 0) >=? _height s) in
  (skip = true /\ _NewLine attr overflow s = Ok tt (set_tokens [] s))
  \/ (skip = false /\ at_height = false
      /\ _NewLine attr overflow s
         = Ok tt (set_lines (lines0 ++ [_tokens s]) (set_tokens [] s)))
  \/ (skip = false /\ at_height = true
      /\ exists l,
           _Truncate attr (_tokens s) overflow
             (set_lines lines0 (set_tokens [] s))
           = Ok l (set_truncated true (set_lines lines0 (set_tokens [] s)))
           /\ _NewLine attr overflow s
              = Ok tt (set_lines (lines0 ++ [l])
                         (set_truncated true (set_tokens [] s)))).
Proof.
  unfold _NewLine, bind, modify, ret, gets.
  destruct s as [w f bl c fi ct h ip iw ind lv ls tk tr rw].
  cbn -[_Truncate].
  destruct (tr || negb (bool_decide (tk <> [])) && c) eqn:Hskip;
    cbn -[_Truncate]; [by left |].
  rewrite length_on_last.
  destruct (negb (h =? 0) && _) eqn:Hat; cbn -[_Truncate];
    [| right; left; done].
  right; right. split; [done |]. split; [done |].
  match goal with
  | |- context [_Truncate attr tk overflow ?st] =>
      destruct (Truncate_marker attr tk overflow st) as [l Hl]
  end.
  exists (l ++ [marker_token]). split; [exact Hl |]. by rewrite Hl.
Qed.

(** ** Trailing white space *)

Lemma delete_trailing_space_spec (l : Line) :
  exists rest,
    l = delete_trailing_space l ++ rest
    /\ Forall (fun t => Py.isspace (TOKEN_TEXT_INDEX t) = true) rest
    /\ trimmed (delete_trailing_space l).
Proof.
  induction l as [| t l (rest & Hl & Hrest & Htrim)]; [by exists [] |].
  cbn [delete_trailing_space].
  destruct (delete_trailing_space l) as [| t' l'] eqn:Hd.
  - destruct (Py.isspace (TOKEN_TEXT_INDEX t)) eqn:Hs.
    + exists (t :: rest). cbn in Hl. subst l.
      split; [done |]. split; [by apply Forall_cons_2 | done].
    + exists rest. cbn in Hl. subst l. split; [done |]. split; [done |].
      unfold trimmed. by cbn.
  - exists rest. split; [by rewrite Hl at 1 |]. split; [done |].
    unfold trimmed in *. by destruct l'.
Qed.

Lemma Forall_delete_trailing_space (Q : Run -> Prop) (l : Line) :
  Forall Q l -> Forall Q (delete_trailing_space l).
Proof.
  destruct (delete_trailing_space_spec l) as (rest & Hl & _).
  rewrite Hl at 1. by intros [? _]%Forall_app.
Qed.

Lemma Forall_on_last (Q : Line -> Prop) f (ls : list Line) :
  (forall l, Q l -> Q (f l)) -> Forall Q ls -> Forall Q (on_last f ls).
Proof.
  intros Hf. induction ls as [| l [| l' ls] IH]; intros H; [done | |].
  - apply Forall_cons_1 in H as [H _]. apply Forall_singleton. by apply Hf.
  - apply Forall_cons_1 in H as [H1 H2].
    change (on_last f (l :: l' :: ls)) with (l :: on_last f (l' :: ls)).
    apply Forall_cons_2; auto.
Qed.

(** ** Style markers never reach the output *)

Lemma plain_slice_to k (s : string) : plain s -> plain (Py.slice_to k s).
Proof. intros H. unfold Py.slice_to. destruct (k <? 0); by apply plain_take. Qed.

Lemma clean_line_snoc (l : Line) t (text : string) :
  clean_line l -> plain text -> clean_line (l ++ [(t, text)]).
Proof.
  intros Hl Ht. apply Forall_app. split; [done |]. by apply Forall_singleton.
Qed.

Lemma truncate_tokens_clean attr available (tokens : list Run) :
  clean_line tokens -> clean_line (truncate_tokens attr available tokens).
Proof.
  revert available. induction tokens as [| t ts IH]; intros available Hc;
    cbn [truncate_tokens]; [done |].
  apply Forall_cons_1 in Hc as [Ht Hts]. cbv zeta.
  destruct (_ <=? _).
  - apply Forall_singleton. cbn.
    destruct (_ =? 0); [done | by apply plain_slice_to].
  - apply Forall_cons_2; [done | by apply IH].
Qed.

Lemma Truncate_clean attr tokens overflow (s : TokenRenderer) :
  clean_line tokens ->
  exists l,
    _Truncate attr tokens overflow s = Ok l (set_truncated true s)
    /\ clean_line l.
Proof.
  intros Hc. unfold _Truncate, bind, modify, ret, gets.
  assert (Hm : forall l0, clean_line l0 -> clean_line (l0 ++ [marker_token])).
  { intros l0 H0. by apply clean_line_snoc. }
  destruct tokens as [| t ts];
    [eexists; split; [reflexivity | by apply Hm] |].
  destruct overflow as [[word available] |];
    [| eexists; split; [reflexivity | by apply Hm]].
  destruct (marker_width =? available);
    [eexists; split; [reflexivity | by apply Hm] |].
  destruct (marker_width + 1 <=? available);
    (eexists; split; [reflexivity | apply Hm]).
  - apply clean_line_snoc; [done |].
    apply plain_app; [done |]. apply plain_slice_to, UnFormat_is_plain.
  - by apply truncate_tokens_clean.
Qed.

Lemma clean_NewLine attr overflow : preserves clean (_NewLine attr overflow).
Proof.
  intros s [Hls Htk].
  assert (H0 : Forall clean_line (on_last delete_trailing_space (_lines s))).
  { apply Forall_on_last; [| done].
    intros l. apply Forall_delete_trailing_space. }
  destruct (NewLine_cases attr overflow s)
    as [(_ & ->) | [(_ & _ & ->) | (_ & _ & l & Hl & ->)]]; cbn.
  - split; [done | constructor].
  - split; [| constructor]. apply Forall_app. split; [done |].
    by apply Forall_singleton.
  - split; [| constructor]. apply Forall_app. split; [done |].
    apply Forall_singleton.
    destruct (Truncate_clean attr (_tokens s) overflow
                (set_lines (on_last delete_trailing_space (_lines s))
                   (set_tokens [] s)) Htk) as (l' & Hl' & Hc').
    rewrite Hl' in Hl. by injection Hl as <-.
Qed.

Lemma clean_set_tokens tokens (s : TokenRenderer) :
  clean s -> clean_line tokens -> clean (set_tokens tokens s).
Proof. by intros [Hls _] Htk. Qed.

Lemma clean_MergeOrAddToken attr text t :
  plain text -> preserves clean (_MergeOrAddToken attr text t).
Proof.
  intros Hp s Hs. pose proof Hs as [Hls Htk].
  unfold _MergeOrAddToken.
  destruct (negb (Py.nonempty text)); [done |].
  rewrite bind_gets.
  assert (Hrm : clean_line (removelast (_tokens s))).
  { destruct (_tokens s) as [| t0 ts] using rev_ind; [done |].
    rewrite removelast_last. by apply Forall_app in Htk as [? _]. }
  destruct (last (_tokens s)) as [prv |] eqn:Hl;
    [| apply clean_set_tokens; [done | by apply clean_line_snoc]].
  case_bool_decide;
    [apply clean_set_tokens; [done | by apply clean_line_snoc] |].
  case_bool_decide.
  - destruct (String.eqb _ _);
      [apply clean_set_tokens; [done | by apply clean_line_snoc] |].
    unfold bind at 1.
    pose proof (clean_NewLine attr None s Hs) as Hnl.
    destruct (_NewLine attr None s) as [[] s1 | e s1]; cbn in *; [| done].
    apply clean_set_tokens; [done |]. destruct Hnl as [_ Htk1].
    by apply clean_line_snoc.
  - apply clean_set_tokens; [done |]. apply clean_line_snoc; [done |].
    apply plain_app; [| done].
    apply last_Some in Hl as [l' Hl']. rewrite Hl' in Htk.
    by apply Forall_app in Htk as [_ [? _]%Forall_cons_1].
Qed.

Global Instance clean_Invariant attr : Invariant attr clean.
Proof.
  split; [split | |].
  - intros s s' (_ & _ & _ & _ & _ & _ & Hl & Ht & _) [H1 H2].
    split; congruence.
  - by intros e t s _ [H1 H2].
  - apply clean_NewLine.
  - apply clean_MergeOrAddToken.
  - by intros s [H1 H2].
  - intros. apply preserves_stack_variant.
    by intros s s' (lv & st & ->) [H1 H2].
Qed.

(** X2. Style markers never reach the output: whatever the texts of the
    events (malformed markers included, and whether the events return or
    raise), no run of a line or of the buffer holds the [CSI] character,
    provided none did before. *)
Theorem output_has_no_markers (attr : ConsoleAttr) (evs : list Event)
    (s : TokenRenderer) :
  clean s -> clean (state_of (run_events attr evs s)).
Proof. apply kept_run_events. exact _. Qed.

Lemma output_has_no_markers_witness :
  clean (state_of (run_events AsciiAttr.attr
                     [EvHeading 2 "NAME"; EvFill styled_text;
                      EvList 1 (Some "--flag=VALUE") false;
                      EvExample (String CSI "x"); EvFinish]
                     (TokenRenderer_init 20 0 true))).
Proof. apply output_has_no_markers. split; constructor. Defined.

(** ** Runs are merged *)

Lemma merged_app_l (l1 l2 : Line) : merged (l1 ++ l2) -> merged l1.
Proof.
  induction l1 as [| t l1 IH]; [done |].
  cbn [app merged]. intros (Ht & Hn & Hm). split; [done |].
  split; [| by apply IH]. destruct l1; [done |]. exact Hn.
Qed.

Lemma merged_snoc (l : Line) (x : Run) :
  merged l -> TOKEN_TEXT_INDEX x <> "" ->
  match last l with
  | Some p => TOKEN_TYPE_INDEX p <> TOKEN_TYPE_INDEX x
  | None => True
  end ->
  merged (l ++ [x]).
Proof.
  intros Hm Hx Hl. induction l as [| t l IH]; [by cbn |].
  cbn [app merged] in *. destruct Hm as (Ht & Hn & Hm).
  split; [done |]. destruct l as [| t' l].
  - cbn in *. done.
  - split; [exact Hn |]. apply IH; [done |].
    by rewrite last_cons_cons in Hl.
Qed.

Lemma merged_removelast (l : Line) : merged l -> merged (removelast l).
Proof.
  destruct l as [| t l] using rev_ind; [done |].
  rewrite removelast_last. apply merged_app_l.
Qed.

Lemma merged_delete_trailing_space (l : Line) :
  merged l -> merged (delete_trailing_space l).
Proof.
  destruct (delete_trailing_space_spec l) as (rest & Hl & _).
  rewrite Hl at 1. apply merged_app_l.
Qed.

(** Replacing the last run by one of the same token type. *)
Lemma merged_replace_last (l : Line) (p : Run) (text : string) :
  merged l -> last l = Some p -> text <> "" ->
  merged (removelast l ++ [(TOKEN_TYPE_INDEX p, text)]).
Proof.
  intros Hm Hl Ht. apply last_Some in Hl as [l' ->].
  rewrite removelast_last. apply merged_snoc; [by eapply merged_app_l | done |].
  clear Ht. induction l' as [| t l' IH]; [done |].
  cbn [app merged] in Hm. destruct Hm as (_ & Hn & Hm).
  destruct l' as [| t' l'].
  - cbn in *. done.
  - rewrite last_cons_cons. by apply IH.
Qed.

Lemma NewLine_tokens attr overflow (s s' : TokenRenderer) :
  _NewLine attr overflow s = Ok tt s' -> _tokens s' = [].
Proof.
  destruct (NewLine_spec attr overflow s) as (L & b & -> & _).
  by intros [= <-].
Qed.

Lemma merged_NewLine attr overflow :
  preserves merged_output (_NewLine attr overflow).
Proof.
  intros s [Htk Hls].
  destruct (NewLine_cases attr overflow s)
    as [(_ & ->) | [(Hskip & _ & ->) | (Hskip & _ & l & Hl & ->)]];
    unfold merged_output; cbn.
  - by split.
  - apply orb_false_iff in Hskip as [Htr _]. rewrite Htr in *.
    split; [done |]. apply Forall_app. split; [| by apply Forall_singleton].
    apply Forall_on_last; [apply merged_delete_trailing_space | done].
  - apply orb_false_iff in Hskip as [Htr _]. rewrite Htr in *.
    split; [done |]. rewrite removelast_last.
    apply Forall_on_last; [apply merged_delete_trailing_space | done].
Qed.

Lemma merged_MergeOrAddToken attr text t :
  preserves merged_output (_MergeOrAddToken attr text t).
Proof.
  intros s Hs. pose proof Hs as [Htk Hls].
  unfold _MergeOrAddToken.
  destruct (Py.nonempty text) eqn:Hn; cbn [negb]; [| done].
  apply nonempty_true in Hn. rewrite bind_gets.
  destruct (last (_tokens s)) as [prv |] eqn:Hl.
  2: { split; [| done]. cbn. apply merged_snoc; [done .. |]. by rewrite Hl. }
  case_bool_decide as Hne.
  { split; [| done]. cbn. apply merged_snoc; [done .. |]. by rewrite Hl. }
  assert (Ht : TOKEN_TYPE_INDEX prv = t).
  { destruct (decide (TOKEN_TYPE_INDEX prv = t)); [done | contradiction]. }
  subst t. case_bool_decide.
  - destruct (String.eqb _ _).
    { split; [| done]. cbn. by apply merged_replace_last. }
    unfold bind at 1.
    pose proof (merged_NewLine attr None s Hs) as Hnl.
    pose proof (NewLine_tokens attr None s) as Hnil.
    destruct (_NewLine attr None s) as [[] s1 | e s1]; cbn in *; [| done].
    destruct Hnl as [_ Hls1]. split; [| done]. cbn.
    by rewrite (Hnil s1 eq_refl).
  - split; [| done]. cbn. apply merged_replace_last; [done .. |].
    apply last_Some in Hl as [l' Hl']. rewrite Hl' in Htk.
    intros Hnil. destruct (TOKEN_TEXT_INDEX prv); [| done].
    rewrite append_empty_l in Hnil. done.
Qed.

Global Instance merged_output_Invariant attr : Invariant attr merged_output.
Proof.
  split; [split | |].
  - intros s s' (_ & _ & _ & _ & _ & _ & Hl & Ht & Hr) [H1 H2].
    unfold merged_output. by rewrite Hl, Ht, Hr.
  - by intros e t s _ [H1 H2].
  - apply merged_NewLine.
  - intros text t _. apply merged_MergeOrAddToken.
  - by intros s [H1 H2].
  - intros. apply preserves_stack_variant.
    by intros s s' (lv & st & ->) [H1 H2].
Qed.

(** X3. Runs are merged as far as they can be, in every session: after any
    sequence of events, in the buffer and in every line emitted (the line
    made by the truncation apart) no run is empty and no two consecutive
    runs have the same token type, provided this held before. *)
Theorem runs_are_merged (attr : ConsoleAttr) (evs : list Event)
    (s : TokenRenderer) :
  merged_output s -> merged_output (state_of (run_events attr evs s)).
Proof. apply kept_run_events. exact _. Qed.

Lemma runs_are_merged_witness :
  merged_output
    (state_of (run_events AsciiAttr.attr
                 [EvHeading 2 "NAME"; EvFill styled_text;
                  EvList 1 (Some "--flag=VALUE") false; EvFill "one two";
                  EvFinish]
                 (TokenRenderer_init 20 3 true))).
Proof. apply runs_are_merged. split; constructor. Defined.

(** ** The height limit *)

Lemma within_height_NewLine attr overflow :
  preserves within_height (_NewLine attr overflow).
Proof.
  intros s (Hc & Hh & Hlen).
  destruct (NewLine_cases attr overflow s)
    as [(_ & ->) | [(Hskip & Hat & ->) | (Hskip & Hat & l & Hl & ->)]];
    unfold within_height; cbn; [done | |].
  all: apply orb_false_iff in Hskip as [Htr Hemp]; rewrite Htr, Hc in *.
  all: rewrite andb_true_r in Hemp; apply negb_false_iff in Hemp.
  all: rewrite Hemp in Hat.
  all: assert (Hz : (_height s =? 0) = false) by (apply Z.eqb_neq; lia).
  all: rewrite Hz in Hat; cbn in Hat.
  all: split; [done |]; split; [done |].
  all: rewrite length_app, length_on_last; cbn.
  - rewrite Z.geb_leb in Hat. apply Z.leb_gt in Hat. lia.
  - rewrite Z.geb_leb in Hat. apply Z.leb_le in Hat. lia.
Qed.

Lemma within_height_set_tokens tokens (s : TokenRenderer) :
  within_height s -> within_height (set_tokens tokens s).
Proof. done. Qed.

Lemma within_height_MergeOrAddToken attr text t :
  preserves within_height (_MergeOrAddToken attr text t).
Proof.
  intros s Hs. unfold _MergeOrAddToken.
  destruct (negb (Py.nonempty text)); [done |].
  rewrite bind_gets.
  destruct (last (_tokens s)) as [prv |]; [| done].
  case_bool_decide; [done |]. case_bool_decide; [| done].
  destruct (String.eqb _ _); [done |].
  unfold bind at 1.
  pose proof (within_height_NewLine attr None s Hs) as Hnl.
  by destruct (_NewLine attr None s) as [[] s1 | e s1].
Qed.

Global Instance within_height_Invariant attr : Invariant attr within_height.
Proof.
  split; [split | |].
  - intros s s' (_ & Hc & Hh & _ & _ & _ & Hl & _ & Hr) H.
    unfold within_height. by rewrite Hc, Hh, Hl, Hr.
  - done.
  - apply within_height_NewLine.
  - intros text t _. apply within_height_MergeOrAddToken.
  - done.
  - intros. apply preserves_stack_variant.
    by intros s s' (lv & st & ->).
Qed.

(** X4. In compact mode a height limit [H > 0] is kept by every session:
    after any sequence of events the renderer holds fewer than [H] lines as
    long as it is not truncated and exactly [H] lines once it is, so never
    more than [H]. *)
Theorem compact_output_within_height (attr : ConsoleAttr) (evs : list Event)
    (s : TokenRenderer) :
  within_height s ->
  within_height (state_of (run_events attr evs s))
  /\ Z.of_nat (length (_lines (state_of (run_events attr evs s))))
     <= _height s.
Proof.
  intros Hs.
  pose proof (kept_run_events attr within_height evs s Hs) as H.
  split; [done |].
  pose proof (kept_run_events attr
                (fun s' => _width s' = _width s /\ _height s' = _height s
                           /\ _compact s' = _compact s)
                evs s ltac:(done)) as (_ & Hh & _).
  rewrite <- Hh. destruct H as (_ & _ & H).
  destruct (_truncated _); lia.
Qed.

Lemma compact_output_within_height_witness :
  within_height
    (state_of (run_events AsciiAttr.attr
                 [EvHeading 2 "NAME"; EvFill "one two three four five";
                  EvList 1 None false; EvFill "six"; EvFinish]
                 (TokenRenderer_init 9 3 true)))
  /\ Z.of_nat
       (length
          (_lines (state_of (run_events AsciiAttr.attr
                               [EvHeading 2 "NAME";
                                EvFill "one two three four five";
                                EvList 1 None false; EvFill "six"; EvFinish]
                               (TokenRenderer_init 9 3 true)))))
     <= _height (TokenRenderer_init 9 3 true).
Proof. apply compact_output_within_height. by cbv. Defined.

(** ** Trailing white space is deleted *)

Lemma trimmed_on_last (ls : list Line) :
  Forall trimmed (removelast ls) ->
  Forall trimmed (on_last delete_trailing_space ls).
Proof.
  destruct ls as [| l ls] using rev_ind; [done |].
  rewrite removelast_last, on_last_snoc. intros H.
  apply Forall_app. split; [done |]. apply Forall_singleton.
  by destruct (delete_trailing_space_spec l) as (rest & _ & _ & ?).
Qed.

Lemma trimmed_NewLine attr overflow :
  preserves trimmed_output (_NewLine attr overflow).
Proof.
  intros s Hs.
  destruct (NewLine_cases attr overflow s)
    as [(_ & ->) | [(_ & _ & ->) | (_ & _ & l & _ & ->)]];
    unfold trimmed_output; cbn; [done | |];
    rewrite removelast_last; by apply trimmed_on_last.
Qed.

Lemma trimmed_MergeOrAddToken attr text t :
  preserves trimmed_output (_MergeOrAddToken attr text t).
Proof.
  intros s Hs. unfold _MergeOrAddToken.
  destruct (negb (Py.nonempty text)); [done |].
  rewrite bind_gets.
  destruct (last (_tokens s)) as [prv |]; [| done].
  case_bool_decide; [done |]. case_bool_decide; [| done].
  destruct (String.eqb _ _); [done |].
  unfold bind at 1.
  pose proof (trimmed_NewLine attr None s Hs) as Hnl.
  by destruct (_NewLine attr None s) as [[] s1 | e s1].
Qed.

Global Instance trimmed_output_Invariant attr : Invariant attr trimmed_output.
Proof.
  split; [split | |].
  - intros s s' (_ & _ & _ & _ & _ & _ & Hl & _) H.
    unfold trimmed_output. by rewrite Hl.
  - done.
  - apply trimmed_NewLine.
  - intros text t _. apply trimmed_MergeOrAddToken.
  - done.
  - intros. apply preserves_stack_variant.
    by intros s s' (lv & st & ->).
Qed.

(** X5. Trailing white space is deleted from every line but the last: after
    any sequence of events, no line emitted before the last one ends in a
    run made of white space only, provided this held before. *)
Theorem lines_are_trimmed (attr : ConsoleAttr) (evs : list Event)
    (s : TokenRenderer) :
  trimmed_output s -> trimmed_output (state_of (run_events attr evs s)).
Proof. apply kept_run_events. exact _. Qed.

Lemma lines_are_trimmed_witness :
  trimmed_output
    (state_of (run_events AsciiAttr.attr
                 [EvTableLine "a" 0; EvTableLine "   " 2; EvExample "x = 1";
                  EvFill "one two"; EvFinish]
                 (TokenRenderer_init 20 0 false))).
Proof. apply lines_are_trimmed. constructor. Defined.

(** ** Stripping and writing style markers *)

Lemma length_UnFormat (text : string) :
  (String.length (_UnFormat text) <= String.length text)%nat.
Proof.
  cut ((String.length (_UnFormat text) <= String.length text)%nat
       /\ forall c, (String.length (_UnFormat (String c text))
                     <= S (String.length text))%nat).
  { by intros [H _]. }
  induction text as [| e rest [IH1 IH2]].
  - split; [done |]. intros c. cbn [_UnFormat].
    destruct (Ascii.eqb c CSI); cbn; lia.
  - split; [apply IH2 |]. intros c.
    change (_UnFormat (String c (String e rest)))
      with (if Ascii.eqb c CSI then _UnFormat rest
            else String c (_UnFormat (String e rest))).
    specialize (IH2 e). destruct (Ascii.eqb c CSI); cbn in *; lia.
Qed.

(** X6. [_UnFormat] strips every marker: its result holds no [CSI], so
    stripping it again changes nothing, and it is never longer than the
    text. *)
Theorem UnFormat_strips_every_marker (text : string) :
  plain (_UnFormat text)
  /\ _UnFormat (_UnFormat text) = _UnFormat text
  /\ (String.length (_UnFormat text) <= String.length text)%nat.
Proof.
  split; [apply UnFormat_is_plain |].
  split; [apply UnFormat_plain, UnFormat_is_plain | apply length_UnFormat].
Qed.

(** X7. [_UnFormat] goes through a concatenation whose first part has
    well-formed markers only: no marker of the first part takes a character
    of the second. *)
Theorem UnFormat_app (a b : string) :
  well_marked a = true ->
  _UnFormat (a +:+ b) = _UnFormat a +:+ _UnFormat b.
Proof.
  cut ((well_marked a = true ->
        _UnFormat (a +:+ b) = _UnFormat a +:+ _UnFormat b)
       /\ forall c, well_marked (String c a) = true ->
            _UnFormat (String c a +:+ b)
            = _UnFormat (String c a) +:+ _UnFormat b).
  { by intros [H _]. }
  induction a as [| e rest [IH1 IH2]].
  - split; [done |]. intros c. cbn [well_marked].
    rewrite append_cons, append_empty_l.
    destruct (Ascii.eqb c CSI) eqn:Hc; [done |]. intros _.
    cbn [_UnFormat]. rewrite Hc. by rewrite append_cons, append_empty_l.
  - split; [apply IH2 |]. intros c. cbn [well_marked].
    rewrite !append_cons.
    change (_UnFormat (String c (String e (rest +:+ b))))
      with (if Ascii.eqb c CSI then _UnFormat (rest +:+ b)
            else String c (_UnFormat (String e (rest +:+ b)))).
    change (_UnFormat (String c (String e rest)))
      with (if Ascii.eqb c CSI then _UnFormat rest
            else String c (_UnFormat (String e rest))).
    destruct (Ascii.eqb c CSI) eqn:Hc.
    + destruct (EMBELLISHMENTS e); [| done]. apply IH1.
    + intros Hwm. rewrite append_cons. f_equal.
      rewrite <- append_cons. by apply IH2.
Qed.

Lemma UnFormat_app_witness :
  _UnFormat (styled_text +:+ String CSI "Bmore")
  = _UnFormat styled_text +:+ _UnFormat (String CSI "Bmore").
Proof. apply UnFormat_app. reflexivity. Defined.

(** *** The font mask *)

Lemma font_bits :
  Z.lor (Z.lor (Z.shiftl 1 (attr_index BOLD)) (Z.shiftl 1 (attr_index CODE)))
    (Z.shiftl 1 (attr_index ITALIC)) = Z.ones 3.
Proof. reflexivity. Qed.

(** The letter [Font] writes for the font mask [f]. *)
Lemma Font_letter (f : Z) :
  let font := Z.land f (Z.ones 3) in
  EMBELLISHMENTS
    (if negb (Z.land font (Z.shiftl 1 (attr_index CODE)) =? 0) then "C"%char
     else if font =? Z.lor (Z.shiftl 1 (attr_index BOLD))
                       (Z.shiftl 1 (attr_index ITALIC)) then "Z"%char
     else if font =? Z.shiftl 1 (attr_index BOLD) then "B"%char
     else if font =? Z.shiftl 1 (attr_index ITALIC) then "I"%char
     else "N"%char)
  = Some (font_token f).
Proof.
  cbv zeta. unfold font_token.
  assert (Hbit : forall i, 0 <= i < 3 ->
            Z.testbit f i = Z.testbit (Z.land f (Z.ones 3)) i).
  { intros i Hi. rewrite Z.land_spec, Z.ones_spec_low by lia.
    by rewrite andb_true_r. }
  rewrite (Hbit (attr_index CODE)), (Hbit (attr_index BOLD)),
    (Hbit (attr_index ITALIC)) by (cbn; lia).
  assert (Hx : 0 <= Z.land f (Z.ones 3) < 8).
  { rewrite Z.land_ones by lia. apply (Z.mod_pos_bound f 8). lia. }
  remember (Z.land f (Z.ones 3)) as x eqn:Heqx. clear Heqx Hbit.
  assert (x = 0 \/ x = 1 \/ x = 2 \/ x = 3 \/ x = 4 \/ x = 5 \/ x = 6 \/ x = 7)
    as Hcases by lia.
  destruct Hcases as [-> | [-> | [-> | [-> | [-> | [-> | [-> | ->]]]]]]];
    reflexivity.
Qed.

Lemma Font_spec (a : option FontAttr) (s : TokenRenderer) :
  let f := match a with
           | None => 0
           | Some a => Z.lxor (_font s) (Z.shiftl 1 (attr_index a))
           end in
  exists e,
    Font a s = Ok (String CSI (String e "")) (set_font f s)
    /\ EMBELLISHMENTS e = Some (font_token f).
Proof.
  cbv zeta. unfold Font. rewrite font_bits.
  destruct a as [a |]; rewrite bind_modify, bind_gets;
    (eexists; split; [reflexivity | apply Font_letter]).
Qed.

(** X8. Toggling a font attribute twice brings the renderer back to where
    it was, and the marker returned by the second call is the one of the
    font as it was. *)
Theorem Font_toggle_twice (a : FontAttr) (s : TokenRenderer) :
  exists e,
    (Font (Some a) ;; Font (Some a)) s = Ok (String CSI (String e "")) s
    /\ EMBELLISHMENTS e = Some (font_token (_font s)).
Proof.
  destruct (Font_spec (Some a) s) as (e1 & Hrun1 & _).
  destruct (Font_spec (Some a)
              (set_font (Z.lxor (_font s) (Z.shiftl 1 (attr_index a))) s))
    as (e2 & Hrun2 & He2).
  cbv zeta in *. cbn [_font set_font] in *.
  rewrite Z.lxor_assoc, Z.lxor_nilpotent, Z.lxor_0_r in *.
  exists e2. split; [| done].
  rewrite (bind_Ok _ _ _ _ _ Hrun1), Hrun2. by destruct s.
Qed.

(** *** Markers in the text of [_AddToken] *)

Lemma MergeOrAddToken_returns attr text t (s : TokenRenderer) :
  exists s', _MergeOrAddToken attr text t s = Ok tt s'.
Proof.
  unfold _MergeOrAddToken.
  destruct (negb (Py.nonempty text)); [by eexists |].
  rewrite bind_gets.
  destruct (last (_tokens s)) as [prv |]; [| by eexists].
  case_bool_decide; [by eexists |]. case_bool_decide; [| by eexists].
  destruct (String.eqb _ _); [by eexists |].
  destruct (NewLine_spec attr None s) as (L & b & Hrun & _).
  rewrite (bind_Ok _ _ _ _ _ Hrun). by eexists.
Qed.

Lemma AddToken_loop_marker_error attr (seg rest : string) t
    (s : TokenRenderer) :
  match marker_error rest with
  | None => exists s', AddToken_loop attr seg rest t s = Ok tt s'
  | Some e => exists s', AddToken_loop attr seg rest t s = Raise e s'
  end.
Proof.
  cut ((forall seg t s,
          match marker_error rest with
          | None => exists s', AddToken_loop attr seg rest t s = Ok tt s'
          | Some e => exists s', AddToken_loop attr seg rest t s = Raise e s'
          end)
       /\ (forall c seg t s,
             match marker_error (String c rest) with
             | None =>
                 exists s', AddToken_loop attr seg (String c rest) t s
                            = Ok tt s'
             | Some e =>
                 exists s', AddToken_loop attr seg (String c rest) t s
                            = Raise e s'
             end)).
  { intros [H _]. apply H. }
  clear. induction rest as [| e rest [IH1 IH2]].
  - split; [intros; apply MergeOrAddToken_returns |].
    intros c seg t s. cbn [marker_error AddToken_loop].
    destruct (Ascii.eqb c CSI); [| apply MergeOrAddToken_returns].
    destruct (MergeOrAddToken_returns attr seg t s) as [s1 Hrun].
    rewrite (bind_Ok _ _ _ _ _ Hrun). by eexists.
  - split; [intros; apply IH2 |].
    intros c seg t s. cbn [marker_error AddToken_loop].
    destruct (Ascii.eqb c CSI); [| apply IH2].
    destruct (MergeOrAddToken_returns attr seg t s) as [s1 Hrun].
    rewrite (bind_Ok _ _ _ _ _ Hrun).
    destruct (EMBELLISHMENTS e) as [t' |]; [| by eexists].
    rewrite bind_modify. apply IH1.
Qed.

Lemma marker_error_plain (text : string) :
  plain text -> marker_error text = None.
Proof.
  induction text as [| c rest IH]; [done |].
  intros [Hc Hr]%plain_cons. cbn [marker_error]. rewrite Hc. by apply IH.
Qed.

(** X9. [_AddToken] raises exactly on a malformed marker: [IndexError] when
    the first malformed marker is a [CSI] that ends the text, [KeyError]
    when it is a [CSI] followed by a character that is not one of the five
    style letters; on every other text it returns. *)
Theorem AddToken_raises_on_malformed_marker (attr : ConsoleAttr)
    (text : string) (ot : option Token) (s : TokenRenderer) :
  match marker_error text with
  | None => exists s', _AddToken attr text ot s = Ok tt s'
  | Some e => exists s', _AddToken attr text ot s = Raise e s'
  end.
Proof.
  unfold _AddToken.
  assert (Hnote : exists s1,
    when (Py.nonempty text && negb (Py.isspace text))
      (modify (set_ignore_paragraph false)) s = Ok tt s1).
  { unfold when. destruct (_ && _); by eexists. }
  destruct Hnote as [s1 Hnote]. rewrite (bind_Ok _ _ _ _ _ Hnote).
  assert (Htype : exists t,
    match ot with Some t => ret t | None => gets _current_token_type end s1
    = Ok t s1).
  { destruct ot; by eexists. }
  destruct Htype as [t Htype]. rewrite (bind_Ok _ _ _ _ _ Htype).
  destruct (Py.contains CSI text) eqn:Hc; cbn [negb].
  - apply AddToken_loop_marker_error.
  - rewrite marker_error_plain by done. apply MergeOrAddToken_returns.
Qed.

(** *** The text of the buffer *)

Lemma line_text_app (l1 l2 : Line) :
  line_text (l1 ++ l2) = line_text l1 +:+ line_text l2.
Proof.
  induction l1 as [| t l1 IH]; [done |].
  cbn [app line_text fold_right]. fold (line_text (l1 ++ l2)).
  fold (line_text l1). by rewrite IH, append_assoc.
Qed.

Lemma line_text_merge_run tokens t (text : string) :
  line_text (merge_run tokens t text) = line_text tokens +:+ text.
Proof.
  unfold merge_run. destruct (Py.nonempty text) eqn:Hn; cbn [negb].
  2: { apply nonempty_false in Hn. subst. by rewrite append_empty_r. }
  assert (Hsnoc : forall l t0 (x : string),
            line_text (l ++ [(t0, x)]) = line_text l +:+ x).
  { intros l t0 x. rewrite line_text_app. cbn. by rewrite append_empty_r. }
  destruct (last tokens) as [[tp xp] |] eqn:Hl; [| apply Hsnoc].
  case_bool_decide; [apply Hsnoc |].
  apply last_Some in Hl as [l' ->]. rewrite removelast_last, !Hsnoc.
  cbn. by rewrite append_assoc.
Qed.

Lemma line_text_add_runs (seg rest : string) t cur tokens :
  well_marked rest = true ->
  line_text (fst (add_runs seg rest t cur tokens))
  = line_text tokens +:+ seg +:+ _UnFormat rest.
Proof.
  cut ((forall seg t cur tokens, well_marked rest = true ->
          line_text (fst (add_runs seg rest t cur tokens))
          = line_text tokens +:+ seg +:+ _UnFormat rest)
       /\ (forall c seg t cur tokens, well_marked (String c rest) = true ->
             line_text (fst (add_runs seg (String c rest) t cur tokens))
             = line_text tokens +:+ seg +:+ _UnFormat (String c rest))).
  { intros [H _]. apply H. }
  clear. induction rest as [| e rest [IH1 IH2]].
  - assert (Hnil : forall (seg : string) t cur tokens,
      line_text (fst (add_runs seg "" t cur tokens))
      = line_text tokens +:+ seg +:+ _UnFormat "").
    { intros. cbn [add_runs fst _UnFormat].
      by rewrite line_text_merge_run, append_empty_r. }
    split; [intros; apply Hnil |].
    intros c seg t cur tokens. cbn [add_runs well_marked _UnFormat].
    destruct (Ascii.eqb c CSI); [done |]. intros _.
    cbn [fst]. by rewrite line_text_merge_run.
  - split; [intros; by apply IH2 |].
    intros c seg t cur tokens. cbn [add_runs well_marked].
    change (_UnFormat (String c (String e rest)))
      with (if Ascii.eqb c CSI then _UnFormat rest
            else String c (_UnFormat (String e rest))).
    destruct (Ascii.eqb c CSI).
    + destruct (EMBELLISHMENTS e) as [t' |]; [| done]. intros Hwm.
      rewrite IH1 by done. rewrite line_text_merge_run.
      by rewrite append_empty_l, append_assoc.
    + intros Hwm.
      etrans; [exact (IH2 e (seg +:+ String c "") t cur tokens Hwm) |].
      change (String c (_UnFormat (String e rest)))
        with (String c "" +:+ _UnFormat (String e rest)).
      by rewrite !append_assoc.
Qed.

Lemma AddToken_marked_as attr (text : string) (ot : option Token)
    (s : TokenRenderer) :
  well_marked text = true ->
  default (_current_token_type s) ot <> Markdown_Section ->
  let r := add_runs "" text (default (_current_token_type s) ot)
             (_current_token_type s) (_tokens s) in
  _AddToken attr text ot s
  = Ok tt (set_tokens (fst r)
             (set_current_token_type (snd r) (note_content text s))).
Proof.
  intros Hwm Ht. cbv zeta. unfold _AddToken.
  assert (Hnote : when (Py.nonempty text && negb (Py.isspace text))
                    (modify (set_ignore_paragraph false)) s
                  = Ok tt (note_content text s)).
  { unfold note_content, when. by destruct (_ && _). }
  rewrite (bind_Ok _ _ _ _ _ Hnote).
  assert (Htype :
    match ot with Some t => ret t | None => gets _current_token_type end
      (note_content text s)
    = Ok (default (_current_token_type s) ot) (note_content text s)).
  { destruct ot; cbn; [done |]. unfold gets.
    by rewrite current_token_type_note_content. }
  rewrite (bind_Ok _ _ _ _ _ Htype).
  destruct (Py.contains CSI text) eqn:Hc; cbn [negb].
  - rewrite AddToken_loop_marked by done.
    by rewrite current_token_type_note_content, tokens_note_content.
  - rewrite add_runs_plain by done. cbn [fst snd]. rewrite append_empty_l.
    rewrite MergeOrAddToken_merge by done.
    rewrite tokens_note_content.
    replace (set_current_token_type (_current_token_type s)
               (note_content text s)) with (note_content text s); [done |].
    rewrite <- (current_token_type_note_content text s).
    by rewrite set_current_token_type_same.
Qed.

(** X10. [_AddToken] appends the text, its markers stripped, to the text of
    the buffer and emits no line, for every text with well-formed markers
    and every token type but the section tag. *)
Theorem AddToken_appends_stripped_text (attr : ConsoleAttr) (text : string)
    (ot : option Token) (s : TokenRenderer) :
  well_marked text = true ->
  default (_current_token_type s) ot <> Markdown_Section ->
  exists s',
    _AddToken attr text ot s = Ok tt s'
    /\ _lines s' = _lines s
    /\ line_text (_tokens s') = line_text (_tokens s) +:+ _UnFormat text.
Proof.
  intros Hwm Ht. eexists. split; [by apply AddToken_marked_as |].
  cbn. split; [apply lines_note_content |].
  rewrite line_text_add_runs by done. by rewrite append_empty_l.
Qed.

Lemma AddToken_appends_stripped_text_witness :
  exists s',
    _AddToken AsciiAttr.attr styled_text (Some Markdown_Definition)
      (TokenRenderer_init 80 0 true) = Ok tt s'
    /\ _lines s' = _lines (TokenRenderer_init 80 0 true)
    /\ line_text (_tokens s')
       = line_text (_tokens (TokenRenderer_init 80 0 true))
         +:+ _UnFormat styled_text.
Proof.
  apply AddToken_appends_stripped_text; [reflexivity | discriminate].
Defined.

(** X11. The marker [Font] returns selects the token type of the text that
    follows it: [_AddToken] on the marker and a text without markers makes
    the token type of the font mask the current one and merges the text
    into the buffer under it, emitting no line. *)
Theorem Font_marker_sets_token_type (attr : ConsoleAttr)
    (a : option FontAttr) (text : string) (s : TokenRenderer) :
  plain text ->
  exists marker s1 s2,
    Font a s = Ok marker s1
    /\ _AddToken attr (marker +:+ text) None s1 = Ok tt s2
    /\ _current_token_type s2 = font_token (_font s1)
    /\ _tokens s2 = merge_run (_tokens s) (font_token (_font s1)) text
    /\ _lines s2 = _lines s.
Proof.
  intros Hp. destruct (Font_spec a s) as (e & Hrun & He). cbv zeta in *.
  set (f := match a with Some a0 => _ | None => 0 end) in *.
  pose proof (EMBELLISHMENTS_not_Section _ _ He) as Hns.
  assert (Hnote : exists s1,
    when (Py.nonempty (String CSI (String e text))
          && negb (Py.isspace (String CSI (String e text))))
      (modify (set_ignore_paragraph false)) (set_font f s) = Ok tt s1
    /\ _tokens s1 = _tokens s /\ _lines s1 = _lines s).
  { unfold when. destruct (_ && _); by eexists. }
  destruct Hnote as (s1 & Hnote & Htk1 & Hls1).
  eexists _, _, _. split; [exact Hrun |].
  rewrite !append_cons, append_empty_l.
  unfold _AddToken.
  rewrite (bind_Ok _ _ _ _ _ Hnote), bind_gets.
  cbn [Py.contains negb orb]. rewrite Ascii.eqb_refl. cbn [orb negb].
  cbn [AddToken_loop]. rewrite Ascii.eqb_refl.
  change (_MergeOrAddToken attr "" (_current_token_type s1))
    with (@ret unit tt). rewrite bind_ret, He, bind_modify.
  rewrite AddToken_loop_marked by (done || by apply plain_well_marked).
  rewrite add_runs_plain by done. rewrite append_empty_l.
  split; [reflexivity |]. cbn. by rewrite Htk1, Hls1.
Qed.

Lemma Font_marker_sets_token_type_witness :
  exists marker s1 s2,
    Font (Some ITALIC) (TokenRenderer_init 80 0 true) = Ok marker s1
    /\ _AddToken AsciiAttr.attr (marker +:+ "text") None s1 = Ok tt s2
    /\ _current_token_type s2 = font_token (_font s1)
    /\ _tokens s2
       = merge_run (_tokens (TokenRenderer_init 80 0 true))
           (font_token (_font s1)) "text"
    /\ _lines s2 = _lines (TokenRenderer_init 80 0 true).
Proof. apply Font_marker_sets_token_type. reflexivity. Defined.

(** ** The indent stack is never read out of range *)

Lemma SetIndent_step_returns indent_ hanging_indent_ (s : TokenRenderer) :
  stack_ok s ->
  exists s' y,
    SetIndent_step indent_ hanging_indent_ s = Ok tt s'
    /\ _level s' = S (_level s)
    /\ _indent s' !! S (_level s) = Some y
    /\ y.(hanging_indent) + default 0 hanging_indent_ = y.(indent)
    /\ (length (_indent s) <= length (_indent s'))%nat.
Proof.
  unfold stack_ok. intros Hl.
  destruct s as [w f bl c fi ct h ip iw stack l ls tk tr rw]. simpl in *.
  destruct (lookup_lt_is_Some_2 stack l Hl) as [prev Hprev].
  set (stack' := if (length stack <=? S l)%nat
                 then stack ++ [Indent_init true] else stack).
  assert (Hlen : (S l < length stack')%nat).
  { subst stack'. destruct (length stack <=? S l)%nat eqn:E.
    - rewrite length_app. simpl. apply Nat.leb_le in E. lia.
    - apply Nat.leb_gt in E. lia. }
  assert (Hgrows : (length stack <= length stack')%nat).
  { subst stack'. destruct (length stack <=? S l)%nat; [| done].
    rewrite length_app. lia. }
  assert (Hprev' : stack' !! l = Some prev).
  { subst stack'. destruct (length stack <=? S l)%nat; [| done].
    by rewrite lookup_app_l. }
  destruct (lookup_lt_is_Some_2 stack' (S l) Hlen) as [x Hx].
  unfold SetIndent_step.
  rewrite bind_gets, bind_modify, !bind_gets.
  cbn [_level _indent set_level set_indent].
  assert (Hgrow :
    when (length stack <=? S l)%nat
      (modify (set_indent (stack ++ [Indent_init true])))
      (mkTokenRenderer w f bl c fi ct h ip iw stack (S l) ls tk tr rw)
    = Ok tt (mkTokenRenderer w f bl c fi ct h ip iw stack' (S l) ls tk tr rw)).
  { subst stack'. by destruct (length stack <=? S l)%nat. }
  rewrite (bind_Ok _ _ _ _ _ Hgrow).
  erewrite bind_Ok by (apply indent_at_Some; exact Hprev').
  assign_step. clear Hgrow.
  destruct ((1 <? S l)%nat && (hanging_indent prev =? indent prev));
    cbn [when]; [assign_step | rewrite bind_ret]; assign_step.
  all: destruct hanging_indent_ as [h0 |];
    [eexists _, _; split;
       [apply indent_assign_Some; cbn [_indent set_indent set_level];
        apply list_lookup_insert_eq; rewrite ?length_insert; eassumption |]
    | eexists _, _; split; [reflexivity |]].
  all: cbn [_level _indent set_level set_indent];
    rewrite ?list_insert_insert_eq; split; [done |];
    split; [by apply list_lookup_insert_eq |];
    split; [cbn; lia |]; by rewrite length_insert.
Qed.

Lemma SetIndent_loop_returns turns indent_ hanging_indent_
    (s : TokenRenderer) :
  stack_ok s ->
  exists s',
    SetIndent_loop (S turns) indent_ hanging_indent_ s = Ok tt s'
    /\ _level s' = (S turns + _level s)%nat
    /\ (exists y, _indent s' !! _level s' = Some y
                  /\ y.(hanging_indent) + default 0 hanging_indent_
                     = y.(indent))
    /\ (length (_indent s) <= length (_indent s'))%nat.
Proof.
  revert s. induction turns as [| n IH]; intros s Hs.
  - destruct (SetIndent_step_returns indent_ hanging_indent_ s Hs)
      as (s1 & y & Hrun & Hl1 & Hy & Hh & Hlen).
    exists s1. cbn [SetIndent_loop]. rewrite (bind_Ok _ _ _ _ _ Hrun).
    split; [done |]. split; [done |]. split; [| done].
    exists y. by rewrite Hl1.
  - destruct (SetIndent_step_returns indent_ hanging_indent_ s Hs)
      as (s1 & y & Hrun & Hl1 & Hy & _ & Hlen).
    assert (Hs1 : stack_ok s1).
    { unfold stack_ok. rewrite Hl1. by eapply lookup_lt_Some. }
    destruct (IH s1 Hs1) as (s' & Hrun' & Hl' & Hy' & Hlen').
    exists s'. change (SetIndent_loop (S (S n)) indent_ hanging_indent_)
      with (SetIndent_step indent_ hanging_indent_ ;;
            SetIndent_loop (S n) indent_ hanging_indent_).
    rewrite (bind_Ok _ _ _ _ _ Hrun).
    split; [done |]. split; [lia |]. split; [done | lia].
Qed.

Lemma SetIndent_returns level indent_ hanging_indent_ (s : TokenRenderer) :
  stack_ok s ->
  exists s',
    _SetIndent level indent_ hanging_indent_ s = Ok tt s'
    /\ _level s' = level
    /\ (exists y, _indent s' !! level = Some y
                  /\ (is_Some hanging_indent_ \/ (_level s < level)%nat ->
                      y.(hanging_indent) + default 0 hanging_indent_
                      = y.(indent)))
    /\ (length (_indent s) <= length (_indent s'))%nat.
Proof.
  intros Hs. unfold _SetIndent. rewrite bind_gets.
  destruct (_level s <? level)%nat eqn:Hlt.
  - apply Nat.ltb_lt in Hlt.
    destruct (SetIndent_loop_returns (level - _level s - 1) indent_
                hanging_indent_ s Hs) as (s' & Hrun & Hl & (y & Hy & Hh) & Hlen).
    replace (S (level - _level s - 1)) with (level - _level s)%nat in * by lia.
    exists s'. split; [done |].
    assert (Hl' : _level s' = level) by lia.
    split; [done |]. split; [| done]. exists y. by rewrite <- Hl'.
  - apply Nat.ltb_ge in Hlt. unfold stack_ok in Hs.
    rewrite bind_modify.
    destruct (lookup_lt_is_Some_2 (_indent s) level ltac:(lia)) as [x Hx].
    destruct hanging_indent_ as [h |].
    + erewrite bind_Ok by (by apply indent_at_Some).
      erewrite indent_assign_Some by done.
      eexists. split; [reflexivity |]. cbn. split; [done |].
      split; [| by rewrite length_insert].
      eexists. split; [apply list_lookup_insert_eq; by eapply lookup_lt_Some |].
      done.
    + eexists. split; [reflexivity |]. cbn. split; [done |]. split; [| done].
      exists x. split; [done |]. intros [[? [=]] | ?]. lia.
Qed.

(** X12. [_SetIndent] never reads the indent stack out of range: called with
    any level, indent and hanging indent on a renderer whose current level
    has an entry in the stack, it returns, the current level is the one
    asked for and has an entry, and the stack has not shrunk. *)
Theorem SetIndent_keeps_stack (level : nat) (indent_ : Z)
    (hanging_indent_ : option Z) (s : TokenRenderer) :
  stack_ok s ->
  exists s',
    _SetIndent level indent_ hanging_indent_ s = Ok tt s'
    /\ _level s' = level
    /\ stack_ok s'
    /\ (length (_indent s) <= length (_indent s'))%nat.
Proof.
  intros Hs.
  destruct (SetIndent_returns level indent_ hanging_indent_ s Hs)
    as (s' & Hrun & Hl & (y & Hy & _) & Hlen).
  exists s'. split; [done |]. split; [done |]. split; [| done].
  unfold stack_ok. rewrite Hl. by eapply lookup_lt_Some.
Qed.

Lemma SetIndent_keeps_stack_witness :
  exists s',
    _SetIndent 3 (-2) (Some 7) (TokenRenderer_init 80 0 true) = Ok tt s'
    /\ _level s' = 3%nat
    /\ stack_ok s'
    /\ (length (_indent (TokenRenderer_init 80 0 true))
        <= length (_indent s'))%nat.
Proof. apply SetIndent_keeps_stack. unfold stack_ok. cbn. lia. Defined.

(** X13. [_SetIndent] is idempotent: a second call with the same arguments
    leaves the renderer as the first call left it, so the items of one
    list, which repeat the call, all get the same indentation. *)
Theorem SetIndent_twice (level : nat) (indent_ : Z)
    (hanging_indent_ : option Z) (s : TokenRenderer) :
  stack_ok s ->
  exists s',
    _SetIndent level indent_ hanging_indent_ s = Ok tt s'
    /\ _SetIndent level indent_ hanging_indent_ s' = Ok tt s'.
Proof.
  intros Hs.
  destruct (SetIndent_returns level indent_ hanging_indent_ s Hs)
    as (s' & Hrun & Hl & (y & Hy & Hh) & Hlen).
  exists s'. split; [done |].
  unfold _SetIndent. rewrite bind_gets, Hl, Nat.ltb_irrefl, bind_modify.
  assert (Hsame : set_level level s' = s') by (destruct s'; cbn in *; by subst).
  rewrite Hsame. destruct hanging_indent_ as [h |]; [| done].
  erewrite bind_Ok by (by apply indent_at_Some).
  erewrite indent_assign_Some by done.
  assert (Hh' : hanging_indent y + h = indent y).
  { apply Hh. left. by eexists. }
  rewrite Hh'.
  replace (with_indent (indent y) y) with y by (by destruct y).
  rewrite list_insert_id by done. by destruct s'.
Qed.

Lemma SetIndent_twice_witness :
  exists s',
    _SetIndent 2 4 (Some 3) (TokenRenderer_init 80 0 true) = Ok tt s'
    /\ _SetIndent 2 4 (Some 3) s' = Ok tt s'.
Proof. apply SetIndent_twice. unfold stack_ok. cbn. lia. Defined.

(** ** Indices and slices *)

Lemma length_append (a b : string) :
  String.length (a +:+ b) = (String.length a + String.length b)%nat.
Proof. induction a as [| c a IH]; [done |]. rewrite append_cons. cbn. lia. Qed.

Lemma drop_append (a b : string) : Py.drop (String.length a) (a +:+ b) = b.
Proof. induction a as [| c a IH]; [by destruct b |]. by rewrite append_cons. Qed.

Lemma take_append (a b : string) : Py.take (String.length a) (a +:+ b) = a.
Proof.
  induction a as [| c a IH]; [by destruct b |].
  rewrite append_cons. cbn. by rewrite IH.
Qed.

Lemma get_append (a b : string) (k : nat) :
  String.get (String.length a + k) (a +:+ b) = String.get k b.
Proof. induction a as [| c a IH]; [done |]. by rewrite append_cons. Qed.

Lemma get_append_cons (a : string) c (b : string) :
  String.get (String.length a) (a +:+ String c b) = Some c.
Proof.
  pose proof (get_append a (String c b) 0) as H.
  by rewrite Nat.add_0_r in H.
Qed.

Lemma get_drop_add (s : string) (i k : nat) :
  String.get k (Py.drop i s) = String.get (i + k) s.
Proof.
  revert s. induction i as [| i IH]; intros [| c s]; by cbn.
Qed.

(** ** Skipping spaces *)

Lemma SkipSpace_from_spec (rest : string) (index : nat) :
  (index <= SkipSpace_from rest index)%nat
  /\ (forall k, (index <= k < SkipSpace_from rest index)%nat ->
        String.get (k - index) rest = Some " "%char)
  /\ String.get (SkipSpace_from rest index - index) rest <> Some " "%char.
Proof.
  revert index. induction rest as [| c rest IH]; intros index;
    cbn [SkipSpace_from].
  - split; [done |]. split; [lia | done].
  - destruct (Ascii.eqb_spec c " ") as [-> | Hc]; cbn [negb].
    + destruct (IH (S index)) as (Hle & Hsp & Hstop).
      split; [lia |]. split.
      * intros k Hk. destruct (decide (k = index)) as [-> | Hne].
        { by rewrite Nat.sub_diag. }
        replace (k - index)%nat with (S (k - S index)) by lia.
        cbn. apply Hsp. lia.
      * replace (SkipSpace_from rest (S index) - index)%nat
          with (S (SkipSpace_from rest (S index) - S index)) by lia.
        exact Hstop.
    + split; [done |]. split; [lia |]. rewrite Nat.sub_diag. cbn. congruence.
Qed.

(** X14. [_SkipSpace] returns the index of the first character at or after
    [index] that is not a space, the end of the line if there is none, and
    [index] itself when it is past the end: the result is not below [index],
    every character from [index] up to it is a space, and the character at
    it, if any, is not. *)
Theorem SkipSpace_skips_spaces (line : string) (index : nat) :
  (index <= _SkipSpace line index)%nat
  /\ (forall k, (index <= k < _SkipSpace line index)%nat ->
        String.get k line = Some " "%char)
  /\ String.get (_SkipSpace line index) line <> Some " "%char.
Proof.
  unfold _SkipSpace.
  destruct (SkipSpace_from_spec (Py.drop index line) index)
    as (Hle & Hsp & Hstop).
  split; [done |]. split.
  - intros k Hk. specialize (Hsp k Hk). rewrite get_drop_add in Hsp.
    by replace (index + (k - index))%nat with k in Hsp by lia.
  - rewrite get_drop_add in Hstop.
    by replace (index + (SkipSpace_from (Py.drop index line) index - index))%nat
      with (SkipSpace_from (Py.drop index line) index) in Hstop by lia.
Qed.

(** ** Skipping a bracket group *)

Section Nesting.

Context (attr : ConsoleAttr).

(** Inside a group, characters that are no brackets and no [CSI] are
    skipped one by one. *)
Lemma SkipNest_loop_unnested (body : string) :
  forall (line pre post : string) fuel nest,
    Py.all_chars unnested_char body = true ->
    line = pre +:+ body +:+ post ->
    SkipNest_loop attr (String.length body + fuel) line (String.length pre) nest
    = SkipNest_loop attr fuel line (String.length pre + String.length body)
        nest.
Proof.
  induction body as [| c body IH]; intros line pre post fuel nest Hb Hline.
  - cbn. by rewrite Nat.add_0_r.
  - cbn [Py.all_chars] in Hb. apply andb_true_iff in Hb as [Hc Hb].
    unfold unnested_char in Hc.
    apply andb_true_iff in Hc as [[Ho Hcl]%andb_true_iff Hcsi].
    apply negb_true_iff in Ho, Hcl, Hcsi.
    cbn [String.length Nat.add SkipNest_loop].
    assert (Hget : String.get (String.length pre) line = Some c).
    { rewrite Hline, append_cons. apply get_append_cons. }
    rewrite Hget, Ho, Hcl, Hcsi.
    specialize (IH line (pre +:+ String c "") post fuel nest Hb).
    rewrite length_append in IH. cbn [String.length] in IH.
    replace (String.length pre + 1)%nat with (S (String.length pre)) in IH
      by lia.
    rewrite IH.
    + f_equal. lia.
    + rewrite Hline. by rewrite append_assoc.
Qed.

(** X15. [_SkipNest] skips a bracket group: started on an opening bracket
    that is followed by characters that are no brackets and no [CSI] and
    then by a closing bracket (of either kind), it returns the index just
    after the closing bracket. *)
Theorem SkipNest_skips_group (pre body post : string) (o c : ascii) :
  Py.contains o open_chars = true ->
  Py.contains c close_chars = true ->
  Py.all_chars unnested_char body = true ->
  _SkipNest attr (pre +:+ String o body +:+ String c post) (String.length pre)
  = (String.length pre + String.length body + 2)%nat.
Proof.
  intros Ho Hc Hb.
  set (line := pre +:+ String o body +:+ String c post).
  assert (Hc' : Py.contains c open_chars = false).
  { unfold close_chars, open_chars in *. cbn in *.
    destruct (Ascii.eqb_spec c ")") as [-> |]; [done |].
    destruct (Ascii.eqb_spec c "]") as [-> |]; [done | done]. }
  unfold _SkipNest.
  rewrite (SkipNest_loop_enough attr _
             (S (String.length body + S (String.length post))));
    [| lia |].
  2: { subst line. rewrite !length_append. cbn. lia. }
  cbn [SkipNest_loop].
  assert (Hline1 : line = pre +:+ String o (body +:+ String c post)).
  { subst line. by rewrite append_cons. }
  assert (Hget1 : String.get (String.length pre) line = Some o).
  { rewrite Hline1. apply get_append_cons. }
  rewrite Hget1, Ho.
  assert (Hline2 : line = (pre +:+ String o "") +:+ body +:+ String c post).
  { rewrite Hline1. by rewrite append_assoc. }
  pose proof (SkipNest_loop_unnested body line (pre +:+ String o "")
                (String c post) (S (String.length post)) (0 + 1) Hb Hline2)
    as Hbody.
  rewrite length_append in Hbody. cbn [String.length] in Hbody.
  replace (String.length pre + 1)%nat with (S (String.length pre)) in Hbody
    by lia.
  rewrite Hbody. cbn [SkipNest_loop].
  assert (Hline3 : line = ((pre +:+ String o "") +:+ body) +:+ String c post).
  { rewrite Hline2. symmetry. apply append_assoc. }
  assert (Hget : String.get (S (String.length pre) + String.length body) line
                 = Some c).
  { rewrite Hline3 at 1.
    replace (S (String.length pre) + String.length body)%nat
      with (String.length ((pre +:+ String o "") +:+ body)).
    - apply get_append_cons.
    - rewrite !length_append. cbn. lia. }
  rewrite Hget, Hc', Hc. change (0 + 1 - 1 <=? 0) with true. cbn. lia.
Qed.

End Nesting.

Lemma SkipNest_skips_group_witness :
  _SkipNest AsciiAttr.attr ("cmd " +:+ String "[" "--a | --b" +:+ String ")" " x")
    (String.length "cmd ")
  = (String.length "cmd " + String.length "--a | --b" + 2)%nat.
Proof. apply SkipNest_skips_group; reflexivity. Defined.

(** ** The groups of a line of plain words *)

Lemma take_drop (n : nat) (s : string) : Py.take n s +:+ Py.drop n s = s.
Proof.
  revert s. induction n as [| n IH]; intros [| c s]; cbn; try done.
  rewrite append_cons. by rewrite IH.
Qed.

Lemma all_chars_drop p (n : nat) (s : string) :
  Py.all_chars p s = true -> Py.all_chars p (Py.drop n s) = true.
Proof.
  revert s. induction n as [| n IH]; intros [| c s]; cbn; try done.
  intros [_ H]%andb_true_iff. by apply IH.
Qed.

(** The spaces skipped from the start of [rest]. *)
Lemma SkipSpace_from_leading (rest : string) (index : nat) :
  exists n,
    SkipSpace_from rest index = (index + n)%nat
    /\ (n <= String.length rest)%nat
    /\ Py.take n rest = Py.repeat_char " " n
    /\ starts_word (Py.drop n rest).
Proof.
  revert index. induction rest as [| c rest IH]; intros index;
    cbn [SkipSpace_from].
  - exists 0%nat. by rewrite Nat.add_0_r.
  - destruct (Ascii.eqb_spec c " ") as [-> | Hc]; cbn [negb].
    + destruct (IH (S index)) as (n & Hn & Hle & Htake & Hstart).
      exists (S n). cbn. rewrite Htake.
      split; [lia |]. split; [lia | done].
    + exists 0%nat. rewrite Nat.add_0_r. cbn. split; [done |].
      split; [lia | done].
Qed.

Lemma split_from_spaces (n : nat) (rest : string) :
  Py.split_from "" (Py.repeat_char " " n +:+ rest) = Py.split_from "" rest.
Proof.
  induction n as [| n IH]; [done |].
  cbn [Py.repeat_char]. rewrite append_cons. cbn [Py.split_from]. exact IH.
Qed.

Lemma length_repeat_char c (n : nat) :
  String.length (Py.repeat_char c n) = n.
Proof. induction n as [| n IH]; [done |]. cbn. by rewrite IH. Qed.

Lemma Synopsis_pipe_no_pipe (line : string) (i : nat) :
  match String.get i line with
  | Some c => Ascii.eqb c "|" = false
  | None => True
  end ->
  Synopsis_pipe line i = inr false.
Proof.
  intros H. unfold Synopsis_pipe, Py.len.
  destruct (Z.of_nat i <=? _) eqn:Hi; [| done].
  apply Z.leb_le in Hi.
  destruct (String.get i line) as [c |] eqn:Hg; [by rewrite H |].
  apply get_None in Hg. lia.
Qed.

Lemma word_char_spec (c : ascii) :
  words_char c = true -> c <> " "%char ->
  Py.ch_isspace c = false /\ Py.contains c open_chars = false
  /\ Ascii.eqb c CSI = false /\ Ascii.eqb c "|" = false.
Proof.
  unfold words_char, word_char. intros H Hc.
  destruct (Ascii.eqb c " ") eqn:E;
    [apply Ascii.eqb_eq in E; contradiction |].
  cbn [orb] in H.
  apply andb_true_iff in H as [[[H1 H2]%andb_true_iff H3]%andb_true_iff H4].
  apply negb_true_iff in H1, H2, H3, H4. done.
Qed.

Section Groups.

Context (attr : ConsoleAttr).

(** On plain words the loop of [Synopsis] reads the line as [split] does:
    [pre] has been read, [word] is the group in progress, [rest] is still to
    be read. *)
Lemma Synopsis_loop_words (line : string) (fuel : nat) :
  forall (rest pre word : string) (groups : list string),
    line = pre +:+ word +:+ rest ->
    Py.all_chars words_char rest = true ->
    (word = "" -> starts_word rest) ->
    (String.length rest <= fuel)%nat ->
    exists r,
      Synopsis_loop attr fuel line (String.length pre + String.length word)
        (String.length pre) groups = inr r
      /\ groups_at_end line r = groups ++ Py.split_from word rest.
Proof.
  assert (Hend : forall (pre word : string) groups,
    line = pre +:+ word +:+ "" ->
    groups_at_end line (String.length pre, groups)
    = groups ++ Py.split_from word "").
  { intros pre word groups Hline. unfold groups_at_end. cbn [fst snd].
    rewrite append_empty_r in Hline.
    assert (Hlen : String.length line
                   = (String.length pre + String.length word)%nat).
    { by rewrite Hline, length_append. }
    assert (Hdrop : Py.drop (String.length pre) line = word).
    { by rewrite Hline, drop_append. }
    rewrite Hlen, Hdrop. cbn [Py.split_from].
    destruct word as [| c w]; cbn [String.length Py.nonempty].
    - rewrite Nat.add_0_r, Nat.ltb_irrefl. by rewrite app_nil_r.
    - destruct (Nat.ltb_spec (String.length pre)
                  (String.length pre + S (String.length w))); [done | lia]. }
  induction fuel as [| n IH]; intros rest pre word groups Hline Hrest Hw Hlen.
  - destruct rest; [| cbn in Hlen; lia].
    eexists. split; [reflexivity |]. by apply Hend.
  - destruct rest as [| c rest].
    { assert (Hg : String.get (String.length pre + String.length word) line
                   = None).
      { apply get_None. rewrite Hline, !length_append. cbn. lia. }
      cbn [Synopsis_loop]. rewrite Hg.
      eexists. split; [reflexivity |]. by apply Hend. }
    assert (Hline' : line = (pre +:+ word) +:+ String c rest).
    { rewrite Hline. symmetry. apply append_assoc. }
    assert (Hg : String.get (String.length pre + String.length word) line
                 = Some c).
    { rewrite Hline'. rewrite <- length_append. apply get_append_cons. }
    cbn [Synopsis_loop]. rewrite Hg.
    cbn [Py.all_chars] in Hrest. apply andb_true_iff in Hrest as [Hc Hrest].
    destruct (Ascii.eqb_spec c " ") as [-> | Hne].
    + (* a space ends the group in progress *)
      assert (Hword : word <> "").
      { intros ->. by specialize (Hw eq_refl). }
      set (i := (String.length pre + String.length word)%nat) in *.
      assert (Hdrop : Py.drop i line = String " " rest).
      { rewrite Hline'. subst i. rewrite <- length_append. apply drop_append. }
      destruct (SkipSpace_from_leading rest (S i))
        as (k & Hk0 & Hk & Htake & Hstart).
      assert (Hskip : _SkipSpace line i = (S i + k)%nat).
      { unfold _SkipSpace. rewrite Hdrop. exact Hk0. }
      rewrite Hskip.
      set (pre' := ((pre +:+ word) +:+ " ") +:+ Py.repeat_char " " k).
      assert (Hline'' : line = pre' +:+ "" +:+ Py.drop k rest).
      { rewrite Hline'. subst pre'. rewrite append_empty_l.
        rewrite <- (take_drop k rest) at 1. rewrite Htake.
        change (String " " (Py.repeat_char " " k +:+ Py.drop k rest))
          with (" " +:+ Py.repeat_char " " k +:+ Py.drop k rest).
        by rewrite <- !append_assoc. }
      assert (Hpre' : String.length pre' = (S i + k)%nat).
      { subst pre' i. rewrite !length_append, length_repeat_char. cbn. lia. }
      assert (Hpipe : Synopsis_pipe line (S i + k) = inr false).
      { apply Synopsis_pipe_no_pipe.
        pose proof (all_chars_drop words_char k rest Hrest) as Hall.
        assert (Hgk : String.get (S i + k) line
                      = String.get 0 (Py.drop k rest)).
        { rewrite <- Hpre', Hline'', append_empty_l.
          replace (String.length pre') with (String.length pre' + 0)%nat
            by lia.
          apply get_append. }
        rewrite Hgk.
        destruct (Py.drop k rest) as [| d rest'']; [done |].
        cbn in Hall, Hstart |- *.
        apply andb_true_iff in Hall as [Hd' _].
        by destruct (word_char_spec d Hd' Hstart) as (_ & _ & _ & ?). }
      rewrite Hpipe.
      assert (Hslice : Py.slice (String.length pre) i line = word).
      { unfold Py.slice. rewrite Hline, drop_append. subst i.
        replace (String.length pre + String.length word - String.length pre)%nat
          with (String.length word) by lia.
        apply take_append. }
      rewrite Hslice.
      destruct (IH (Py.drop k rest) pre' "" (groups ++ [word]) Hline''
                  (all_chars_drop _ _ _ Hrest) (fun _ => Hstart))
        as (r & Hrun & Hr).
      { pose proof (length_drop k rest) as Hl. cbn in Hlen. lia. }
      rewrite Hpre' in Hrun. cbn [String.length] in Hrun.
      rewrite Nat.add_0_r in Hrun.
      exists r. split; [exact Hrun |]. rewrite Hr.
      cbn [Py.split_from]. change (Py.ch_isspace " ") with true. cbv iota.
      apply nonempty_true in Hword. rewrite Hword.
      rewrite <- (take_drop k rest) at 2. rewrite Htake, split_from_spaces.
      by rewrite <- app_assoc.
    + (* any other character goes on with the group *)
      destruct (word_char_spec c Hc Hne) as (Hsp & Hop & Hcsi & _).
      rewrite Hop, Hcsi.
      destruct (IH rest pre (word +:+ String c "") groups) as (r & Hrun & Hr).
      * rewrite Hline. by rewrite append_assoc.
      * done.
      * intros Hnil. destruct word; discriminate Hnil.
      * cbn in Hlen. lia.
      * rewrite length_append in Hrun. cbn [String.length] in Hrun.
        replace (String.length pre + (String.length word + 1))%nat
          with (S (String.length pre + String.length word)) in Hrun by lia.
        exists r. split; [exact Hrun |]. rewrite Hr.
        cbn [Py.split_from]. by rewrite Hsp.
Qed.

(** X16. On a line of plain words (no white space but spaces, no opening
    bracket, no [CSI], no pipe) the groups of [Synopsis] are the words
    [split] gives: adjacent spaces are collapsed and spaces at either end
    are dropped. *)
Theorem Synopsis_groups_of_words (line : string) :
  Py.all_chars words_char line = true ->
  Synopsis_groups attr line = inr (Py.split line).
Proof.
  intros Hline. unfold Synopsis_groups, _SkipSpace. cbn [Py.drop].
  destruct (SkipSpace_from_leading line 0) as (k & -> & Hk & Htake & Hstart).
  cbn [Nat.add].
  destruct (Synopsis_loop_words line (String.length line) (Py.drop k line)
              (Py.repeat_char " " k) "" [])
    as ([beg groups] & Hrun & Hr).
  - rewrite append_empty_l, <- Htake. symmetry. apply take_drop.
  - by apply all_chars_drop.
  - done.
  - rewrite length_drop. lia.
  - rewrite length_repeat_char in Hrun. cbn [String.length] in Hrun.
    rewrite Nat.add_0_r in Hrun. rewrite Hrun. f_equal.
    unfold groups_at_end in Hr. cbn [fst snd] in Hr. rewrite Hr.
    cbn [app]. unfold Py.split.
    rewrite <- (take_drop k line) at 2. by rewrite Htake, split_from_spaces.
Qed.

End Groups.

Lemma Synopsis_groups_of_words_witness :
  Synopsis_groups AsciiAttr.attr "  gcloud   compute instances  list "
  = inr (Py.split "  gcloud   compute instances  list ").
Proof. apply Synopsis_groups_of_words. reflexivity. Defined.

(** ** The pipe at the end of a synopsis line *)

Lemma SkipSpace_from_spaces (k : nat) (rest : string) (index : nat) :
  SkipSpace_from (Py.repeat_char " " k +:+ rest) index
  = SkipSpace_from rest (index + k).
Proof.
  revert index. induction k as [| k IH]; intros index.
  - by rewrite Nat.add_0_r.
  - cbn [Py.repeat_char]. rewrite append_cons. cbn [SkipSpace_from].
    change (negb (Ascii.eqb " " " ")) with false. cbv iota.
    rewrite IH. f_equal. lia.
Qed.

Lemma SkipSpace_from_word (rest : string) (index : nat) :
  rest <> "" -> starts_word rest -> SkipSpace_from rest index = index.
Proof.
  destruct rest as [| c rest]; [done |]. intros _ Hc. cbn in *.
  destruct (Ascii.eqb_spec c " "); [contradiction | done].
Qed.

(** The test on the pipe reads past the end of the line when the pipe is the
    last character. *)
Lemma Synopsis_pipe_at_end (pre : string) :
  Synopsis_pipe (pre +:+ "|") (String.length pre) = inl IndexError.
Proof.
  unfold Synopsis_pipe, Py.len. rewrite length_append. cbn [String.length].
  destruct (Z.leb_spec (Z.of_nat (String.length pre))
              (Z.of_nat (String.length pre + 1) - 1)) as [_ | H]; [| lia].
  rewrite get_append_cons. cbn [Ascii.eqb].
  change (Ascii.eqb "|" "|") with true. cbv iota.
  replace (S (String.length pre)) with (String.length pre + 1)%nat by lia.
  by rewrite get_append.
Qed.

Section TrailingPipe.

Context (attr : ConsoleAttr).

Lemma Synopsis_loop_trailing_pipe (line : string) (fuel : nat) :
  forall (rest pre word : string) (groups : list string),
    line = pre +:+ word +:+ rest +:+ " |" ->
    Py.all_chars words_char rest = true ->
    (word = "" -> rest <> "" /\ starts_word rest) ->
    (S (String.length rest) <= fuel)%nat ->
    Synopsis_loop attr fuel line (String.length pre + String.length word)
      (String.length pre) groups = inl IndexError.
Proof.
  induction fuel as [| n IH]; intros rest pre word groups Hline Hrest Hw Hlen;
    [lia |].
  set (i := (String.length pre + String.length word)%nat).
  assert (Hi : i = String.length (pre +:+ word))
    by (subst i; by rewrite length_append).
  destruct rest as [| c rest].
  - (* the space before the pipe *)
    assert (Hword : word <> "").
    { intros ->. by destruct (Hw eq_refl). }
    assert (Hline' : line = (pre +:+ word) +:+ String " " "|").
    { rewrite Hline. rewrite append_empty_l. symmetry. apply append_assoc. }
    assert (Hg : String.get i line = Some " "%char).
    { rewrite Hline', Hi. apply get_append_cons. }
    assert (Hskip : _SkipSpace line i = S i).
    { unfold _SkipSpace. rewrite Hline', Hi, drop_append. reflexivity. }
    assert (Hpipe : Synopsis_pipe line (S i) = inl IndexError).
    { replace line with (((pre +:+ word) +:+ " ") +:+ "|").
      - replace (S i) with (String.length ((pre +:+ word) +:+ " ")).
        + apply Synopsis_pipe_at_end.
        + subst i. rewrite !length_append. cbn. lia.
      - rewrite Hline'. by rewrite append_assoc. }
    cbn [Synopsis_loop]. rewrite Hg. cbn [Ascii.eqb].
    change (Ascii.eqb " " " ") with true. cbv iota.
    by rewrite Hskip, Hpipe.
  - assert (Hline' : line = (pre +:+ word) +:+ String c (rest +:+ " |")).
    { rewrite Hline. rewrite append_cons. symmetry. apply append_assoc. }
    assert (Hg : String.get i line = Some c).
    { rewrite Hline', Hi. apply get_append_cons. }
    cbn [Synopsis_loop]. rewrite Hg.
    cbn [Py.all_chars] in Hrest. apply andb_true_iff in Hrest as [Hc Hrest].
    destruct (Ascii.eqb_spec c " ") as [-> | Hne].
    + assert (Hword : word <> "").
      { intros ->. by destruct (Hw eq_refl) as [_ ?]. }
      destruct (SkipSpace_from_leading rest (S i))
        as (k & _ & Hk & Htake & Hstart).
      assert (Hsplit : rest = Py.repeat_char " " k +:+ Py.drop k rest).
      { rewrite <- Htake. symmetry. apply take_drop. }
      set (pre' := ((pre +:+ word) +:+ " ") +:+ Py.repeat_char " " k).
      assert (Hpre' : String.length pre' = (S i + k)%nat).
      { subst pre' i. rewrite !length_append, length_repeat_char.
        cbn. lia. }
      assert (Hline'' : line = pre' +:+ Py.drop k rest +:+ " |").
      { rewrite Hline'. subst pre'. rewrite Hsplit at 1.
        change (String " " ((Py.repeat_char " " k +:+ Py.drop k rest) +:+ " |"))
          with (" " +:+ (Py.repeat_char " " k +:+ Py.drop k rest) +:+ " |").
        by rewrite !append_assoc. }
      assert (Hdrop : Py.drop i line
                      = String " " (Py.repeat_char " " k
                                    +:+ Py.drop k rest +:+ " |")).
      { rewrite Hline', Hi, drop_append. rewrite Hsplit at 1.
        by rewrite append_assoc. }
      destruct (Py.drop k rest) as [| d rest''] eqn:Hd.
      * (* only spaces are left before the pipe *)
        assert (Hskip : _SkipSpace line i = S (S i + k)).
        { unfold _SkipSpace. rewrite Hdrop. cbn [SkipSpace_from].
          change (negb (Ascii.eqb " " " ")) with false. cbv iota.
          by rewrite SkipSpace_from_spaces. }
        assert (Hpipe : Synopsis_pipe line (S (S i + k)) = inl IndexError).
        { replace line with ((pre' +:+ " ") +:+ "|").
          - replace (S (S i + k)) with (String.length (pre' +:+ " ")).
            + apply Synopsis_pipe_at_end.
            + rewrite length_append, Hpre'. cbn. lia.
          - rewrite Hline''. by rewrite append_empty_l, append_assoc. }
        by rewrite Hskip, Hpipe.
      * (* another word follows *)
        assert (Hskip : _SkipSpace line i = (S i + k)%nat).
        { unfold _SkipSpace. rewrite Hdrop. cbn [SkipSpace_from].
          change (negb (Ascii.eqb " " " ")) with false. cbv iota.
          rewrite SkipSpace_from_spaces, append_cons.
          by apply SkipSpace_from_word. }
        pose proof (all_chars_drop words_char k rest Hrest) as Hall.
        rewrite Hd in Hall.
        assert (Hpipe : Synopsis_pipe line (S i + k) = inr false).
        { apply Synopsis_pipe_no_pipe. rewrite Hline'', <- Hpre'.
          rewrite append_cons, get_append_cons.
          cbn in Hall, Hstart. apply andb_true_iff in Hall as [Hd' _].
          by destruct (word_char_spec d Hd' Hstart) as (_ & _ & _ & ?). }
        rewrite Hskip, Hpipe.
        pose proof (IH (String d rest'') pre' "" (groups
                        ++ [Py.slice (String.length pre) i line])) as Hrec.
        rewrite Hpre' in Hrec. cbn [String.length] in Hrec.
        rewrite Nat.add_0_r in Hrec. apply Hrec.
        -- by rewrite append_empty_l.
        -- done.
        -- done.
        -- pose proof (length_drop k rest) as Hl. rewrite Hd in Hl.
           cbn in Hl, Hlen. lia.
    + destruct (word_char_spec c Hc Hne) as (Hsp & Hop & Hcsi & _).
      rewrite Hop, Hcsi.
      pose proof (IH rest pre (word +:+ String c "") groups) as Hrec.
      rewrite length_append in Hrec. cbn [String.length] in Hrec.
      replace (String.length pre + (String.length word + 1))%nat
        with (S i) in Hrec by (subst i; lia).
      apply Hrec.
      * rewrite Hline. rewrite !append_assoc. by rewrite append_cons.
      * done.
      * intros Hnil. destruct word; discriminate Hnil.
      * cbn in Hlen. lia.
Qed.

(** X17. [Synopsis] raises [IndexError] on every line of plain words (no
    white space but spaces, no opening bracket, no [CSI], no pipe) that is
    followed by a space and a pipe, and leaves the renderer untouched. *)
Theorem Synopsis_raises_on_trailing_pipe (body : string)
    (s : TokenRenderer) :
  Py.all_chars words_char body = true ->
  Py.split body <> [] ->
  Synopsis attr (body +:+ " |") s = Raise IndexError s.
Proof.
  intros Hbody Hwords. unfold Synopsis, Synopsis_groups.
  set (line := body +:+ " |").
  destruct (SkipSpace_from_leading body 0) as (k & _ & Hk & Htake & Hstart).
  assert (Hsplit : body = Py.repeat_char " " k +:+ Py.drop k body).
  { rewrite <- Htake. symmetry. apply take_drop. }
  assert (Hne : Py.drop k body <> "").
  { intros Hnil. apply Hwords. unfold Py.split.
    rewrite Hsplit, split_from_spaces, Hnil. done. }
  assert (Hskip : _SkipSpace line 0 = k).
  { unfold _SkipSpace. cbn [Py.drop]. subst line. rewrite Hsplit at 1.
    rewrite append_assoc, SkipSpace_from_spaces. cbn [Nat.add].
    destruct (Py.drop k body) as [| d r]; [done |]. rewrite append_cons.
    by apply SkipSpace_from_word. }
  rewrite Hskip.
  pose proof (Synopsis_loop_trailing_pipe line (String.length line)
                (Py.drop k body) (Py.repeat_char " " k) "" []) as Hloop.
  rewrite length_repeat_char in Hloop. cbn [String.length] in Hloop.
  rewrite Nat.add_0_r in Hloop. rewrite Hloop; [done | | | |].
  - subst line. rewrite append_empty_l. rewrite Hsplit at 1.
    by rewrite append_assoc.
  - by apply all_chars_drop.
  - done.
  - subst line. rewrite length_append, length_drop. cbn. lia.
Qed.

End TrailingPipe.

Lemma Synopsis_raises_on_trailing_pipe_witness :
  Synopsis AsciiAttr.attr ("gcloud  compute instances" +:+ " |")
    (TokenRenderer_init 80 0 true)
  = Raise IndexError (TokenRenderer_init 80 0 true).
Proof.
  apply Synopsis_raises_on_trailing_pipe; [reflexivity | discriminate].
Defined.

(** ** Sessions that return *)

Lemma well_marked_app (a b : string) :
  well_marked a = true -> well_marked b = true ->
  well_marked (a +:+ b) = true.
Proof.
  intros Ha Hb.
  cut ((well_marked a = true -> well_marked (a +:+ b) = true)
       /\ forall c, well_marked (String c a) = true ->
            well_marked (String c a +:+ b) = true).
  { intros [H _]. by apply H. }
  clear Ha. induction a as [| e rest [IH1 IH2]].
  - split; [done |]. intros c. rewrite append_cons, append_empty_l.
    cbn [well_marked]. destruct (Ascii.eqb c CSI); [done |]. by intros _.
  - split; [apply IH2 |]. intros c. rewrite !append_cons.
    cbn [well_marked]. destruct (Ascii.eqb c CSI).
    + destruct (EMBELLISHMENTS e); [apply IH1 | done].
    + intros Hwm. exact (IH2 e Hwm).
Qed.

Lemma marker_error_well_marked (text : string) :
  well_marked text = true -> marker_error text = None.
Proof.
  cut ((well_marked text = true -> marker_error text = None)
       /\ forall c, well_marked (String c text) = true ->
            marker_error (String c text) = None).
  { by intros [H _]. }
  induction text as [| e rest [IH1 IH2]].
  - split; [done |]. intros c. cbn. by destruct (Ascii.eqb c CSI).
  - split; [apply IH2 |]. intros c. cbn [well_marked marker_error].
    destruct (Ascii.eqb c CSI); [| apply IH2].
    destruct (EMBELLISHMENTS e); [apply IH1 | done].
Qed.

Lemma plain_split_once c (s : string) :
  plain s ->
  plain (fst (Py.split_once c s))
  /\ forall v, snd (Py.split_once c s) = Some v -> plain v.
Proof.
  induction s as [| d r IH]; [done |].
  intros [Hd Hr]%plain_cons. cbn [Py.split_once].
  destruct (Ascii.eqb c d).
  - split; [done |]. by intros v [= <-].
  - destruct (IH Hr) as [H1 H2]. destruct (Py.split_once c r) as [a b].
    cbn in *. split; [by apply plain_cons | done].
Qed.

(** *** Calls that return on every renderer *)

Lemma always_returns_ret {A} (a : A) : always_returns (ret a).
Proof. intros s. by eexists _, _. Qed.

Lemma always_returns_gets {A} (g : TokenRenderer -> A) :
  always_returns (gets g).
Proof. intros s. by eexists _, _. Qed.

Lemma always_returns_modify g : always_returns (modify g).
Proof. intros s. by eexists _, _. Qed.

Lemma always_returns_bind {A B} (m : M A) (k : A -> M B) :
  always_returns m -> (forall a, always_returns (k a)) ->
  always_returns (bind m k).
Proof.
  intros Hm Hk s. destruct (Hm s) as (a & s1 & Hrun).
  rewrite (bind_Ok _ _ _ _ _ Hrun). apply Hk.
Qed.

Lemma always_returns_when b (m : M unit) :
  always_returns m -> always_returns (when b m).
Proof. destruct b; [done | intros _; apply always_returns_ret]. Qed.

Lemma always_returns_NewLine attr overflow :
  always_returns (_NewLine attr overflow).
Proof.
  intros s. destruct (NewLine_spec attr overflow s) as (L & b & Hrun & _).
  by eexists _, _.
Qed.

Lemma always_returns_AddToken attr (text : string) ot :
  well_marked text = true -> always_returns (_AddToken attr text ot).
Proof.
  intros Hwm s.
  pose proof (AddToken_loop_marker_error attr "" text) as Hloop.
  pose proof (marker_error_well_marked text Hwm) as Hnone.
  unfold _AddToken.
  assert (Hnote : exists s1,
    when (Py.nonempty text && negb (Py.isspace text))
      (modify (set_ignore_paragraph false)) s = Ok tt s1).
  { unfold when. destruct (_ && _); by eexists. }
  destruct Hnote as [s1 Hnote]. rewrite (bind_Ok _ _ _ _ _ Hnote).
  assert (Htype : exists t,
    match ot with Some t => ret t | None => gets _current_token_type end s1
    = Ok t s1).
  { destruct ot; by eexists. }
  destruct Htype as [t Htype]. rewrite (bind_Ok _ _ _ _ _ Htype).
  destruct (Py.contains CSI text) eqn:Hc; cbn [negb].
  - specialize (Hloop t s1). rewrite Hnone in Hloop.
    destruct Hloop as [s' ->]. by eexists _, _.
  - destruct (MergeOrAddToken_returns attr text t s1) as [s' ->].
    by eexists _, _.
Qed.

Ltac returns_step :=
  lazymatch goal with
  | |- always_returns (ret _) => apply always_returns_ret
  | |- always_returns (gets _) => apply always_returns_gets
  | |- always_returns (modify _) => apply always_returns_modify
  | |- always_returns (_NewLine _ _) => apply always_returns_NewLine
  | |- always_returns (when _ _) => apply always_returns_when
  | |- always_returns (bind _ _) => apply always_returns_bind; [| intros ?]
  | |- always_returns (match ?x with _ => _ end) => destruct x
  | |- always_returns (let _ := _ in _) => cbv zeta
  end.

Lemma always_returns_Flush attr : always_returns (_Flush attr).
Proof. unfold _Flush, Content. repeat returns_step. Qed.

Lemma always_returns_Font a : always_returns (Font a).
Proof. unfold Font. repeat returns_step. Qed.

Lemma always_returns_Finish attr : always_returns (Finish attr).
Proof.
  unfold Finish.
  apply always_returns_bind; [apply always_returns_Flush | intros _].
  apply always_returns_bind; [apply always_returns_Font | intros _].
  returns_step.
Qed.

Lemma always_returns_Line attr : always_returns (Line_ attr).
Proof.
  unfold Line_, HaveBlank, Blank.
  apply always_returns_bind; [returns_step | intros []; [returns_step |]].
  apply always_returns_bind; [apply always_returns_Flush | intros _].
  repeat returns_step.
Qed.

Lemma always_returns_AddDefinition attr text :
  always_returns (_AddDefinition attr text).
Proof.
  unfold _AddDefinition.
  destruct (plain_split_once "=" (_UnFormat text) (UnFormat_is_plain text))
    as [H1 H2].
  destruct (Py.split_once "=" (_UnFormat text)) as [name value].
  cbn [fst snd] in *.
  apply always_returns_bind;
    [by apply always_returns_AddToken, plain_well_marked | intros _].
  apply always_returns_bind; [| intros _; returns_step].
  destruct value as [v |]; [| returns_step].
  apply always_returns_bind; [by apply always_returns_AddToken | intros _].
  apply always_returns_AddToken, plain_well_marked. by apply H2.
Qed.

Lemma always_returns_TableLine attr line indent_ :
  well_marked line = true -> always_returns (TableLine attr line indent_).
Proof.
  intros Hwm. unfold TableLine.
  apply always_returns_bind; [| intros _; returns_step].
  apply always_returns_AddToken, well_marked_app; [| done].
  apply plain_well_marked, plain_spaces.
Qed.

Lemma always_returns_Heading attr level heading :
  well_marked heading = true -> always_returns (Heading attr level heading).
Proof.
  intros Hwm. unfold Heading, Blank.
  destruct (_ && _); [returns_step |].
  apply always_returns_bind; [apply always_returns_Flush | intros _].
  apply always_returns_bind; [apply always_returns_Line | intros _].
  apply always_returns_bind; [apply always_returns_Font | intros _].
  apply always_returns_bind; [returns_step | intros compact].
  apply always_returns_bind.
  { apply always_returns_when.
    apply always_returns_bind; [| intros _; repeat returns_step].
    apply always_returns_AddToken, plain_well_marked, plain_spaces. }
  intros _.
  apply always_returns_bind; [by apply always_returns_AddToken | intros _].
  repeat returns_step.
Qed.

(** *** Calls that stay at their level *)

Global Instance at_level_TextInvariant attr level stack :
  TextInvariant attr (at_level level stack).
Proof.
  split.
  - intros s s' (_ & _ & _ & Ht & Hi & Hl & _) (H1 & H2 & H3).
    unfold at_level, styled. by rewrite Ht, Hi, Hl.
  - intros e t s He (H1 & H2 & H3). split; [done |]. split; [done |].
    by eapply EMBELLISHMENTS_not_Section.
  - intros. apply preserves_output_variant_NewLine.
    by intros s s' (tk & ls & tr & ->).
  - intros. apply preserves_output_variant_MergeOrAddToken.
    by intros s s' (tk & ls & tr & ->).
Qed.

Section ReturnsAt.

Context (attr : ConsoleAttr) (level : nat) (stack : list Indent).
Hypothesis level_in_range : (level < length stack)%nat.

Lemma returns_at_always {A} (m : M A) :
  always_returns m -> preserves (at_level level stack) m ->
  returns_at level stack m.
Proof.
  intros Hm Hp s Hs. destruct (Hm s) as (a & s' & Hrun).
  exists a, s'. split; [done |]. specialize (Hp s Hs). by rewrite Hrun in Hp.
Qed.

Lemma returns_at_bind {A B} (m : M A) (k : A -> M B) :
  returns_at level stack m -> (forall a, returns_at level stack (k a)) ->
  returns_at level stack (bind m k).
Proof.
  intros Hm Hk s Hs. destruct (Hm s Hs) as (a & s1 & Hrun & Hs1).
  rewrite (bind_Ok _ _ _ _ _ Hrun). by apply Hk.
Qed.

Lemma returns_at_ret {A} (a : A) : returns_at level stack (ret a).
Proof. intros s Hs. by eexists _, _. Qed.

Lemma returns_at_gets {A} (g : TokenRenderer -> A) :
  returns_at level stack (gets g).
Proof. intros s Hs. by eexists _, _. Qed.

Lemma returns_at_modify g :
  (forall s, same_text_state s (g s)) -> returns_at level stack (modify g).
Proof.
  intros Hg s Hs. eexists _, _. split; [reflexivity |].
  eapply (inv_frame (attr := attr)); [apply Hg | done].
Qed.

Lemma returns_at_when b (m : M unit) :
  returns_at level stack m -> returns_at level stack (when b m).
Proof. destruct b; [done | intros _; apply returns_at_ret]. Qed.

Lemma returns_at_NewLine overflow :
  returns_at level stack (_NewLine attr overflow).
Proof.
  apply returns_at_always; [apply always_returns_NewLine |].
  apply inv_NewLine.
Qed.

Lemma returns_at_AddToken (text : string) ot :
  well_marked text = true -> returns_at level stack (_AddToken attr text ot).
Proof.
  intros Hwm. apply returns_at_always; [by apply always_returns_AddToken |].
  apply (@kept_AddToken attr (at_level level stack) _).
Qed.

(** Reading the entry of the current level. *)
Lemma returns_at_level {B} (k : nat -> M B) :
  returns_at level stack (k level) ->
  returns_at level stack (bind (gets _level) k).
Proof.
  intros Hk s Hs. rewrite bind_gets. pose proof Hs as (Hl & _).
  rewrite Hl. by apply Hk.
Qed.

Lemma returns_at_indent_at {B} (k : Indent -> M B) :
  (forall x, returns_at level stack (k x)) ->
  returns_at level stack (bind (indent_at level) k).
Proof.
  intros Hk s Hs.
  destruct (lookup_lt_is_Some_2 stack level level_in_range) as [x Hx].
  rewrite (bind_Ok _ _ _ _ _ (indent_at_Some level x s
                                 ltac:(destruct Hs as (_ & -> & _); done))).
  by apply Hk.
Qed.

Ltac at_step :=
  lazymatch goal with
  | |- returns_at _ _ (ret _) => apply returns_at_ret
  | |- returns_at _ _ (bind (gets _level) _) => apply returns_at_level
  | |- returns_at _ _ (bind (indent_at _) _) =>
      apply returns_at_indent_at; intros ?
  | |- returns_at _ _ (gets _) => apply returns_at_gets
  | |- returns_at _ _ (modify _) =>
      apply returns_at_modify; intros ?; repeat split; reflexivity
  | |- returns_at _ _ (_NewLine _ _) => apply returns_at_NewLine
  | |- returns_at _ _ (_AddToken _ (Py.spaces _) _) =>
      apply returns_at_AddToken, plain_well_marked, plain_spaces
  | |- returns_at _ _ (when _ _) => apply returns_at_when
  | |- returns_at _ _ (bind _ _) => apply returns_at_bind; [| intros ?]
  | |- returns_at _ _ (let _ := _ in _) => cbv zeta
  end.

Lemma returns_at_Example line :
  well_marked line = true -> returns_at level stack (Example_ attr line).
Proof.
  intros Hwm. unfold Example_, Content. repeat at_step.
  apply returns_at_AddToken, well_marked_app; [| done].
  apply plain_well_marked, plain_spaces.
Qed.

Lemma returns_at_Fill_word word :
  well_marked word = true -> returns_at level stack (Fill_word attr word).
Proof.
  intros Hwm. unfold Fill_word.
  apply returns_at_bind; [at_step | intros fill].
  apply returns_at_bind.
  { apply returns_at_when. apply returns_at_level.
    apply returns_at_bind; [at_step | intros compact].
    apply returns_at_bind; [| intros _; repeat at_step].
    destruct (negb (level =? 0)%nat || negb compact) eqn:Hcond;
      [repeat at_step |].
    apply orb_false_iff in Hcond as [Hl _].
    apply negb_false_iff, Nat.eqb_eq in Hl.
    intros s Hs. eexists _, _. split; [reflexivity |].
    destruct Hs as (H1 & H2 & H3). by rewrite <- Hl. }
  intros _. cbv zeta.
  apply returns_at_bind; [at_step | intros fill'].
  apply returns_at_bind; [at_step | intros w].
  apply returns_at_bind; [at_step | intros ignore_width].
  apply returns_at_bind.
  { destruct (_ && _); repeat at_step.
    apply returns_at_AddToken. reflexivity. }
  intros _. apply returns_at_bind; [at_step | intros _].
  by apply returns_at_AddToken.
Qed.

Lemma returns_at_Fill line :
  forallb well_marked (Py.split line) = true ->
  returns_at level stack (Fill attr line).
Proof.
  intros Hwords. unfold Fill, Blank.
  apply returns_at_bind; [at_step | intros _].
  induction (Py.split line) as [| word words IH]; cbn [Fill_words];
    [at_step |].
  cbn [forallb] in Hwords. apply andb_true_iff in Hwords as [Hw Hws].
  apply returns_at_bind; [by apply returns_at_Fill_word | intros _].
  by apply IH.
Qed.

End ReturnsAt.

(** *** Sessions *)

Global Instance ready_Invariant attr : Invariant attr ready.
Proof.
  split; [split | |].
  - intros s s' (_ & _ & _ & Ht & Hi & Hl & _) [H1 H2].
    unfold ready, stack_ok, styled. by rewrite Ht, Hi, Hl.
  - intros e t s He [H1 H2]. split; [done |].
    by eapply EMBELLISHMENTS_not_Section.
  - intros. apply preserves_output_variant_NewLine.
    by intros s s' (tk & ls & tr & ->).
  - intros. apply preserves_output_variant_MergeOrAddToken.
    by intros s s' (tk & ls & tr & ->).
  - intros s [H1 H2]. split; [| done]. unfold stack_ok in *. cbn. lia.
  - intros level i h s [H1 H2].
    pose proof (SetIndent_stack_variant level i h s) as (lv & st & Hv).
    destruct (SetIndent_returns level i h s H1)
      as (s' & Hrun & Hl & (y & Hy & _) & _).
    rewrite Hrun in *. cbn in *. split.
    + unfold stack_ok. rewrite Hl. by eapply lookup_lt_Some.
    + rewrite Hv. exact H2.
Qed.

Section Sessions.

Context (attr : ConsoleAttr).

Lemma returns_at_ready {A} (m : M A) (s : TokenRenderer) :
  (forall level stack, (level < length stack)%nat ->
     returns_at level stack m) ->
  ready s -> exists a s', m s = Ok a s'.
Proof.
  intros Hm [Hs Ht].
  destruct (Hm (_level s) (_indent s) Hs s) as (a & s' & Hrun & _); [done |].
  by eexists _, _.
Qed.

Lemma List_returns level definition end_ (s : TokenRenderer) :
  safe_event attr (EvList level definition end_) = true ->
  ready s -> exists s', List_ attr level definition end_ s = Ok tt s'.
Proof.
  intros Hsafe Hs. unfold List_.
  destruct (always_returns_Flush attr s) as ([] & s1 & Hflush).
  pose proof (kept_Flush attr ready s Hs) as Hs1.
  rewrite Hflush in Hs1. cbn in Hs1.
  rewrite (bind_Ok _ _ _ _ _ Hflush).
  destruct (level =? 0)%nat; [by eexists |].
  destruct end_.
  { destruct (SetIndent_returns level 0 None s1 (proj1 Hs1)) as (s2 & -> & _).
    by eexists. }
  assert (Hset : forall i h,
    exists s2 x, _SetIndent level i h s1 = Ok tt s2
                 /\ at_level level (_indent s2) s2
                 /\ _indent s2 !! level = Some x).
  { intros i h.
    destruct (SetIndent_returns level i h s1 (proj1 Hs1))
      as (s2 & Hrun & Hl & (x & Hx & _) & _).
    exists s2, x. split; [done |]. split; [| done].
    split; [done |]. split; [done |].
    pose proof (inv_SetIndent (attr := attr) (P := ready) level i h s1 Hs1)
      as Hr.
    rewrite Hrun in Hr. by destruct Hr. }
  destruct definition as [definition |].
  - destruct (Py.nonempty definition).
    + destruct (Hset 4 (Some 3)) as (s2 & x & Hrun & Hat & Hx).
      rewrite (bind_Ok _ _ _ _ _ Hrun).
      rewrite (bind_Ok _ _ _ _ _ (indent_at_Some level x s2 Hx)).
      assert (Hrest : always_returns
        (_AddToken attr (Py.spaces (hanging_indent x)) None ;;
         _AddDefinition attr definition)).
      { apply always_returns_bind; [| intros _;
                                       apply always_returns_AddDefinition].
        apply always_returns_AddToken, plain_well_marked, plain_spaces. }
      destruct (Hrest s2) as ([] & s3 & ->). by eexists.
    + destruct (Hset 1 (Some 0)) as (s2 & x & Hrun & _).
      rewrite (bind_Ok _ _ _ _ _ Hrun).
      destruct (always_returns_Line attr s2) as ([] & s3 & ->). by eexists.
  - cbn [safe_event] in Hsafe. cbv zeta.
    destruct (Hset (if (1 <? level)%nat then 2 else 4) (Some 2))
      as (s2 & x & Hrun & Hat & Hx).
    rewrite (bind_Ok _ _ _ _ _ Hrun).
    rewrite (bind_Ok _ _ _ _ _ (indent_at_Some level x s2 Hx)).
    destruct (GetBullets attr) as [| b bs] eqn:Hbullets; [done |].
    assert (Hmod : ((level - 1) `mod` length (b :: bs) < length (b :: bs))%nat).
    { apply Nat.mod_upper_bound. done. }
    destruct (lookup_lt_is_Some_2 _ _ Hmod) as [bullet Hbullet].
    rewrite Hbullet. rewrite bind_ret.
    assert (Hwm : well_marked bullet = true).
    { apply (proj1 (forallb_forall _ _) Hsafe).
      by eapply list_elem_of_In, list_elem_of_lookup_2. }
    assert (Hlt : (level < length (_indent s2))%nat)
      by (by eapply lookup_lt_Some).
    assert (Hrest : returns_at level (_indent s2)
      (_AddToken attr (Py.spaces (hanging_indent x) +:+ bullet) None ;;
       let* x := indent_at level in
       modify (set_fill (indent x + 1)) ;; modify (set_ignore_width true))).
    { apply returns_at_bind.
      - apply returns_at_AddToken, well_marked_app; [| done].
        apply plain_well_marked, plain_spaces.
      - intros _. apply returns_at_indent_at; [done |]. intros y.
        apply returns_at_bind.
        + apply (returns_at_modify attr). intros ?. by repeat split.
        + intros _. apply (returns_at_modify attr). intros ?.
          by repeat split. }
    destruct (Hrest s2 Hat) as ([] & s3 & -> & _). by eexists.
Qed.

Lemma run_event_returns ev (s : TokenRenderer) :
  safe_event attr ev = true -> ready s ->
  exists s', run_event attr ev s = Ok tt s' /\ ready s'.
Proof.
  intros Hsafe Hs.
  cut (exists s', run_event attr ev s = Ok tt s').
  { intros [s' Hrun]. exists s'. split; [done |].
    pose proof (kept_run_event attr ready ev s Hs) as H.
    by rewrite Hrun in H. }
  destruct ev; cbn [run_event safe_event] in *.
  - destruct (always_returns_Heading attr level heading Hsafe s)
      as ([] & s' & ->). by eexists.
  - destruct (always_returns_Line attr s) as ([] & s' & ->). by eexists.
  - destruct (returns_at_ready (Fill attr line) s) as ([] & s' & ->);
      [| done | by eexists].
    intros l st Hl. by apply returns_at_Fill.
  - by apply List_returns.
  - destruct (returns_at_ready (Example_ attr line) s) as ([] & s' & ->);
      [| done | by eexists].
    intros l st Hl. by apply returns_at_Example.
  - apply andb_true_iff in Hsafe as [Hp Hend].
    apply negb_true_iff in Hp, Hend. destruct Hs as [Hstack Hstyled].
    apply Synopsis_returns; [done .. | | done].
    unfold stack_ok in Hstack. destruct (_indent s); [cbn in *; lia | done].
  - destruct (always_returns_TableLine attr line indent_ Hsafe s)
      as ([] & s' & ->). by eexists.
  - destruct (always_returns_Font a s) as (m & s' & Hrun).
    rewrite (bind_Ok _ _ _ _ _ Hrun). by eexists.
  - destruct (always_returns_Finish attr s) as (m & s' & Hrun).
    rewrite (bind_Ok _ _ _ _ _ Hrun). by eexists.
Qed.

(** X18. A session returns unless it is given a malformed marker or a
    synopsis line that ends in a pipe: on a renderer whose current level has
    an entry in the indent stack and whose current token type is a font
    style, every sequence of events whose texts have well-formed markers
    only, whose synopsis lines have no marker and do not end in a pipe, and
    whose bullet items find a bullet, returns, and leaves such a renderer.
    In particular the indent stack is never read out of range. *)
Theorem session_returns (evs : list Event) (s : TokenRenderer) :
  ready s -> forallb (safe_event attr) evs = true ->
  exists s', run_events attr evs s = Ok tt s' /\ ready s'.
Proof.
  revert s. induction evs as [| ev evs IH]; intros s Hs Hsafe.
  - by exists s.
  - cbn [forallb] in Hsafe. apply andb_true_iff in Hsafe as [Hev Hevs].
    destruct (run_event_returns ev s Hev Hs) as (s1 & Hrun & Hs1).
    destruct (IH s1 Hs1 Hevs) as (s' & Hrun' & Hs').
    exists s'. cbn [run_events]. by rewrite (bind_Ok _ _ _ _ _ Hrun).
Qed.

End Sessions.

Lemma session_returns_witness :
  exists s',
    run_events AsciiAttr.attr
      [EvHeading 1 "NAME"; EvSynopsis "gcloud [--a | --b] cmd";
       EvHeading 2 "FLAGS"; EvFill styled_text;
       EvList 1 (Some "--flag=VALUE") false; EvFill "the flag";
       EvList 2 None false; EvFill "one"; EvList 2 None true;
       EvList 0 None false; EvExample "x = 1"; EvTableLine "a b" 2; EvLine;
       EvFont (Some BOLD); EvFinish]
      (TokenRenderer_init 20 0 true) = Ok tt s'
    /\ ready s'.
Proof.
  apply session_returns; [| reflexivity].
  split; [unfold stack_ok; cbn; lia | discriminate].
Defined.

(** ** [Fill] keeps the words *)

Lemma all_chars_app p (a b : string) :
  Py.all_chars p (a +:+ b) = Py.all_chars p a && Py.all_chars p b.
Proof.
  induction a as [| c a IH]; [done |].
  rewrite append_cons. cbn. by rewrite IH, andb_assoc.
Qed.

Lemma split_from_is_word (acc s : string) :
  Py.all_chars (fun c => negb (Py.ch_isspace c)) acc = true ->
  Forall is_word (Py.split_from acc s).
Proof.
  revert acc. induction s as [| c r IH]; intros acc Hacc;
    cbn [Py.split_from].
  - destruct (Py.nonempty acc) eqn:Hn; [| done].
    apply Forall_singleton. split; [by apply nonempty_true | done].
  - destruct (Py.ch_isspace c) eqn:Hc.
    + destruct (Py.nonempty acc) eqn:Hn; [| by apply IH].
      apply Forall_cons_2; [| by apply IH].
      split; [by apply nonempty_true | done].
    + apply IH. rewrite all_chars_app, Hacc. cbn. by rewrite Hc.
Qed.

Lemma split_is_word (s : string) : Forall is_word (Py.split s).
Proof. by apply split_from_is_word. Qed.

(** A word is read in one piece. *)
Lemma split_from_word (w acc rest : string) :
  Py.all_chars (fun c => negb (Py.ch_isspace c)) w = true ->
  Py.split_from acc (w +:+ rest) = Py.split_from (acc +:+ w) rest.
Proof.
  revert acc. induction w as [| c w IH]; intros acc Hw.
  - by rewrite append_empty_l, append_empty_r.
  - cbn in Hw. apply andb_true_iff in Hw as [Hc Hw].
    apply negb_true_iff in Hc.
    rewrite append_cons. cbn [Py.split_from]. rewrite Hc, IH by done.
    by rewrite append_assoc.
Qed.

Lemma split_word (w : string) : is_word w -> Py.split w = [w].
Proof.
  intros [Hne Hw]. unfold Py.split.
  rewrite <- (append_empty_r w) at 1. rewrite split_from_word by done.
  rewrite append_empty_l. cbn. apply nonempty_true in Hne. by rewrite Hne.
Qed.

(** White space separates. *)
Lemma split_from_space (a : string) c (rest acc : string) :
  Py.ch_isspace c = true ->
  Py.split_from acc (a +:+ String c rest)
  = Py.split_from acc a ++ Py.split_from "" rest.
Proof.
  intros Hc. revert acc. induction a as [| d a IH]; intros acc.
  - rewrite append_empty_l. cbn [Py.split_from]. rewrite Hc.
    by destruct (Py.nonempty acc).
  - rewrite append_cons. cbn [Py.split_from].
    destruct (Py.ch_isspace d); [| apply IH].
    destruct (Py.nonempty acc); by rewrite IH.
Qed.

Lemma split_app_spaces (a : string) (n : nat) :
  Py.split (a +:+ Py.repeat_char " " n) = Py.split a.
Proof.
  destruct n as [| n]; [by rewrite append_empty_r |].
  unfold Py.split. cbn [Py.repeat_char].
  rewrite split_from_space by done.
  rewrite <- (append_empty_r (Py.repeat_char " " n)).
  rewrite split_from_spaces. cbn. by rewrite app_nil_r.
Qed.

Lemma split_app_space_word (a w : string) :
  is_word w -> Py.split ((a +:+ " ") +:+ w) = Py.split a ++ [w].
Proof.
  intros Hw. rewrite append_assoc. unfold Py.split.
  change (" " +:+ w) with (String " " w).
  rewrite split_from_space by done. f_equal. by apply split_word.
Qed.

Lemma split_spaces_word (n : nat) (w : string) :
  is_word w -> Py.split (Py.repeat_char " " n +:+ w) = [w].
Proof.
  intros Hw. unfold Py.split. rewrite split_from_spaces. by apply split_word.
Qed.

(** Trailing runs of white space hold no word. *)
Lemma split_app_isspace (a t : string) :
  Py.isspace t = true -> Py.split (a +:+ t) = Py.split a.
Proof.
  unfold Py.isspace. destruct t as [| c t]; [done |].
  generalize (String c t). clear. intros t. revert a.
  induction t as [| c t IH]; intros a Ht; [by rewrite append_empty_r |].
  cbn in Ht. apply andb_true_iff in Ht as [Hc Ht].
  unfold Py.split. rewrite split_from_space by done.
  specialize (IH "" Ht). rewrite append_empty_l in IH. unfold Py.split in IH.
  rewrite IH. cbn. by rewrite app_nil_r.
Qed.

Lemma split_delete_trailing_space (l : Line) :
  Py.split (line_text (delete_trailing_space l)) = Py.split (line_text l).
Proof.
  destruct (delete_trailing_space_spec l) as (rest & Hl & Hrest & _).
  rewrite Hl at 2. rewrite line_text_app. clear Hl.
  induction rest as [| t rest IH] using rev_ind; [by rewrite append_empty_r |].
  apply Forall_app in Hrest as [Hrest [Ht _]%Forall_cons_1].
  rewrite line_text_app, <- append_assoc. cbn.
  rewrite append_empty_r, split_app_isspace by done. by apply IH.
Qed.

Lemma words_of_lines_app (l1 l2 : list Line) :
  words_of_lines (l1 ++ l2) = words_of_lines l1 ++ words_of_lines l2.
Proof. unfold words_of_lines. by rewrite map_app, concat_app. Qed.

Lemma words_of_lines_on_last (ls : list Line) :
  words_of_lines (on_last delete_trailing_space ls) = words_of_lines ls.
Proof.
  destruct ls as [| l ls] using rev_ind; [done |].
  rewrite on_last_snoc, !words_of_lines_app. f_equal.
  unfold words_of_lines. cbn. by rewrite split_delete_trailing_space.
Qed.

Section Words.

Context (attr : ConsoleAttr) `{!ColumnWidth attr}.

(** With no height limit [_NewLine] moves the words of the buffer to the
    lines. *)
Lemma NewLine_words overflow (s : TokenRenderer) :
  _height s = 0 -> _truncated s = false ->
  exists lines',
    _NewLine attr overflow s = Ok tt (set_lines lines' (set_tokens [] s))
    /\ words_of_lines lines' = output_words s.
Proof.
  intros Hh Ht. unfold output_words.
  destruct (NewLine_cases attr overflow s)
    as [(Hskip & ->) | [(_ & _ & ->) | (_ & Hat & _)]].
  - exists (_lines s). split; [by destruct s |].
    rewrite Ht in Hskip. cbn in Hskip.
    apply andb_true_iff in Hskip as [Hemp _].
    apply negb_true_iff, bool_decide_eq_false in Hemp.
    destruct (_tokens s); [| by destruct Hemp].
    by rewrite app_nil_r.
  - eexists. split; [reflexivity |].
    rewrite words_of_lines_app, words_of_lines_on_last. f_equal.
    unfold words_of_lines. cbn. by rewrite app_nil_r.
  - rewrite Hh in Hat. done.
Qed.

Lemma Fill_word_words compact (ws : list string) (word : string)
    (s : TokenRenderer) :
  holds_words compact ws s -> plain word -> is_word word ->
  exists s',
    Fill_word attr word s = Ok tt s'
    /\ holds_words compact (ws ++ [word]) s'
    /\ 0 < _fill s'.
Proof.
  intros (Hr & Hh & Ht & Hf & Hbuf & Hws) Hp Hw.
  destruct (Fill_word_spec attr compact word s Hr (plain_well_marked _ Hp))
    as (s' & Hrun & Hr' & _ & Hh' & Hpost).
  exists s'. split; [done |].
  pose proof (width_pos word Hp (proj1 Hw)) as Hwidth.
  pose proof (start_fill_le compact) as [Hs0 Hs1].
  pose proof Hr as (Hc & _).
  unfold Fill_word_post in Hpost. cbv zeta in Hpost.
  unfold add_text in Hpost. rewrite !add_runs_plain in Hpost by done.
  cbn [fst snd] in Hpost. rewrite !append_empty_l in Hpost.
  set (cur := _current_token_type s) in *.
  set (f0 := if _fill s =? 0 then start_fill compact else _fill s) in *.
  set (t0 := if _fill s =? 0
             then merge_run (_tokens s) cur (Py.spaces (start_fill compact))
             else _tokens s) in *.
  assert (Hf0 : 0 <= f0) by (subst f0; destruct (_fill s =? 0); lia).
  assert (Ht0 : Py.split (line_text t0) = Py.split (line_text (_tokens s))).
  { subst t0. destruct (_fill s =? 0); [| done].
    rewrite line_text_merge_run. apply split_app_spaces. }
  assert (Hf00 : f0 = 0 -> t0 = []).
  { subst f0 t0. destruct (_fill s =? 0) eqn:Hz; [| done].
    apply Z.eqb_eq in Hz. intros Hst. rewrite Hbuf by done.
    destruct compact; [done | discriminate Hst]. }
  unfold holds_words, output_words in *.
  destruct (_ >=? _).
  - (* the word starts a new line *)
    destruct Hpost as (Hnl & Htk & _ & Hfi).
    assert (Hbase : 0 <= base_indent compact) by (by destruct compact).
    split; [| lia].
    split; [done |]. split; [congruence |].
    assert (Hlines : _truncated s' = false
                     /\ words_of_lines (_lines s')
                        = words_of_lines (_lines s)
                          ++ Py.split (line_text (_tokens s))).
    { unfold NewLine_post in Hnl. cbn in Hnl. rewrite Ht, Hh in Hnl.
      destruct (negb (bool_decide (t0 <> [])) && _compact s) eqn:Hskip.
      - destruct Hnl as [-> ->]. split; [done |].
        apply andb_true_iff in Hskip as [Hemp _].
        apply negb_true_iff, bool_decide_eq_false in Hemp.
        assert (t0 = []) as Hnil by (destruct t0; [done | by destruct Hemp]).
        rewrite <- Ht0, Hnil. by rewrite app_nil_r.
      - cbn in Hnl. destruct Hnl as [-> ->]. split; [done |].
        rewrite words_of_lines_app, words_of_lines_on_last. f_equal.
        unfold words_of_lines. cbn. by rewrite app_nil_r. }
    destruct Hlines as [Htr' Hlines].
    split; [done |]. split; [lia |]. split; [lia |].
    rewrite Hlines, Hws, Htk, !line_text_merge_run. f_equal.
    rewrite append_empty_l. by apply split_spaces_word.
  - destruct Hpost as (Hls & Htr & Htk & _ & Hfi).
    split; [| destruct (f0 =? 0); lia].
    split; [done |]. split; [congruence |]. split; [congruence |].
    split; [destruct (f0 =? 0); lia |].
    split; [destruct (f0 =? 0); lia |].
    rewrite Hls, Htk, <- Hws, <- app_assoc. f_equal.
    destruct (f0 =? 0) eqn:Hz.
    + apply Z.eqb_eq in Hz. specialize (Hf00 Hz).
      rewrite <- Ht0, Hf00, line_text_merge_run. cbn [line_text fold_right].
      rewrite append_empty_l. cbn. by apply split_word.
    + rewrite !line_text_merge_run, <- Ht0. by apply split_app_space_word.
Qed.

Lemma Fill_words_words compact (words ws : list string) (s : TokenRenderer) :
  holds_words compact ws s -> Forall plain words -> Forall is_word words ->
  exists s',
    Fill_words attr words s = Ok tt s'
    /\ holds_words compact (ws ++ words) s'.
Proof.
  revert ws s. induction words as [| word words IH]; intros ws s Hs Hp Hw.
  - exists s. by rewrite app_nil_r.
  - apply Forall_cons_1 in Hp as [Hp Hps]. apply Forall_cons_1 in Hw as [Hw Hws].
    destruct (Fill_word_words compact ws word s Hs Hp Hw)
      as (s1 & Hrun & Hs1 & _).
    destruct (IH (ws ++ [word]) s1 Hs1 Hps Hws) as (s' & Hrun' & Hs').
    exists s'. cbn [Fill_words]. rewrite (bind_Ok _ _ _ _ _ Hrun).
    split; [done |]. by rewrite <- app_assoc in Hs'.
Qed.

Lemma Flush_words compact (ws : list string) (s : TokenRenderer) :
  holds_words compact ws s ->
  exists s',
    _Flush attr s = Ok tt s'
    /\ holds_words compact ws s'
    /\ _fill s' = 0 /\ words_of_lines (_lines s') = ws.
Proof.
  intros (Hr & Hh & Ht & Hf & Hbuf & Hws).
  assert (Hr0 : Fill_ready compact (set_ignore_width false s)).
  { destruct Hr as (? & ? & ? & ? & ?). by repeat split. }
  unfold _Flush, Content. rewrite bind_modify, bind_gets.
  cbn [_fill set_ignore_width].
  destruct (_fill s =? 0) eqn:Hz; cbn [negb when].
  - apply Z.eqb_eq in Hz. pose proof (Hbuf Hz) as Hnil.
    eexists. split; [reflexivity |].
    unfold holds_words, output_words in *. cbn.
    rewrite Hnil in *. cbn in Hws. rewrite app_nil_r in Hws.
    cbn. rewrite app_nil_r. repeat split; try done; apply Hr0.
  - destruct (NewLine_words None (set_ignore_width false s) Hh Ht)
      as (L & Hrun & HL).
    rewrite (bind_Ok _ _ _ _ _ Hrun), !bind_modify.
    eexists. split; [reflexivity |].
    assert (HL' : words_of_lines L = ws) by (by rewrite <- Hws).
    unfold words_of_lines in HL'.
    unfold holds_words, output_words. cbn.
    rewrite HL', app_nil_r. repeat split; try done; apply Hr0.
Qed.

Lemma Line_words compact (ws : list string) (s : TokenRenderer) :
  holds_words compact ws s ->
  exists s', Line_ attr s = Ok tt s' /\ holds_words compact ws s'.
Proof.
  intros Hs. unfold Line_, HaveBlank, Blank. rewrite bind_gets.
  destruct (_ignore_paragraph s); [by exists s |].
  destruct (Flush_words compact ws s Hs) as (s1 & Hrun & Hs1 & Hf1 & _).
  rewrite (bind_Ok _ _ _ _ _ Hrun), bind_gets.
  destruct (_blank s1); cbn [negb when]; [by exists s1 |].
  rewrite bind_modify.
  destruct Hs1 as (Hr & Hh & Ht & Hf & Hbuf & Hws).
  destruct (NewLine_words None (set_blank true s1) Hh Ht) as (L & -> & HL).
  eexists. split; [reflexivity |].
  assert (HL' : words_of_lines L = ws) by (by rewrite <- Hws).
  unfold words_of_lines in HL'.
  unfold holds_words, output_words. cbn.
  rewrite HL', app_nil_r. repeat split; try done; apply Hr.
Qed.

Lemma paragraphs_words compact (evs : list Event) (ws : list string)
    (s : TokenRenderer) :
  holds_words compact ws s ->
  Forall (paragraph_event plain) evs ->
  exists s',
    run_events attr evs s = Ok tt s'
    /\ holds_words compact (ws ++ concat (map event_words evs)) s'.
Proof.
  intros Hs Hevs. revert ws s Hs.
  induction Hevs as [| ev evs Hev _ IH]; intros ws s Hs.
  - exists s. cbn. by rewrite app_nil_r.
  - assert (exists s1, run_event attr ev s = Ok tt s1
                       /\ holds_words compact (ws ++ event_words ev) s1)
      as (s1 & Hrun & Hs1).
    { destruct ev; try done; cbn [run_event paragraph_event event_words] in *.
      - rewrite app_nil_r. by apply Line_words.
      - unfold Fill, Blank. rewrite bind_modify.
        apply Fill_words_words; [| done | apply split_is_word].
        destruct Hs as (Hr & ? & ? & ? & ? & ?). split; [| done].
        destruct Hr as (? & ? & ? & ? & ?). by repeat split. }
    destruct (IH _ s1 Hs1) as (s' & Hrun' & Hs').
    exists s'. cbn [run_events map concat].
    rewrite (bind_Ok _ _ _ _ _ Hrun). split; [done |].
    by rewrite app_assoc.
Qed.

(** X19. [Fill] keeps the words: with no height limit, a session of [Fill]
    calls on texts without markers and of paragraph breaks, ended by
    [Finish], returns lines whose words, read line by line, are exactly the
    words of the texts, in order: wrapping loses, adds, splits and reorders
    nothing, whatever the width. *)
Theorem Fill_keeps_words (W : Z) (compact : bool) (evs : list Event) :
  Forall (paragraph_event plain) evs ->
  exists out s',
    (run_events attr evs ;; Finish attr) (TokenRenderer_init W 0 compact)
    = Ok out s'
    /\ words_of_lines out = concat (map event_words evs).
Proof.
  intros Hevs.
  destruct (paragraphs_words compact evs [] (TokenRenderer_init W 0 compact))
    as (s1 & Hrun & Hs1); [by repeat split | done |].
  destruct (Flush_words compact _ s1 Hs1) as (s2 & Hflush & _ & _ & Hout).
  eexists _, _. split.
  { rewrite (bind_Ok _ _ _ _ _ Hrun). unfold Finish.
    rewrite (bind_Ok _ _ _ _ _ Hflush). reflexivity. }
  exact Hout.
Qed.

End Words.

Lemma Fill_keeps_words_witness :
  exists out s',
    (run_events AsciiAttr.attr
       [EvFill "one two  three"; EvLine; EvFill " four five six seven "] ;;
     Finish AsciiAttr.attr) (TokenRenderer_init 9 0 false) = Ok out s'
    /\ words_of_lines out
       = concat (map event_words
                   [EvFill "one two  three"; EvLine;
                    EvFill " four five six seven "]).
Proof.
  apply (Fill_keeps_words AsciiAttr.attr 9 false
           [EvFill "one two  three"; EvLine; EvFill " four five six seven "]).
  constructor; [vm_compute; repeat constructor |].
  constructor; [exact I |].
  constructor; [vm_compute; repeat constructor | constructor].
Defined.

(** ** [Finish] and [Heading] *)

Lemma bind_Ok_inv {A B} (m : M A) (k : A -> M B) s b s' :
  bind m k s = Ok b s' -> exists a s1, m s = Ok a s1 /\ k a s1 = Ok b s'.
Proof.
  unfold bind. destruct (m s) as [a s1 | e s1]; [| done]. by exists a, s1.
Qed.

(** X20. [Finish] can be called again: it returns the lines, and a second
    call returns the same lines and leaves the renderer as the first call
    left it. *)
Theorem Finish_twice (attr : ConsoleAttr) (s : TokenRenderer) :
  exists out s',
    Finish attr s = Ok out s' /\ _lines s' = out
    /\ Finish attr s' = Ok out s'.
Proof.
  assert (Hdone : forall s0 : TokenRenderer,
    _fill s0 = 0 ->
    Finish attr s0
    = Ok (_lines s0) (set_font 0 (set_ignore_width false s0))).
  { intros s0 H0.
    assert (Hfl : _Flush attr s0 = Ok tt (set_ignore_width false s0)).
    { unfold _Flush. rewrite bind_modify, bind_gets.
      cbn [_fill set_ignore_width]. by rewrite H0. }
    unfold Finish. by rewrite (bind_Ok _ _ _ _ _ Hfl). }
  assert (Hfix : forall s0 : TokenRenderer,
    _fill s0 = 0 -> _font s0 = 0 -> _ignore_width s0 = false ->
    Finish attr s0 = Ok (_lines s0) s0).
  { intros s0 H0 H1 H2. rewrite Hdone by done.
    destruct s0; cbn in *. by subst. }
  destruct (_fill s =? 0) eqn:Hz.
  - apply Z.eqb_eq in Hz.
    exists (_lines s), (set_font 0 (set_ignore_width false s)).
    split; [by apply Hdone |]. split; [done |].
    by apply (Hfix (set_font 0 (set_ignore_width false s))).
  - destruct (NewLine_spec attr None (set_ignore_width false s))
      as (L & b & Hrun & _).
    assert (exists s1, _Flush attr s = Ok tt s1 /\ _lines s1 = L
                             /\ _fill s1 = 0 /\ _ignore_width s1 = false)
      as (s1 & Hfl & HL & Hf1 & Hi1).
    { eexists. split.
      - unfold _Flush, Content.
        rewrite bind_modify, bind_gets. cbn [_fill set_ignore_width].
        rewrite Hz. cbn [negb when].
        rewrite (bind_Ok _ _ _ _ _ Hrun), !bind_modify. reflexivity.
      - done. }
    exists L, (set_font 0 s1). split; [| split; [done |]].
    + unfold Finish. rewrite (bind_Ok _ _ _ _ _ Hfl). by rewrite <- HL.
    + rewrite <- HL. by apply (Hfix (set_font 0 s1)).
Qed.

(** [Heading] on a compact renderer, when it returns, has set the flag
    that makes [Line] do nothing. *)
Lemma Heading_ignore_paragraph (attr : ConsoleAttr) (level : nat)
    (heading : string) (s s' : TokenRenderer) :
  _compact s = true ->
  (level =? 1)%nat && Py.endswith "(1)" heading = false ->
  Heading attr level heading s = Ok tt s' ->
  _ignore_paragraph s' = true.
Proof.
  intros Hc Htitle Hrun. unfold Heading in Hrun. rewrite Htitle in Hrun.
  set (P := fun s0 : TokenRenderer =>
              _width s0 = _width s /\ _height s0 = _height s
              /\ _compact s0 = _compact s).
  assert (HP : P s) by done.
  apply bind_Ok_inv in Hrun as (? & s1 & H1 & Hrun).
  pose proof (kept_Flush attr P s HP) as HP1. rewrite H1 in HP1.
  apply bind_Ok_inv in Hrun as (? & s2 & H2 & Hrun).
  pose proof (kept_Line attr P s1 HP1) as HP2. rewrite H2 in HP2.
  apply bind_Ok_inv in Hrun as (? & s3 & H3 & Hrun).
  pose proof (kept_Font attr P None s2 HP2) as HP3. rewrite H3 in HP3.
  rewrite bind_gets in Hrun.
  destruct HP3 as (_ & _ & Hc3). cbn in Hc3. rewrite Hc3, Hc in Hrun.
  apply bind_Ok_inv in Hrun as (? & s4 & _ & Hrun).
  apply bind_Ok_inv in Hrun as (? & s5 & _ & Hrun).
  cbv [bind modify Blank] in Hrun. by injection Hrun as <-.
Qed.

(** X21. On a compact renderer a paragraph break that follows a heading
    (other than the title of a man page, which is ignored) does nothing:
    the heading and the break together return, or raise, as the heading
    alone does, and leave the renderer as the heading alone leaves it. *)
Theorem Heading_then_Line (attr : ConsoleAttr) (level : nat)
    (heading : string) (s : TokenRenderer) :
  _compact s = true ->
  (level =? 1)%nat && Py.endswith "(1)" heading = false ->
  (Heading attr level heading ;; Line_ attr) s = Heading attr level heading s.
Proof.
  intros Hc Htitle.
  pose proof (Heading_ignore_paragraph attr level heading s) as Hflag.
  unfold bind at 1.
  destruct (Heading attr level heading s) as [[] s' | e s']; [| done].
  unfold Line_. rewrite bind_gets, (Hflag s') by done. reflexivity.
Qed.

Lemma Heading_then_Line_witness :
  (Heading AsciiAttr.attr 2 "NAME" ;; Line_ AsciiAttr.attr)
    (TokenRenderer_init 80 0 true)
  = Heading AsciiAttr.attr 2 "NAME" (TokenRenderer_init 80 0 true).
Proof. apply (Heading_then_Line AsciiAttr.attr 2 "NAME"); reflexivity. Defined.

(** ** The width of a truncated line *)

Lemma AsciiAttr_width_from_plain (a : string) :
  plain a -> AsciiAttr.width_from false a = Py.len a.
Proof.
  induction a as [| c a IH]; [done |].
  intros [Hc Ha]%plain_cons. cbn [AsciiAttr.width_from]. rewrite Hc, IH by done.
  unfold Py.len. cbn [String.length]. lia.
Qed.

Global Instance AsciiAttr_CharacterWidth : CharacterWidth AsciiAttr.attr.
Proof. intros a Ha. by apply AsciiAttr_width_from_plain. Qed.

Lemma length_take (n : nat) (s : string) :
  String.length (Py.take n s) = Nat.min n (String.length s).
Proof.
  revert n. induction s as [| c s IH]; intros [| n]; cbn; try done.
  by rewrite IH.
Qed.

Lemma len_slice_to_neg (k : Z) (s : string) :
  0 < k -> k <= Py.len s -> Py.len (Py.slice_to (- k) s) = Py.len s - k.
Proof.
  intros Hk Hle. unfold Py.slice_to, Py.len in *.
  destruct (Z.ltb_spec (- k) 0); [| lia]. rewrite length_take. lia.
Qed.

Lemma len_slice_to_le (k : Z) (s : string) :
  0 <= k -> Py.len (Py.slice_to k s) <= k.
Proof.
  intros Hk. unfold Py.slice_to, Py.len.
  destruct (Z.ltb_spec k 0); [lia |]. rewrite length_take. lia.
Qed.

Section Truncation.

Context (attr : ConsoleAttr) `{!CharacterWidth attr}.

(** The loop of [_Truncate] leaves room for the marker. *)
Lemma truncate_tokens_room (available : Z) (tokens : list Run) :
  marker_width <= available -> clean_line tokens ->
  line_width attr (truncate_tokens attr available tokens)
  <= available - marker_width.
Proof.
  change marker_width with 3.
  revert available. induction tokens as [| [t w] tokens IH];
    intros available Hav Hcl; cbn [truncate_tokens]; [cbn; lia |].
  apply Forall_cons_1 in Hcl as [Hw Hcl].
  cbn [TOKEN_TEXT_INDEX TOKEN_TYPE_INDEX snd fst] in *. cbv zeta.
  change marker_width with 3.
  pose proof (width_len w Hw) as Hlen. unfold Py.len in Hlen.
  destruct (Z.leb_spec (available - DisplayWidth attr w) 3) as [Hle | Hgt].
  - cbn [line_width fold_right TOKEN_TEXT_INDEX snd].
    destruct (Z.eqb_spec (3 - (available - DisplayWidth attr w)) 0)
      as [Hz | Hnz]; [lia |].
    rewrite width_len by (by apply plain_slice_to).
    rewrite len_slice_to_neg; unfold Py.len; lia.
  - cbn [line_width fold_right TOKEN_TEXT_INDEX snd].
    specialize (IH (available - DisplayWidth attr w) ltac:(lia) Hcl).
    unfold line_width in IH. lia.
Qed.

(** X22. The line truncated at the height limit when [Fill] overflows fits
    the width: with a provider that counts characters, a width of at least
    the three columns of the marker, a buffer without markers and no more
    room announced than the line has left, the line [_Truncate] returns,
    marker included, is within the width, on each of its three branches. *)
Theorem Truncate_fits (tokens : list Run) (word : string) (available : Z)
    (s : TokenRenderer) :
  tokens <> [] -> clean_line tokens ->
  marker_width <= _width s ->
  line_width attr tokens + available <= _width s ->
  exists l,
    _Truncate attr tokens (Some (word, available)) s
    = Ok l (set_truncated true s)
    /\ fits attr (_width s) l.
Proof.
  intros Hne Hcl HW Hroom. unfold _Truncate, fits.
  rewrite bind_modify.
  destruct tokens as [| tok tokens]; [done |].
  assert (Hmark : line_width attr [marker_token] = 3).
  { cbn. by rewrite width_len. }
  change marker_width with 3 in *.
  destruct (Z.eqb_spec 3 available) as [Heq | Hneq].
  - eexists. split; [reflexivity |]. rewrite line_width_app, Hmark. lia.
  - destruct (Z.leb_spec (3 + 1) available) as [Hle | Hgt].
    + eexists. split; [reflexivity |].
      rewrite !line_width_app, Hmark.
      set (tl := line_width attr (tok :: tokens)) in *.
      cbn [line_width fold_right TOKEN_TEXT_INDEX snd].
      assert (Hp : plain (Py.slice_to (available - 3 - 1) (_UnFormat word)))
        by apply plain_slice_to, UnFormat_is_plain.
      rewrite width_len by (apply plain_app; [reflexivity | exact Hp]).
      pose proof (len_slice_to_le (available - 3 - 1) (_UnFormat word)
                    ltac:(lia)) as Hlen.
      unfold Py.len in *. rewrite length_append. cbn [String.length]. lia.
    + eexists. split; [reflexivity |]. cbn [_width set_truncated].
      rewrite line_width_app, Hmark.
      pose proof (truncate_tokens_room (_width s) (tok :: tokens) HW Hcl).
      change marker_width with 3 in *. lia.
Qed.

End Truncation.

Lemma Truncate_fits_witness :
  exists l,
    _Truncate AsciiAttr.attr [(Markdown_Normal, "one two three")]
      (Some ("four", 1)) (TokenRenderer_init 14 1 true)
    = Ok l (set_truncated true (TokenRenderer_init 14 1 true))
    /\ fits AsciiAttr.attr (_width (TokenRenderer_init 14 1 true)) l.
Proof.
  apply (Truncate_fits AsciiAttr.attr [(Markdown_Normal, "one two three")]
           "four" 1 (TokenRenderer_init 14 1 true)).
  - done.
  - by repeat constructor.
  - vm_compute. congruence.
  - vm_compute. congruence.
Defined.

(** ** Sessions whose lines fit the width *)

(** *** Calls that return, with a postcondition *)












Section Rendering.

Context (attr : ConsoleAttr) `{!ColumnWidth attr}.
Context (W : Z) (compact : bool).







(** *** The buffer *)







End Rendering.

Section Stack.

Context (attr : ConsoleAttr) `{!ColumnWidth attr}.
Context (W : Z) (compact : bool).

(** *** Spaces *)




(** *** The indent stack *)








End Stack.



Section Methods.

Context (attr : ConsoleAttr) `{!ColumnWidth attr}.
Context (W : Z).
Hypothesis width_nonneg_W : 0 <= W.


Lemma room_flushed level stack b fill iw :
  room W level stack b fill iw -> room W level stack 0 0 false.
Proof. intros (? & ? & _). repeat split; (done || lia). Qed.


(** *** [_Flush], [Line], [Font] and [Finish] *)





(** *** [Heading] *)


End Methods.

(** *** [_AddDefinition] and [List] *)



Section Lists.

Context (attr : ConsoleAttr) `{!ColumnWidth attr}.
Context (W : Z).
Hypothesis width_nonneg_W : 0 <= W.



End Lists.

Section ListEvent.

Context (attr : ConsoleAttr) `{!ColumnWidth attr}.
Context (W : Z).
Hypothesis width_nonneg_W : 0 <= W.



End ListEvent.

Section FillEvent.

Context (attr : ConsoleAttr) `{!ColumnWidth attr}.
Context (W : Z).
Hypothesis width_nonneg_W : 0 <= W.

(** *** [Fill] *)




(** *** [Example] and [TableLine] *)




End FillEvent.

Section SynopsisEvent.

Context (attr : ConsoleAttr) `{!ColumnWidth attr}.
Context (W : Z).
Hypothesis width_nonneg_W : 0 <= W.

(** *** [Synopsis] *)



End SynopsisEvent.

Section SessionLines.

Context (attr : ConsoleAttr) `{!ColumnWidth attr}.
Context (W : Z).
Hypothesis width_nonneg_W : 0 <= W.

(** *** Events and sessions *)










End SessionLines.






